(** * Scratchpad framework scripts: a shallow embedding and its properties

    The development follows three scripts of the repository:
    - [scripts/convert_frameworks_to_proper_yaml.py]: [clean_text],
      [parse_scratchpad_sections], [parse_xml_to_yaml], [convert_framework]
      and the loop of [main];
    - [scripts/fix_all_yaml_compliance.py]: [YAMLRemediator];
    - [scripts/add_yaml_doc_markers.py]: [add_doc_marker] and the loop of
      [main].

    Python text is a sequence of Unicode code points, so a [str] is a list of
    code points ([N]).  The scripts lean on the [re] module; the patterns
    they use are sequences of quantified character classes, groups and one
    back-reference, and [Re] below is a backtracking matcher for exactly that
    fragment, with the priorities of the [re] engine (greedy: longest first,
    lazy: shortest first, leftmost match wins). *)

From Stdlib Require Import String Ascii.
From Stdlib Require Import NArith ZArith Bool Arith Lia List.
Import ListNotations.

Set Implicit Arguments.
Set Warnings "-register-all".

(** ** Python text *)

Definition char := N.
Definition str := list char.

Definition ch (a : ascii) : char := N_of_ascii a.

(** [py "abc"] is the Python string ['abc']. *)
Definition py (s : string) : str := map ch (list_ascii_of_string s).

Definition NL : char := 10%N.
Definition TAB : char := 9%N.
Definition NBSP : char := 160%N.

Definition str_eq_dec : forall a b : str, {a = b} + {a <> b} :=
  list_eq_dec N.eq_dec.

Definition str_eqb (a b : str) : bool := if str_eq_dec a b then true else false.

Module Py.

Local Open Scope N_scope.

(** [str.isspace] on one code point, which is also [\s] of [re] on text and
    the set [str.strip] removes (CPython's [_PyUnicode_IsWhitespace]). *)
Definition isspace (c : char) : bool :=
  ((9 <=? c) && (c <=? 13)) || ((28 <=? c) && (c <=? 32))
  || (c =? 133) || (c =? 160) || (c =? 5760)
  || ((8192 <=? c) && (c <=? 8202))
  || (c =? 8232) || (c =? 8233) || (c =? 8239) || (c =? 8287)
  || (c =? 12288).

Local Close Scope N_scope.

(** Only whitespace ([l.strip() == '']). *)
Definition allws (l : str) : bool := forallb isspace l.

Fixpoint lstrip (l : str) : str :=
  match l with
  | c :: t => if isspace c then lstrip t else l
  | [] => []
  end.

Definition rstrip (l : str) : str := rev (lstrip (rev l)).

Definition strip (l : str) : str := rstrip (lstrip l).

(** [l.split(sep)] for a one-character separator. *)
Fixpoint split (sep : char) (l : str) : list str :=
  match l with
  | [] => [[]]
  | c :: t =>
      if N.eqb c sep then [] :: split sep t
      else match split sep t with
           | h :: r => (c :: h) :: r
           | [] => [[c]]
           end
  end.

(** [sep.join(ls)]. *)
Fixpoint join (sep : str) (ls : list str) : str :=
  match ls with
  | [] => []
  | [x] => x
  | x :: r => x ++ sep ++ join sep r
  end.

(** [l.replace(a, b)] for one-character [a] and [b]. *)
Definition replace_char (a b : char) (l : str) : str :=
  map (fun c => if N.eqb c a then b else c) l.

Fixpoint startswith (p l : str) : bool :=
  match p, l with
  | [], _ => true
  | a :: p', b :: l' => N.eqb a b && startswith p' l'
  | _ :: _, [] => false
  end.

(** [needle in l] on text: substring test. *)
Fixpoint contains (needle l : str) : bool :=
  startswith needle l ||
  match l with
  | [] => false
  | _ :: t => contains needle t
  end.

(** [c in l] for one character. *)
Definition has_char (c : char) (l : str) : bool := existsb (N.eqb c) l.

(** [l.replace(old, new)] for a non-empty [old]: occurrences are taken
    left to right and do not overlap; [skip] counts the characters of the
    last occurrence still to pass. *)
Fixpoint replace_from (old new : str) (skip : nat) (l : str) : str :=
  match skip, l with
  | S k, _ :: t => replace_from old new k t
  | S _, [] => []
  | O, [] => []
  | O, c :: t =>
      if startswith old l
      then new ++ replace_from old new (pred (length old)) t
      else c :: replace_from old new 0 t
  end.

Definition replace (old new l : str) : str := replace_from old new 0 l.

End Py.

(** Case mapping is data of the Unicode database, which is not part of the
    repository: it is taken as an interface.  [str_lower] is [str.lower];
    [chr_lower] is the one-character lowering the [re] engine applies to both
    sides when it compares a back-reference under [re.IGNORECASE];
    [unicode_name] resolves the name of a [\N{...}] escape. *)
Class Unicode := {
  str_lower : str -> str;
  chr_lower : char -> char;
  unicode_name : str -> option char
}.

(** The ASCII part of the tables, enough to run the scripts on ASCII text. *)
Definition ascii_lower (c : char) : char :=
  if (N.leb 65 c && N.leb c 90)%bool then (c + 32)%N else c.

Definition ascii_unicode : Unicode := {|
  str_lower := map ascii_lower;
  chr_lower := ascii_lower;
  unicode_name := fun _ => None
|}.

(** ** The fragment of [re] the scripts use *)

Module Re.

Inductive quant :=
| Once                 (* x *)
| Greedy (min : nat)   (* x* is Greedy 0, x+ is Greedy 1, x{3,} is Greedy 3 *)
| Lazy (min : nat).    (* x*? is Lazy 0, x+? is Lazy 1 *)

Inductive item :=
| Chr (p : char -> bool) (q : quant)  (* a character class with its quantifier *)
| Open (i : nat)                      (* ( of group i *)
| Close (i : nat)                     (* ) of group i *)
| Backref (ignorecase : bool) (i : nat)   (* \i *)
| Bos.                                (* ^ without re.MULTILINE *)

Definition pattern := list item.

Definition is_nil (l : str) : bool :=
  match l with [] => true | _ => false end.

(** Character classes. *)
Definition lit (a : ascii) : char -> bool := fun c => N.eqb c (ch a).
Definition oneof (s : string) : char -> bool :=
  fun c => existsb (N.eqb c) (py s).
Definition noneof (s : string) : char -> bool := fun c => negb (oneof s c).
Definition any : char -> bool := fun _ => true.            (* . with re.DOTALL *)
Definition dot : char -> bool := fun c => negb (N.eqb c NL).  (* . *)
Definition word : char -> bool :=                          (* [a-zA-Z0-9_] *)
  fun c => ((N.leb 97 c && N.leb c 122) || (N.leb 65 c && N.leb c 90)
            || (N.leb 48 c && N.leb c 57) || N.eqb c 95)%bool.

(** Groups while a match is tried: where each open group started (the text
    from there on) and what each closed group holds. *)
Record mstate := { opened : list (nat * str); closed : list (nat * str) }.

Definition empty : mstate := {| opened := []; closed := [] |}.

Fixpoint lookup (i : nat) (l : list (nat * str)) : option str :=
  match l with
  | [] => None
  | (j, v) :: t => if Nat.eqb i j then Some v else lookup i t
  end.

Definition open_group (i : nat) (l : str) (st : mstate) : mstate :=
  {| opened := (i, l) :: opened st; closed := closed st |}.

Definition close_group (i : nat) (l : str) (st : mstate) : mstate :=
  match lookup i (opened st) with
  | Some o => {| opened := opened st;
                 closed := (i, firstn (length o - length l) o) :: closed st |}
  | None => st
  end.

Section Matcher.
Context {U : Unicode}.
Variable R : Type.

(** [x{min,}]: as many as possible first, then one fewer, ... *)
Fixpoint greedy_rep (p : char -> bool) (k : bool -> str -> option R)
         (min : nat) (bos : bool) (l : str) : option R :=
  match l with
  | c :: t =>
      if p c then
        match greedy_rep p k (pred min) false t with
        | Some r => Some r
        | None => if Nat.eqb min 0 then k bos l else None
        end
      else if Nat.eqb min 0 then k bos l else None
  | [] => if Nat.eqb min 0 then k bos l else None
  end.

(** [x{min,}?]: as few as possible first, then one more, ... *)
Fixpoint lazy_rep (p : char -> bool) (k : bool -> str -> option R)
         (min : nat) (bos : bool) (l : str) : option R :=
  match min with
  | O =>
      match k bos l with
      | Some r => Some r
      | None =>
          match l with
          | c :: t => if p c then lazy_rep p k 0 false t else None
          | [] => None
          end
      end
  | S m =>
      match l with
      | c :: t => if p c then lazy_rep p k m false t else None
      | [] => None
      end
  end.

(** Does [l] start with the group text [g]; what follows it. *)
Fixpoint after_prefix (ignorecase : bool) (g l : str) : option str :=
  match g, l with
  | [], _ => Some l
  | a :: g', b :: l' =>
      if (if ignorecase then N.eqb (chr_lower a) (chr_lower b) else N.eqb a b)
      then after_prefix ignorecase g' l' else None
  | _ :: _, [] => None
  end.
End Matcher.

Section Run.
Context {U : Unicode}.

(** One attempt at one position: [bos] says whether the position is the
    start of the text, [l] is the text from the position on.  The result
    is the text after the match and the groups. *)
Fixpoint mrun (its : pattern) (st : mstate) (bos : bool) (l : str)
  : option (str * mstate) :=
  match its with
  | [] => Some (l, st)
  | Chr p Once :: its' =>
      match l with
      | c :: t => if p c then mrun its' st false t else None
      | [] => None
      end
  | Chr p (Greedy n) :: its' => greedy_rep p (mrun its' st) n bos l
  | Chr p (Lazy n) :: its' => lazy_rep p (mrun its' st) n bos l
  | Open i :: its' => mrun its' (open_group i l st) bos l
  | Close i :: its' => mrun its' (close_group i l st) bos l
  | Backref ic i :: its' =>
      match lookup i (closed st) with
      | Some g =>
          match after_prefix ic g l with
          | Some t =>
              mrun its' st (bos && match g with [] => true | _ => false end) t
          | None => None
          end
      | None => None
      end
  | Bos :: its' => if bos then mrun its' st bos l else None
  end.

(** A match object: [m.group(0)] and the numbered groups. *)
Record rmatch := { whole : str; groups : list (nat * str) }.

(** [m.group(i)] as [findall] reports it: [''] for a group that did not
    take part. *)
Definition group (i : nat) (m : rmatch) : str :=
  match lookup i (groups m) with
  | Some g => g
  | None => []
  end.

Definition match_at (its : pattern) (bos : bool) (l : str) : option rmatch :=
  match mrun its empty bos l with
  | Some (rest, st) =>
      Some {| whole := firstn (length l - length rest) l;
              groups := closed st |}
  | None => None
  end.

(** The scan shared by [findall], [sub] and [search]: the text cut into
    the characters no match covers ([inl]) and the matches ([inr]), left
    to right, each match tried at the first position after the previous
    one.  [skip] counts the characters of the last match still to pass.
    The patterns of the scripts all consume at least one character; an
    empty match is reported once at its position and the scan moves on. *)
Fixpoint scan (its : pattern) (skip : nat) (bos : bool) (l : str)
  : list (char + rmatch) :=
  match skip, l with
  | S k, _ :: t => scan its k false t
  | S _, [] => []
  | O, [] =>
      match match_at its bos [] with
      | Some m => [inr m]
      | None => []
      end
  | O, c :: t =>
      match match_at its bos l with
      | Some m =>
          match length (whole m) with
          | O => inr m :: inl c :: scan its 0 false t
          | S k => inr m :: scan its k false t
          end
      | None => inl c :: scan its 0 false t
      end
  end.

Definition finditer (its : pattern) (l : str) : list rmatch :=
  flat_map (fun x => match x with inl _ => [] | inr m => [m] end)
           (scan its 0 true l).

(** [re.search(pattern, l)]. *)
Definition search (its : pattern) (l : str) : option rmatch :=
  hd_error (finditer its l).

(** [re.sub(pattern, repl, l)] with a function [repl]. *)
Definition sub_with (its : pattern) (repl : rmatch -> str) (l : str) : str :=
  flat_map (fun x => match x with inl c => [c] | inr m => repl m end)
           (scan its 0 true l).

(** [re.sub(pattern, repl, l)] with a replacement text without group
    references. *)
Definition sub (its : pattern) (repl : str) (l : str) : str :=
  sub_with its (fun _ => repl) l.

End Run.

End Re.

(** ** Python values, exceptions, files *)

(** What [yaml.safe_load] returns and what [parse_xml_to_yaml] builds.  A
    [dict] keeps its keys in insertion order; keys are text. *)
Inductive pyval :=
| VNone
| VBool (b : bool)
| VInt (z : Z)
| VStr (s : str)
| VList (l : list pyval)
| VDict (d : list (str * pyval)).

Module Dict.
Section Ops.
Variable V : Type.

(** [d.get(k)] / [k in d]. *)
Fixpoint get (k : str) (d : list (str * V)) : option V :=
  match d with
  | [] => None
  | (k', v) :: r => if str_eqb k k' then Some v else get k r
  end.

Definition has (k : str) (d : list (str * V)) : bool :=
  match get k d with Some _ => true | None => false end.

(** [d[k] = v]: an existing key keeps its place, a new one goes last. *)
Fixpoint set (k : str) (v : V) (d : list (str * V)) : list (str * V) :=
  match d with
  | [] => [(k, v)]
  | (k', v') :: r =>
      if str_eqb k k' then (k, v) :: r else (k', v') :: set k v r
  end.

(** [del d[k]] for a key that is there: no entry of the key is left. *)
Fixpoint del (k : str) (d : list (str * V)) : list (str * V) :=
  match d with
  | [] => []
  | (k', v') :: r => if str_eqb k k' then del k r else (k', v') :: del k r
  end.
End Ops.
End Dict.

Inductive exn_kind :=
| OSError | UnicodeDecodeError | UnicodeEncodeError | SyntaxError
| TypeError | KeyError | YAMLError | RecursionError.

(** A raised exception: its class and [str(e)]. *)
Record exn := Exn { kind : exn_kind; message : str }.

Inductive outcome (A : Type) :=
| Returns (a : A)
| Raises (e : exn).
Arguments Returns {A} a.
Arguments Raises {A} e.

Definition obind {A B} (m : outcome A) (k : A -> outcome B) : outcome B :=
  match m with
  | Returns a => k a
  | Raises e => Raises e
  end.

(** A file as the scripts see it: what [open(path).read()] gives, and whether
    [open(path, 'w')] succeeds. *)
Record file := File { path : str; read : outcome str; writable : bool }.

Definition write (f : file) (text : str) : outcome file :=
  if writable f
  then Returns {| path := path f; read := Returns text; writable := true |}
  else Raises (Exn OSError (py "Permission denied")).

(** PyYAML is a library the scripts call, not code of the repository. *)
Class Yaml := {
  safe_load : str -> outcome pyval;
  dump : pyval -> str
}.

(** ** scripts/convert_frameworks_to_proper_yaml.py *)

Module Convert.
Import Re.

Section Script.
Context {U : Unicode}.

(** [r'\n\s*\n\s*\n+'] *)
Definition blank_lines : pattern :=
  [Chr (N.eqb NL) Once; Chr Py.isspace (Greedy 0);
   Chr (N.eqb NL) Once; Chr Py.isspace (Greedy 0);
   Chr (N.eqb NL) (Greedy 1)].

Definition clean_text (text : str) : str :=
  let text := sub blank_lines [NL; NL] text in
  let lines := map Py.rstrip (Py.split NL text) in
  Py.strip (Py.join [NL] lines).

(** Notions to speak about [clean_text]: the number of newlines in the
    whitespace a text starts with; a position at which [blank_lines] finds
    three of them; a text with no such position; and whether a text is
    whitespace up to the end of its first line. *)
Fixpoint leading_newlines (l : str) : nat :=
  match l with
  | c :: t =>
      if Py.isspace c
      then (if N.eqb NL c then 1 else 0) + leading_newlines t
      else 0
  | [] => 0
  end.

Definition blank_run (l : str) : bool :=
  match l with
  | c :: t => N.eqb NL c && (2 <=? leading_newlines t)
  | [] => false
  end.

Fixpoint calm (l : str) : bool :=
  match l with
  | c :: t => negb (N.eqb NL c && (2 <=? leading_newlines t)) && calm t
  | [] => true
  end.

Fixpoint line_is_blank (l : str) : bool :=
  match l with
  | c :: t => if N.eqb NL c then true else Py.isspace c && line_is_blank t
  | [] => true
  end.

(** The first step of [clean_text], [re.sub(blank_lines, '\n\n', text)],
    from a position of the text on. *)
Definition squeeze (bos : bool) (l : str) : str :=
  flat_map (fun x => match x with inl c => [c] | inr _ => [NL; NL] end)
           (scan blank_lines 0 bos l).

(** The second step of [clean_text]: every line without its trailing
    whitespace. *)
Definition rstrip_lines (text : str) : str :=
  Py.join [NL] (map Py.rstrip (Py.split NL text)).

(** [r'\[([^:]+):.*?\]'] *)
Definition section_pattern : pattern :=
  [Chr (lit "[") Once; Open 1; Chr (noneof ":") (Greedy 1); Close 1;
   Chr (lit ":") Once; Chr dot (Lazy 0); Chr (lit "]") Once].

Definition parse_scratchpad_sections (content : str) : list str :=
  let sections := map (group 1) (finditer section_pattern content) in
  map Py.strip sections.

(** [r'<([^/>]+)>(.*?)</\1>'] with [re.DOTALL], and with or without
    [re.IGNORECASE]: [findall] is called with it, [sub] without.  The
    literals and the class of the pattern hold no cased character, so the
    flag only changes how the back-reference compares. *)
Definition tag_pattern (ignorecase : bool) : pattern :=
  [Chr (lit "<") Once; Open 1; Chr (noneof "/>") (Greedy 1); Close 1;
   Chr (lit ">") Once; Open 2; Chr any (Lazy 0); Close 2;
   Chr (lit "<") Once; Chr (lit "/") Once; Backref ignorecase 1;
   Chr (lit ">") Once].

(** [r'<[^/>]+>.*?</[^>]+>'] with [re.DOTALL] *)
Definition nested_pattern : pattern :=
  [Chr (lit "<") Once; Chr (noneof "/>") (Greedy 1); Chr (lit ">") Once;
   Chr any (Lazy 0); Chr (lit "<") Once; Chr (lit "/") Once;
   Chr (noneof ">") (Greedy 1); Chr (lit ">") Once].

(** [r'^(.+?)```'] with [re.DOTALL] *)
Definition usage_pattern : pattern :=
  [Bos; Open 1; Chr any (Lazy 1); Close 1;
   Chr (lit "`") Once; Chr (lit "`") Once; Chr (lit "`") Once].

(** [r'-{3,}'] *)
Definition rule_pattern : pattern := [Chr (lit "-") (Greedy 3)].

Definition nonempty (s : str) : bool :=
  match s with [] => false | _ => true end.

Definition has_nested (tag_content : str) : bool :=
  match search nested_pattern tag_content with
  | Some _ => true
  | None => false
  end.

(** The key a tag name becomes. *)
Definition clean_tag (tag_name : str) : str :=
  Py.replace_char (ch " ") (ch "_") (str_lower (Py.strip tag_name)).

(** The [elif] branch of the loop: the bracketed scratchpad format. *)
Definition bracketed (tag_content : str) : pyval :=
  let sections := parse_scratchpad_sections tag_content in
  let instructions :=
    match search usage_pattern tag_content with
    | Some m => Some (clean_text (group 1 m))
    | None => None
    end in
  let d := [(py "format", VStr (py "bracketed_sections"));
            (py "sections", VList (map VStr sections))] in
  let d := match instructions with
           | Some i => if nonempty i then Dict.set (py "usage") (VStr i) d else d
           | None => d
           end in
  VDict (Dict.set (py "template") (VStr (clean_text tag_content)) d).

(** The value stored for one tag, the body already stripped; [rec] is the
    recursive call. *)
Definition tag_value (rec : str -> option pyval) (tag_content : str)
  : option pyval :=
  if has_nested tag_content then rec tag_content
  else if Py.has_char (ch "[") tag_content
          && Py.contains (py "]:") tag_content
       then Some (bracketed tag_content)
       else Some (VStr (clean_text tag_content)).

(** One turn of [for tag_name, tag_content in matches]. *)
Definition tag_step (rec : str -> option pyval)
           (result : option (list (str * pyval))) (m : rmatch)
  : option (list (str * pyval)) :=
  match result with
  | None => None
  | Some result =>
      match tag_value rec (Py.strip (group 2 m)) with
      | Some v => Some (Dict.set (clean_tag (group 1 m)) v result)
      | None => None
      end
  end.

(** The text outside the tags, as lines 107-109 compute it. *)
Definition remaining_text (content : str) : str :=
  let remaining := Py.strip (sub (tag_pattern false) [] content) in
  let remaining := Py.strip (sub rule_pattern [] remaining) in
  clean_text remaining.

(** The branch without tags (lines 78-84). *)
Definition untagged (content : str) : pyval :=
  let plain := VDict [(py "content", VStr (clean_text content))] in
  if Py.has_char (ch "[") content && Py.has_char (ch "]") content then
    let sections := parse_scratchpad_sections content in
    match sections with
    | [] => plain
    | _ => VDict [(py "sections", VList (map VStr sections));
                  (py "raw_format", VStr (clean_text content))]
    end
  else plain.

(** [parse_xml_to_yaml] with [fuel] nested calls of itself allowed;
    [None] is a recursion that needs more, the [RecursionError] of an
    interpreter that allows no more. *)
Fixpoint parse_fuel (fuel : nat) (content : str) : option pyval :=
  match fuel with
  | O => None
  | S n =>
      match finditer (tag_pattern true) content with
      | [] => Some (untagged content)
      | matches =>
          match fold_left (tag_step (parse_fuel n)) matches (Some []) with
          | None => None
          | Some result =>
              let remaining := remaining_text content in
              Some (VDict (if nonempty remaining
                           then Dict.set (py "instructions") (VStr remaining) result
                           else result))
          end
      end
  end.

(** The function with depth to spare: a tag body is shorter than the text
    it is found in, so this much fuel is always enough (see
    [parse_fuel_enough]). *)
Definition parse_xml_to_yaml (content : str) : option pyval :=
  parse_fuel (S (length content)) content.

(** Three notions to speak about the loop: the key a match is stored
    under, the last match (in the order of the text) stored under a key,
    and the value the loop computes for the body of a match. *)
Definition key_of (m : rmatch) : str := clean_tag (group 1 m).

Definition last_with (key : str) (ms : list rmatch) : option rmatch :=
  find (fun m => str_eqb (key_of m) key) (rev ms).

Definition value_of (m : rmatch) : option pyval :=
  tag_value parse_xml_to_yaml (Py.strip (group 2 m)).

(** *** [convert_framework] *)

Context {Y : Yaml}.

Definition type_error {A} (msg : string) : outcome A :=
  Raises (Exn TypeError (py msg)).

(** [k in v] for a text [k]. *)
Definition py_in (k : str) (v : pyval) : outcome bool :=
  match v with
  | VDict d => Returns (Dict.has k d)
  | VStr s => Returns (Py.contains k s)
  | VList l =>
      Returns (existsb (fun x => match x with
                                 | VStr s => str_eqb k s
                                 | _ => false
                                 end) l)
  | _ => type_error "argument is not iterable"
  end.

(** [v[k]] for a text [k]. *)
Definition py_getitem (v : pyval) (k : str) : outcome pyval :=
  match v with
  | VDict d =>
      match Dict.get k d with
      | Some x => Returns x
      | None => Raises (Exn KeyError k)
      end
  | _ => type_error "indices must be integers"
  end.

(** What lines 133-152 do with the loaded document: [Returns None] is
    [return False], [Returns (Some data')] is the document to write. *)
Definition convert_data (data : pyval) : outcome (option pyval) :=
  match data with
  | VDict d =>
      match Dict.get (py "framework") d with
      | None => Returns None
      | Some framework =>
          obind (py_in (py "content") framework) (fun has_content =>
          if negb has_content then Returns None else
          obind (py_in (py "structure") framework) (fun has_structure =>
          if has_structure then Returns None else
          obind (py_getitem framework (py "content")) (fun content =>
          match content, framework with
          | VStr content, VDict fw =>
              let has_xml := has_nested content in
              let has_brackets :=
                Py.has_char (ch "[") content
                && Py.contains (py "]:") content in
              if negb (has_xml || has_brackets) then Returns None
              else
                match parse_xml_to_yaml content with
                | None =>
                    Raises (Exn RecursionError
                                (py "maximum recursion depth exceeded"))
                | Some parsed_structure =>
                    let fw := Dict.set (py "structure") parsed_structure fw in
                    let fw := Dict.set (py "legacy_content") (VStr content) fw in
                    let fw := Dict.del (py "content") fw in
                    Returns (Some (VDict (Dict.set (py "framework") (VDict fw) d)))
                end
          | _, _ => type_error "expected string or bytes-like object"
          end)))
      end
  | _ => Returns None
  end.

(** [convert_framework]: the file afterwards and the result. *)
Definition convert_framework (yaml_file : file) : file * outcome bool :=
  match obind (read yaml_file) safe_load with
  | Raises e => (yaml_file, Raises e)
  | Returns data =>
      match convert_data data with
      | Raises e => (yaml_file, Raises e)
      | Returns None => (yaml_file, Returns false)
      | Returns (Some data') =>
          match write yaml_file (py "---" ++ [NL] ++ dump data') with
          | Returns f => (f, Returns true)
          | Raises e => (yaml_file, Raises e)
          end
      end
  end.

End Script.
End Convert.

(** ** Codecs: [value.encode('utf-8').decode('unicode_escape')] *)

Module Codec.
Local Open Scope N_scope.

(** [str.encode('utf-8')]; a surrogate cannot be encoded. *)
Definition utf8_char (c : char) : option (list N) :=
  if c <? 128 then Some [c]
  else if c <? 2048 then Some [192 + c / 64; 128 + c mod 64]
  else if (55296 <=? c) && (c <=? 57343) then None
  else if c <? 65536 then
    Some [224 + c / 4096; 128 + (c / 64) mod 64; 128 + c mod 64]
  else if c <=? 1114111 then
    Some [240 + c / 262144; 128 + (c / 4096) mod 64;
          128 + (c / 64) mod 64; 128 + c mod 64]
  else None.

Fixpoint utf8_encode (l : str) : outcome (list N) :=
  match l with
  | [] => Returns []
  | c :: t =>
      match utf8_char c, utf8_encode t with
      | Some b, Returns r => Returns (b ++ r)
      | None, _ =>
          Raises (Exn UnicodeEncodeError (py "surrogates not allowed"))
      | _, Raises e => Raises e
      end
  end.

Definition octal_digit (c : N) : option N :=
  if (48 <=? c) && (c <=? 55) then Some (c - 48) else None.

Definition hex_digit (c : N) : option N :=
  if (48 <=? c) && (c <=? 57) then Some (c - 48)
  else if (97 <=? c) && (c <=? 102) then Some (c - 87)
  else if (65 <=? c) && (c <=? 70) then Some (c - 55)
  else None.

(** Where the decoder is inside an escape. *)
Inductive esc_state :=
| Plain
| Esc                        (* after a backslash *)
| Oct (v : N) (more : nat)   (* in \ooo: [more] digits may follow *)
| Hex (v : N) (more : nat)   (* in \x, \u, \U: [S more] digits must follow *)
| NameOpen                   (* after \N *)
| Name (acc : str).          (* after \N{, the name so far, reversed *)

Definition emit (c : char) (r : outcome str) : outcome str :=
  match r with
  | Returns s => Returns (c :: s)
  | Raises e => Raises e
  end.

Definition decode_error (msg : string) : outcome str :=
  Raises (Exn UnicodeDecodeError (py msg)).

Section Decode.
Context {U : Unicode}.

(** [bytes.decode('unicode_escape')]: a byte outside an escape is the
    code point of the same number; an escape the codec does not know is
    kept as it is. *)
Fixpoint unicode_escape (st : esc_state) (l : list N) : outcome str :=
  match l with
  | [] =>
      match st with
      | Plain => Returns []
      | Esc => decode_error "\ at end of string"
      | Oct v _ => Returns [v]
      | Hex _ _ => decode_error "truncated escape"
      | NameOpen | Name _ => decode_error "malformed \N character escape"
      end
  | c :: t =>
      let plain :=
        if c =? 92 then unicode_escape Esc t
        else emit c (unicode_escape Plain t) in
      match st with
      | Plain => plain
      | Esc =>
          if c =? 10 then unicode_escape Plain t
          else if (c =? 92) || (c =? 39) || (c =? 34)
               then emit c (unicode_escape Plain t)
          else if c =? 98 then emit 8 (unicode_escape Plain t)
          else if c =? 102 then emit 12 (unicode_escape Plain t)
          else if c =? 116 then emit 9 (unicode_escape Plain t)
          else if c =? 110 then emit 10 (unicode_escape Plain t)
          else if c =? 114 then emit 13 (unicode_escape Plain t)
          else if c =? 118 then emit 11 (unicode_escape Plain t)
          else if c =? 97 then emit 7 (unicode_escape Plain t)
          else if c =? 120 then unicode_escape (Hex 0 1) t
          else if c =? 117 then unicode_escape (Hex 0 3) t
          else if c =? 85 then unicode_escape (Hex 0 7) t
          else if c =? 78 then unicode_escape NameOpen t
          else match octal_digit c with
               | Some d => unicode_escape (Oct d 2) t
               | None => emit 92 (emit c (unicode_escape Plain t))
               end
      | Oct v more =>
          match more, octal_digit c with
          | S m, Some d => unicode_escape (Oct (v * 8 + d) m) t
          | _, _ => emit v plain
          end
      | Hex v more =>
          match hex_digit c with
          | Some d =>
              match more with
              | S m => unicode_escape (Hex (v * 16 + d) m) t
              | O => if 1114111 <? v * 16 + d
                     then decode_error "illegal Unicode character"
                     else emit (v * 16 + d) (unicode_escape Plain t)
              end
          | None => decode_error "truncated escape"
          end
      | NameOpen =>
          if c =? 123 then unicode_escape (Name []) t
          else decode_error "malformed \N character escape"
      | Name acc =>
          if c =? 125 then
            match acc with
            | [] => decode_error "malformed \N character escape"
            | _ => match unicode_name (rev acc) with
                   | Some u => emit u (unicode_escape Plain t)
                   | None => decode_error "unknown Unicode character name"
                   end
            end
          else unicode_escape (Name (c :: acc)) t
      end
  end.

Definition unescape (value : str) : outcome str :=
  match utf8_encode value with
  | Returns b => unicode_escape Plain b
  | Raises e => Raises e
  end.
End Decode.
End Codec.

(** ** scripts/fix_all_yaml_compliance.py *)

Module Remediate.
Import Re.

(** [self.stats] *)
Record stats := Stats {
  files_processed : nat;
  files_fixed : nat;
  doc_markers_added : nat;
  escapes_fixed : nat;
  values_quoted : nat;
  nbsp_removed : nat;
  errors : list str
}.

(** [__init__] *)
Definition init : stats := Stats 0 0 0 0 0 0 [].

(** [AMBIGUOUS_VALUES]: the class defines the set; no method reads it. *)
Definition AMBIGUOUS_VALUES : list str :=
  map py ["YES"; "Yes"; "yes"; "NO"; "No"; "no"; "ON"; "On"; "on";
          "OFF"; "Off"; "off"; "TRUE"; "True"; "true"; "FALSE"; "False";
          "false"; "Y"; "y"; "N"; "n"; "~"; "null"; "NULL"; "Null"]%string.

(** The remediator at work on one file: its statistics and the file. *)
Record world := World { st : stats; disk : file }.

(** A method body: it may change the world and either returns or raises. *)
Definition M (A : Type) := world -> world * outcome A.

Definition ret {A} (a : A) : M A := fun w => (w, Returns a).

Definition bind {A B} (m : M A) (k : A -> M B) : M B :=
  fun w => match m w with
           | (w', Returns a) => k a w'
           | (w', Raises e) => (w', Raises e)
           end.

Definition raise {A} (e : exn) : M A := fun w => (w, Raises e).

(** [try: body  except Exception as e: handler(e)] *)
Definition try_except {A} (body : M A) (handler : exn -> M A) : M A :=
  fun w => match body w with
           | (w', Returns a) => (w', Returns a)
           | (w', Raises e) => handler e w'
           end.

(** [try: body  finally: final], [final] one that does not raise. *)
Definition try_finally {A} (body : M A) (final : stats -> stats) : M A :=
  fun w => match body w with
           | (w', r) => (World (final (st w')) (disk w'), r)
           end.

Definition update (f : stats -> stats) : M unit :=
  fun w => (World (f (st w)) (disk w), Returns tt).

Definition read_file : M str :=
  fun w => (w, read (disk w)).

Definition write_file (text : str) : M unit :=
  fun w => match write (disk w) text with
           | Returns f => (World (st w) f, Returns tt)
           | Raises e => (w, Raises e)
           end.

Declare Scope remediate_scope.
Delimit Scope remediate_scope with rem.
Notation "x <- m ;; k" := (bind m (fun x => k))
  (at level 61, m at next level, right associativity) : remediate_scope.
Notation "m ;; k" := (bind m (fun _ => k))
  (at level 61, right associativity) : remediate_scope.

Definition bump_files_processed (s : stats) : stats :=
  Stats (S (files_processed s)) (files_fixed s) (doc_markers_added s)
        (escapes_fixed s) (values_quoted s) (nbsp_removed s) (errors s).
Definition bump_files_fixed (s : stats) : stats :=
  Stats (files_processed s) (S (files_fixed s)) (doc_markers_added s)
        (escapes_fixed s) (values_quoted s) (nbsp_removed s) (errors s).
Definition bump_doc_markers_added (s : stats) : stats :=
  Stats (files_processed s) (files_fixed s) (S (doc_markers_added s))
        (escapes_fixed s) (values_quoted s) (nbsp_removed s) (errors s).
Definition bump_escapes_fixed (s : stats) : stats :=
  Stats (files_processed s) (files_fixed s) (doc_markers_added s)
        (S (escapes_fixed s)) (values_quoted s) (nbsp_removed s) (errors s).
Definition bump_nbsp_removed (s : stats) : stats :=
  Stats (files_processed s) (files_fixed s) (doc_markers_added s)
        (escapes_fixed s) (values_quoted s) (S (nbsp_removed s)) (errors s).
Definition append_error (msg : str) (s : stats) : stats :=
  Stats (files_processed s) (files_fixed s) (doc_markers_added s)
        (escapes_fixed s) (values_quoted s) (nbsp_removed s)
        (errors s ++ [msg]).

Section Script.
Context {U : Unicode}.

Definition marker : str := py "---".

(** Fix 1 (lines 100-101), the text alone. *)
Definition fix_nbsp (content : str) : str :=
  if Py.has_char NBSP content
  then Py.replace_char NBSP (ch " ") content
  else content.

(** Fix 2 (lines 106-107), the text alone. *)
Definition fix_marker (content : str) : str :=
  if negb (Py.startswith marker (Py.strip content))
  then marker ++ [NL] ++ content
  else content.

(** The pattern of [_fix_escaped_content], with Q for the double quote:
    group 1 is [\s+], group 2 is [[a-zA-Z0-9_]+:\s*], then Q, then
    group 3, [[^Q]*] [\\[ntQ]] [[^Q]*], then Q; [re.DOTALL] changes
    nothing, the pattern has no dot. *)
Definition escaped_pattern : pattern :=
  [Open 1; Chr Py.isspace (Greedy 1); Close 1;
   Open 2; Chr word (Greedy 1); Chr (lit ":") Once;
   Chr Py.isspace (Greedy 0); Close 2;
   Chr (N.eqb 34) Once;
   Open 3; Chr (fun c => negb (N.eqb 34 c)) (Greedy 0);
   Chr (lit "\") Once; Chr (fun c => lit "n" c || lit "t" c || N.eqb 34 c) Once;
   Chr (fun c => negb (N.eqb 34 c)) (Greedy 0); Close 3;
   Chr (N.eqb 34) Once].

(** [replace_escapes], without its counter. *)
Definition replace_escapes (m : rmatch) : outcome str :=
  let indent_str := group 1 m in
  let key_str := group 2 m in
  let value := group 3 m in
  let processed_value :=
    match Codec.unescape value with
    | Raises (Exn SyntaxError _) =>
        Returns (Py.replace [ch "\"; 34%N] [34%N]
                  (Py.replace (py "\t") [TAB]
                    (Py.replace (py "\n") [NL] value)))
    | r => r
    end in
  match processed_value with
  | Raises e => Raises e
  | Returns processed_value =>
      let lines :=
        (indent_str ++ key_str ++ py " |")
        :: map (fun line => indent_str ++ py "  " ++ line)
               (Py.split NL processed_value) in
      Returns (Py.join [NL] lines)
  end.

(** [re.sub(pattern, replace_escapes, content)] over the scan: the
    number of replacements made, and the text or the exception of the
    first replacement that raises. *)
Fixpoint sub_escapes (segs : list (char + rmatch)) : nat * outcome str :=
  match segs with
  | [] => (0, Returns [])
  | inl c :: r =>
      match sub_escapes r with
      | (n, Returns s) => (n, Returns (c :: s))
      | (n, Raises e) => (n, Raises e)
      end
  | inr m :: r =>
      match replace_escapes m with
      | Raises e => (0, Raises e)
      | Returns t =>
          match sub_escapes r with
          | (n, Returns s) => (S n, Returns (t ++ s))
          | (n, Raises e) => (S n, Raises e)
          end
      end
  end.

(** The replacements from a position of the text on; [bos] says whether
    the position is the start of the text. *)
Definition pass (bos : bool) (l : str) : nat * outcome str :=
  sub_escapes (scan escaped_pattern 0 bos l).

Definition fix_escaped_text (content : str) : nat * outcome str :=
  pass true content.

(** [_fix_escaped_content] *)
Definition _fix_escaped_content (content : str) : M str :=
  fun w =>
    let (n, r) := fix_escaped_text content in
    (World (Nat.iter n bump_escapes_fixed (st w)) (disk w), r).

(** The three fixers on a text: what [fix_yaml_file] computes between
    reading the file and comparing with the original. *)
Definition remediate (s : str) : outcome str :=
  snd (fix_escaped_text (fix_marker (fix_nbsp s))).

Local Open Scope remediate_scope.

(** [fix_yaml_file]; the log lines are not modelled. *)
Definition fix_yaml_file (filepath : str) : M bool :=
  try_finally
    (try_except
       (content <- read_file ;;
        let original_content := content in
        content <- (if Py.has_char NBSP content
                    then update bump_nbsp_removed ;;
                         ret (Py.replace_char NBSP (ch " ") content)
                    else ret content) ;;
        content <- (if negb (Py.startswith marker (Py.strip content))
                    then update bump_doc_markers_added ;;
                         ret (marker ++ [NL] ++ content)
                    else ret content) ;;
        content <- _fix_escaped_content content ;;
        if negb (str_eqb content original_content)
        then write_file content ;;
             update bump_files_fixed ;;
             ret true
        else ret false)
       (fun e =>
          let error_msg :=
            py "Error processing " ++ filepath ++ py ": " ++ message e in
          update (append_error error_msg) ;;
          ret false))
    bump_files_processed.

(** The loop of [process_directory] over [sorted(yaml_files)], each file
    with its own path; the summary printed after the loop only reads the
    statistics.  The loop drops what [fix_yaml_file] returns, and here
    also how it ends; [RemediateIO.process_directory] below follows an
    exception out of the loop. *)
Fixpoint process_directory (s : stats) (yaml_files : list file)
  : stats * list file :=
  match yaml_files with
  | [] => (s, [])
  | yaml_file :: rest =>
      let w := fst (fix_yaml_file (path yaml_file) (World s yaml_file)) in
      let (s', rest') := process_directory (st w) rest in
      (s', disk w :: rest')
  end.

(** The exception the body of [fix_yaml_file] ends with on this file, if it
    does: reading, a replacement, or writing may raise. *)
Definition failure (yaml_file : file) : option exn :=
  match read yaml_file with
  | Raises e => Some e
  | Returns content =>
      match remediate content with
      | Raises e => Some e
      | Returns fixed =>
          if negb (str_eqb fixed content)
          then match write yaml_file fixed with
               | Raises e => Some e
               | Returns _ => None
               end
          else None
      end
  end.

(** [error_msg] of the [except] clause. *)
Definition error_msg (filepath : str) (e : exn) : str :=
  py "Error processing " ++ filepath ++ py ": " ++ message e.

End Script.
End Remediate.

(** ** scripts/add_yaml_doc_markers.py *)

Module DocMarkers.

(** [add_doc_marker]: the file afterwards and the result; [except IOError]
    catches what [open], [read] and [write] raise as [OSError]. *)
Definition add_doc_marker (filepath : file) : file * outcome bool :=
  let body :=
    match read filepath with
    | Raises e => (filepath, Raises e)
    | Returns content =>
        if Py.startswith (py "---") (Py.strip content)
        then (filepath, Returns false)
        else
          let new_content := py "---" ++ [NL] ++ content in
          match write filepath new_content with
          | Returns f => (f, Returns true)
          | Raises e => (filepath, Raises e)
          end
    end in
  match body with
  | (f, Raises (Exn OSError _)) => (f, Returns false)
  | r => r
  end.

End DocMarkers.

(** ** Sample inputs

    The texts and values the examples below run the scripts on, with the
    ASCII tables. *)

Module Samples.
Import Re Convert.

Definition QUOTE : char := 34%N.





(** A document with a legacy [content], and one already converted. *)
Definition legacy_doc : pyval :=
  VDict [(py "name", VStr (py "Helper"));
         (py "framework",
          VDict [(py "content", VStr (py "<role>Helper</role>"))])].

Definition converted_doc : pyval :=
  VDict [(py "name", VStr (py "Helper"));
         (py "framework",
          VDict [(py "structure", VDict [(py "role", VStr (py "Helper"))]);
                 (py "legacy_content", VStr (py "<role>Helper</role>"))])].

(** A stand-in for PyYAML that loads the text [old] as [converted_doc]
    and any other text as [legacy_doc]. *)
Definition sample_yaml : Yaml :=
  {| safe_load := fun text => if str_eqb text (py "old")
                              then Returns converted_doc
                              else Returns legacy_doc;
     dump := fun _ => py "..." |}.

Definition legacy_file : file :=
  {| path := py "frameworks/a.yml"; read := Returns (py "new"); writable := true |}.

Definition converted_file : file :=
  {| path := py "frameworks/b.yml"; read := Returns (py "old"); writable := true |}.





Definition bare_version : str := py "version: 1.0" ++ [NL] ++ py "name: X".

Definition with_nbsp : str := py "a" ++ [NBSP] ++ py "b".

Definition version_file : file :=
  {| path := py "frameworks/v.yml"; read := Returns bare_version;
     writable := true |}.

End Samples.

(** ** The loops of the [main] functions

    [main] of each script walks the [frameworks] directory and calls the
    function above on every file; the loops are modelled over the list of
    files the [glob] gives, in the order of the walk. *)

Module ConvertMain.
Import Convert.

Section Script.
Context {U : Unicode} {Y : Yaml}.




End Script.

(** One tag pair, written out: [<name>body</name>]. *)
Definition tag_text (name body : str) : str :=
  ch "<" :: name ++ ch ">" :: body ++ ch "<" :: ch "/" :: name ++ [ch ">"].

(** Whether a text begins with a closing tag that the back-reference of
    [tag_pattern] accepts for the name [name]. *)
Definition tag_closes {U : Unicode} (ignorecase : bool) (name l : str) : bool :=
  match l with
  | c0 :: c1 :: t =>
      Re.lit "<" c0 && Re.lit "/" c1
      && match Re.after_prefix ignorecase name t with
         | Some (c2 :: _) => Re.lit ">" c2
         | _ => false
         end
  | _ => false
  end.

End ConvertMain.

Module MarkersMain.
Import DocMarkers.

(** The loop of [main] in [add_yaml_doc_markers.py] (lines 73-78): nothing
    is caught, so an exception [add_doc_marker] lets through ends the loop;
    the files behind it are not visited. *)
Fixpoint marker_loop (yaml_files : list file)
         (modified_count skipped_count : nat)
  : outcome (nat * nat) * list file :=
  match yaml_files with
  | [] => (Returns (modified_count, skipped_count), [])
  | yaml_file :: rest =>
      match add_doc_marker yaml_file with
      | (f, Returns true) =>
          let (r, fs) := marker_loop rest (S modified_count) skipped_count in
          (r, f :: fs)
      | (f, Returns false) =>
          let (r, fs) := marker_loop rest modified_count (S skipped_count) in
          (r, f :: fs)
      | (f, Raises e) => (Raises e, f :: rest)
      end
  end.

(** Whether [add_doc_marker] returns [True] on a file. *)
Definition marks (yaml_file : file) : bool :=
  match snd (add_doc_marker yaml_file) with
  | Returns true => true
  | _ => false
  end.

End MarkersMain.

(** ** More sample inputs *)

Module MoreSamples.
Import Samples.

(** A stand-in for PyYAML that dumps every document as [converted] and
    loads that text, behind the start marker, as [converted_doc]; any other
    text loads as [legacy_doc]. *)
Definition round_trip_yaml : Yaml :=
  {| safe_load := fun text =>
       if str_eqb text (py "---" ++ [NL] ++ py "converted")
       then Returns converted_doc
       else Returns legacy_doc;
     dump := fun _ => py "converted" |}.

(** A document whose [content] is plain prose, and a stand-in for PyYAML
    that loads it from every text. *)
Definition prose_doc : pyval :=
  VDict [(py "name", VStr (py "Notes"));
         (py "framework", VDict [(py "content", VStr (py "Think twice."))])].

Definition prose_yaml : Yaml :=
  {| safe_load := fun _ => Returns prose_doc; dump := fun _ => py "..." |}.

(** A file that cannot be read as text, and one that cannot be opened. *)
Definition binary_file : file :=
  {| path := py "frameworks/c.yml";
     read := Raises (Exn UnicodeDecodeError (py "invalid start byte"));
     writable := true |}.

Definition missing_file : file :=
  {| path := py "frameworks/d.yml";
     read := Raises (Exn OSError (py "No such file or directory"));
     writable := false |}.

End MoreSamples.

(** ** More notions for the remediator *)

Module RemediateMain.
Import Remediate.

(** The dividend of [success_rate] in [print_summary] (line 203),
    [files_processed - len(errors)], an integer subtraction. *)
Definition success_count (s : stats) : Z :=
  (Z.of_nat (files_processed s) - Z.of_nat (length (errors s)))%Z.

Section Script.
Context {U : Unicode}.

(** Whether [fix_yaml_file] returns [True] on a file. *)
Definition fixes (yaml_file : file) : bool :=
  match snd (fix_yaml_file (path yaml_file) (World init yaml_file)) with
  | Returns true => true
  | _ => false
  end.

End Script.
End RemediateMain.

(** ** The depth of the recursion

    Python allows a bounded number of nested calls and raises
    [RecursionError] beyond it; how many are left when
    [parse_xml_to_yaml] is entered depends on the interpreter's setting
    and on the caller.  [parse_fuel limit content] above is the function
    run with [limit] nested calls of itself allowed, and [None] is the
    [RecursionError]; [parse_xml_to_yaml] is the function with depth to
    spare. *)

Module Depth.
Import Re Convert ConvertMain.

Section Script.
Context {U : Unicode}.

(** The nested calls the function makes on a text, itself included: one,
    and one more than the deepest call on a tag body that holds a tag
    pair (line 91).  [fuel] bounds the recursion as in [parse_fuel]. *)
Fixpoint depth_fuel (fuel : nat) (content : str) : nat :=
  match fuel with
  | O => 0
  | S n =>
      S (fold_left
           (fun deepest m =>
              let tag_content := Py.strip (group 2 m) in
              if has_nested tag_content
              then Nat.max deepest (depth_fuel n tag_content)
              else deepest)
           (finditer (tag_pattern true) content) 0)
  end.

Definition call_depth (content : str) : nat :=
  depth_fuel (S (length content)) content.

End Script.

(** [n] tag pairs one inside the other around the text [x], named [a],
    [aa], [aaa], ... from the inside out. *)
Fixpoint nested (n : nat) : str :=
  match n with
  | O => py "x"
  | S k => tag_text (repeat (ch "a") n) (nested k)
  end.

End Depth.

(** ** Sample inputs for the parser *)

Module ParserSamples.
Import Re.





End ParserSamples.

(** ** Text files as the interpreter writes them

    [write] above is a write that either is refused or stores the text.
    The runs below follow [open(path, 'w', encoding='utf-8')] and
    [f.write(text)] more closely, on a POSIX system: opening is refused
    for a file that cannot be written, and leaves it alone; opening
    truncates the file; [f.write] encodes the whole text before it stores
    a byte, so a text that cannot be encoded (it holds a surrogate) leaves
    the file empty and raises [UnicodeEncodeError]; and a later
    [open(path, 'r').read()] gives the text with its line ends translated
    (universal newlines). *)

Module TextFile.

(** What text mode makes of [\r\n] and [\r] when it reads. *)
Fixpoint newlines (l : str) : str :=
  match l with
  | [] => []
  | c :: t =>
      if N.eqb c 13
      then match t with
           | d :: t' => if N.eqb d 10 then NL :: newlines t' else NL :: newlines t
           | [] => [NL]
           end
      else c :: newlines t
  end.

(** [with open(path, 'w', encoding='utf-8') as f: f.write(text)]: the file
    afterwards and how the statement ends. *)
Definition write_text (f : file) (text : str) : file * outcome unit :=
  if negb (writable f)
  then (f, Raises (Exn OSError (py "Permission denied")))
  else match Codec.utf8_encode text with
       | Raises e =>
           ({| path := path f; read := Returns []; writable := true |},
            Raises e)
       | Returns _ =>
           ({| path := path f; read := Returns (newlines text);
               writable := true |},
            Returns tt)
       end.

End TextFile.

(** ** The remediator on such files *)

Module RemediateIO.
Import Re Remediate TextFile.

Section Script.
Context {U : Unicode}.

Definition write_file (text : str) : M unit :=
  fun w => let (f, r) := write_text (disk w) text in (World (st w) f, r).

Local Open Scope remediate_scope.

(** [fix_yaml_file] (lines 79-130); the log lines are not modelled. *)
Definition fix_yaml_file (filepath : str) : M bool :=
  try_finally
    (try_except
       (content <- read_file ;;
        let original_content := content in
        content <- (if Py.has_char NBSP content
                    then update bump_nbsp_removed ;;
                         ret (Py.replace_char NBSP (ch " ") content)
                    else ret content) ;;
        content <- (if negb (Py.startswith marker (Py.strip content))
                    then update bump_doc_markers_added ;;
                         ret (marker ++ [NL] ++ content)
                    else ret content) ;;
        content <- _fix_escaped_content content ;;
        if negb (str_eqb content original_content)
        then write_file content ;;
             update bump_files_fixed ;;
             ret true
        else ret false)
       (fun e =>
          let error_msg :=
            py "Error processing " ++ filepath ++ py ": " ++ message e in
          update (append_error error_msg) ;;
          ret false))
    bump_files_processed.

(** The loop of [process_directory] (lines 180-181) over
    [sorted(yaml_files)]: the statistics and the files afterwards, and how
    the loop ends; an exception that leaves [fix_yaml_file] leaves the
    loop, and the files behind are not visited.  [print_summary], called
    after the loop, is not part of it. *)
Fixpoint process_directory (s : stats) (yaml_files : list file)
  : stats * list file * outcome unit :=
  match yaml_files with
  | [] => (s, [], Returns tt)
  | yaml_file :: rest =>
      match fix_yaml_file (path yaml_file) (World s yaml_file) with
      | (w, Returns _) =>
          let '(s', rest', r) := process_directory (st w) rest in
          (s', disk w :: rest', r)
      | (w, Raises e) => (st w, disk w :: rest, Raises e)
      end
  end.

(** The exception the body of [fix_yaml_file] ends with on a file, if it
    does: what reading, a replacement, or writing raises. *)
Definition failure (yaml_file : file) : option exn :=
  match read yaml_file with
  | Raises e => Some e
  | Returns content =>
      match remediate content with
      | Raises e => Some e
      | Returns fixed =>
          if negb (str_eqb fixed content)
          then match snd (write_text yaml_file fixed) with
               | Raises e => Some e
               | Returns _ => None
               end
          else None
      end
  end.


End Script.
End RemediateIO.

(** ** Texts the remediator settles in one pass *)

Module Settled.
Import Re Remediate.

Section Script.
Context {U : Unicode}.

(** What the converter makes of one field holds no [c] and no
    non-breaking space. *)
Definition settles (c : char) (m : rmatch) : bool :=
  match replace_escapes m with
  | Returns t => negb (Py.has_char c t) && negb (Py.has_char NBSP t)
  | Raises _ => false
  end.

(** Once the first two fixers have run, every [c] of the text is part of
    a field the converter rewrites, and every such field settles. *)
Definition converts_every (c : char) (s : str) : bool :=
  forallb (fun x => match x with
                    | inl d => negb (N.eqb d c)
                    | inr m => settles c m
                    end)
          (scan escaped_pattern 0 true (fix_marker (fix_nbsp s))).

(** The pattern of the converter needs a double quote and a backslash. *)
Definition converts_every_quote (s : str) : bool :=
  converts_every 34%N s.


End Script.
End Settled.

(** ** Sample inputs for the remediator *)

Module RemediateSamples.
Import Samples.

(** A text with a non-breaking space and a field with an escaped
    newline. *)
Definition nbsp_and_field : str :=
  py "name:" ++ [NBSP] ++ py "x" ++ [NL]
  ++ py "  desc: " ++ [QUOTE] ++ py "a\nb" ++ [QUOTE] ++ [NL].

Definition nbsp_and_field_fixed : str :=
  py "---" ++ [NL] ++ py "name: x" ++ [NL]
  ++ py "  desc:  |" ++ [NL; NL] ++ py "    a" ++ [NL; NL] ++ py "    b"
  ++ [NL].



(** A field at the very start of the text, and what the remediator makes
    of it. *)
Definition field_at_start : str :=
  py "k: " ++ [QUOTE] ++ py "a\nb" ++ [QUOTE].

Definition field_at_start_fixed : str :=
  py "---" ++ [NL] ++ py "k:  |" ++ [NL; NL] ++ py "  a" ++ [NL; NL]
  ++ py "  b".

(** A field whose value decodes to a lone surrogate, and a file with it. *)
Definition surrogate_field : str :=
  py "---" ++ [NL] ++ py " k: " ++ [QUOTE] ++ py "x\ud800\n" ++ [QUOTE].

Definition surrogate_file : file :=
  {| path := py "frameworks/s.yml"; read := Returns surrogate_field;
     writable := true |}.

End RemediateSamples.

(** ** The converter on text files

    [convert_framework] above writes the document in one step that is
    refused or succeeds.  Lines 154-156 open the file, which truncates
    it, write the marker, and then call [yaml.dump] on the open file;
    [yaml.dump] writes as it goes and may raise, from the dumper (a
    document nested too deep for it) or from the file (a character that
    cannot be encoded).  The run below follows that, with the depth of
    recursion [parse_xml_to_yaml] is allowed. *)

Module ConvertIO.
Import Re Convert TextFile.

(** [yaml.dump(data, f, ...)] on an open text file: the text that has
    reached the file when the call ends, and the exception it ends with,
    if any. *)
Class Dumper := {
  dump_to : pyval -> str * option exn
}.

Section Script.
Context {U : Unicode} {Y : Yaml} {D : Dumper}.

(** The nested calls of [parse_xml_to_yaml] the interpreter allows. *)
Variable limit : nat.

(** Lines 133-152 on the loaded document, as [Convert.convert_data], the
    parse with its depth bounded. *)
Definition convert_data (data : pyval) : outcome (option pyval) :=
  match data with
  | VDict d =>
      match Dict.get (py "framework") d with
      | None => Returns None
      | Some framework =>
          obind (py_in (py "content") framework) (fun has_content =>
          if negb has_content then Returns None else
          obind (py_in (py "structure") framework) (fun has_structure =>
          if has_structure then Returns None else
          obind (py_getitem framework (py "content")) (fun content =>
          match content, framework with
          | VStr content, VDict fw =>
              let has_xml := has_nested content in
              let has_brackets :=
                Py.has_char (ch "[") content
                && Py.contains (py "]:") content in
              if negb (has_xml || has_brackets) then Returns None
              else
                match parse_fuel limit content with
                | None =>
                    Raises (Exn RecursionError
                                (py "maximum recursion depth exceeded"))
                | Some parsed_structure =>
                    let fw := Dict.set (py "structure") parsed_structure fw in
                    let fw := Dict.set (py "legacy_content") (VStr content) fw in
                    let fw := Dict.del (py "content") fw in
                    Returns (Some (VDict (Dict.set (py "framework") (VDict fw) d)))
                end
          | _, _ => type_error "expected string or bytes-like object"
          end)))
      end
  | _ => Returns None
  end.

(** [convert_framework]: the file afterwards and the result. *)
Definition convert_framework (yaml_file : file) : file * outcome bool :=
  match obind (read yaml_file) safe_load with
  | Raises e => (yaml_file, Raises e)
  | Returns data =>
      match convert_data data with
      | Raises e => (yaml_file, Raises e)
      | Returns None => (yaml_file, Returns false)
      | Returns (Some data') =>
          if negb (writable yaml_file)
          then (yaml_file, Raises (Exn OSError (py "Permission denied")))
          else
            let (text, ending) := dump_to data' in
            ({| path := path yaml_file;
                read := Returns (newlines (py "---" ++ [NL] ++ text));
                writable := true |},
             match ending with
             | Some e => Raises e
             | None => Returns true
             end)
      end
  end.

End Script.

(** A dumper that fails on every document before it writes. *)
Definition failing_dumper : Dumper :=
  {| dump_to := fun _ =>
       ([], Some (Exn RecursionError (py "maximum recursion depth exceeded"))) |}.

End ConvertIO.

(** * Properties *)

(** ** The matcher *)

Module ReFacts.
Import Re.

Section Facts.
Context {U : Unicode}.

(** A greedy repetition that succeeds has consumed a run of characters
    of the class, at least [min] of them, and the rest of the pattern
    matched what follows. *)
Lemma greedy_rep_sound (R : Type) p (k : bool -> str -> option R) l :
  forall min bos r,
    greedy_rep p k min bos l = Some r ->
    exists pre post,
      l = pre ++ post /\ forallb p pre = true /\ min <= length pre
      /\ k (bos && is_nil pre) post = Some r.
Proof.
  induction l as [|c t IH]; intros min bos r H; simpl in H.
  - destruct (Nat.eqb_spec min 0); [|discriminate].
    exists [], []. simpl. rewrite andb_true_r. repeat split; auto; lia.
  - destruct (p c) eqn:Hc.
    + destruct (greedy_rep p k (pred min) false t) eqn:Hrec.
      * inversion H; subst r0. apply IH in Hrec.
        destruct Hrec as (pre & post & -> & Hp & Hm & Hk).
        exists (c :: pre), post. simpl. rewrite Hc, Hp, andb_false_r.
        simpl in Hk. repeat split; auto; lia.
      * destruct (Nat.eqb_spec min 0); [|discriminate].
        exists [], (c :: t). simpl. rewrite andb_true_r.
        repeat split; auto; lia.
    + destruct (Nat.eqb_spec min 0); [|discriminate].
      exists [], (c :: t). simpl. rewrite andb_true_r.
      repeat split; auto; lia.
Qed.

Lemma lazy_rep_sound (R : Type) p (k : bool -> str -> option R) l :
  forall min bos r,
    lazy_rep p k min bos l = Some r ->
    exists pre post,
      l = pre ++ post /\ forallb p pre = true /\ min <= length pre
      /\ k (bos && is_nil pre) post = Some r.
Proof.
  induction l as [|c t IH]; intros min bos r H.
  - destruct min; simpl in H.
    + destruct (k bos []) eqn:Hk; [|discriminate].
      exists [], []. simpl. rewrite andb_true_r. inversion H; subst.
      repeat split; auto.
    + discriminate.
  - destruct min; simpl in H.
    + destruct (k bos (c :: t)) eqn:Hk.
      * exists [], (c :: t). simpl. rewrite andb_true_r.
        inversion H; subst. repeat split; auto.
      * destruct (p c) eqn:Hc; [|discriminate].
        apply IH in H. destruct H as (pre & post & -> & Hp & Hm & Hk').
        exists (c :: pre), post. simpl. rewrite Hc, Hp, andb_false_r.
        simpl in Hk'. repeat split; auto; lia.
    + destruct (p c) eqn:Hc; [|discriminate].
      apply IH in H. destruct H as (pre & post & -> & Hp & Hm & Hk').
      exists (c :: pre), post. simpl. rewrite Hc, Hp, andb_false_r.
      simpl in Hk'. repeat split; auto; lia.
Qed.

Lemma after_prefix_suffix ic g :
  forall l t, after_prefix ic g l = Some t ->
              exists w, l = w ++ t /\ length w = length g.
Proof.
  induction g as [|a g IH]; intros l t H; simpl in H.
  - destruct l; inversion H; subst; exists []; auto.
  - destruct l as [|b l]; [discriminate|].
    destruct (if ic then N.eqb (chr_lower a) (chr_lower b) else N.eqb a b);
      [|discriminate].
    apply IH in H. destruct H as (w & -> & Hl).
    exists (b :: w). simpl. auto.
Qed.

(** What is left after a match is a suffix of the text. *)
Lemma mrun_suffix its :
  forall st bos l rest st',
    mrun its st bos l = Some (rest, st') -> exists w, l = w ++ rest.
Proof.
  induction its as [|it its IH]; intros st bos l rest st' H; simpl in H.
  - inversion H; subst. exists []. reflexivity.
  - destruct it as [p q|i|i|ic i|].
    + destruct q as [|n|n].
      * destruct l as [|c t]; [discriminate|].
        destruct (p c); [|discriminate].
        apply IH in H. destruct H as (w & ->). exists (c :: w). reflexivity.
      * apply greedy_rep_sound in H.
        destruct H as (pre & post & -> & _ & _ & H).
        apply IH in H. destruct H as (w & ->).
        exists (pre ++ w). now rewrite app_assoc.
      * apply lazy_rep_sound in H.
        destruct H as (pre & post & -> & _ & _ & H).
        apply IH in H. destruct H as (w & ->).
        exists (pre ++ w). now rewrite app_assoc.
    + eapply IH; eauto.
    + eapply IH; eauto.
    + destruct (lookup i (closed st)) as [g|]; [|discriminate].
      destruct (after_prefix ic g l) as [t|] eqn:Ht; [|discriminate].
      apply after_prefix_suffix in Ht. destruct Ht as (w & -> & _).
      apply IH in H. destruct H as (w' & ->).
      exists (w ++ w'). now rewrite app_assoc.
    + destruct bos; [|discriminate]. eapply IH; eauto.
Qed.

Lemma firstn_app_exact (w rest : str) :
  firstn (length (w ++ rest) - length rest) (w ++ rest) = w.
Proof.
  rewrite length_app.
  replace (length w + length rest - length rest) with (length w + 0) by lia.
  rewrite firstn_app_2. simpl. apply app_nil_r.
Qed.

(** A match object splits the text into [m.group(0)] and the rest. *)
Lemma match_at_inv its bos l m :
  match_at its bos l = Some m ->
  exists rest st,
    mrun its empty bos l = Some (rest, st)
    /\ l = whole m ++ rest /\ groups m = closed st.
Proof.
  unfold match_at. intros H.
  destruct (mrun its empty bos l) as [[rest st]|] eqn:Hr; [|discriminate].
  inversion H; subst; clear H. simpl.
  exists rest, st. destruct (mrun_suffix _ _ _ _ Hr) as (w & ->).
  rewrite firstn_app_exact. auto.
Qed.

(** After a match of [S k] characters the scan goes on behind it. *)
Lemma scan_skip its :
  forall k t, k <= length t ->
              scan its k false t = scan its 0 false (skipn k t).
Proof.
  induction k as [|k IH]; intros t Hk.
  - reflexivity.
  - destruct t as [|c t]; simpl in Hk; [lia|].
    simpl. apply IH. lia.
Qed.

(** Every match the scan reports is a match at some position. *)
Lemma scan_in its m :
  forall l skip bos,
    In (inr m) (scan its skip bos l) ->
    exists bos' pre suf, l = pre ++ suf /\ match_at its bos' suf = Some m.
Proof.
  induction l as [|c t IH]; intros skip bos H.
  - destruct skip; simpl in H; [|contradiction].
    destruct (match_at its bos []) eqn:Hm; simpl in H; [|contradiction].
    destruct H as [H|[]]. inversion H; subst.
    exists bos, [], []. auto.
  - destruct skip; simpl in H.
    + destruct (match_at its bos (c :: t)) as [m'|] eqn:Hm.
      * assert (Hcase : inr m' = inr (A:=char) m \/
                        exists s b, In (inr m) (scan its s b t)).
        { destruct (length (whole m')); simpl in H.
          - destruct H as [H|[H|H]]; auto; [discriminate|eauto].
          - destruct H as [H|H]; eauto. }
        destruct Hcase as [Heq|(s & b & Hin)].
        -- inversion Heq; subst. exists bos, [], (c :: t). auto.
        -- apply IH in Hin. destruct Hin as (b' & pre & suf & -> & Hs).
           exists b', (c :: pre), suf. auto.
      * simpl in H. destruct H as [H|H]; [discriminate|].
        apply IH in H. destruct H as (b' & pre & suf & -> & Hs).
        exists b', (c :: pre), suf. auto.
    + apply IH in H. destruct H as (b' & pre & suf & -> & Hs).
      exists b', (c :: pre), suf. auto.
Qed.

Lemma finditer_in its m l :
  In m (finditer its l) ->
  exists bos pre suf, l = pre ++ suf /\ match_at its bos suf = Some m.
Proof.
  unfold finditer. intros H. apply in_flat_map in H.
  destruct H as ([c|m'] & Hin & Hm); simpl in Hm; [contradiction|].
  destruct Hm as [->|[]]. eapply scan_in; eauto.
Qed.

End Facts.
End ReFacts.

Unset Implicit Arguments.

(** ** Text methods *)

Module PyFacts.
Import Py.

Lemma lstrip_length l : length (lstrip l) <= length l.
Proof.
  induction l as [|c t IH]; simpl; [lia|].
  destruct (isspace c); simpl; lia.
Qed.

Lemma rstrip_length l : length (rstrip l) <= length l.
Proof.
  unfold rstrip. rewrite length_rev.
  etransitivity; [apply lstrip_length|]. now rewrite length_rev.
Qed.

Lemma strip_length l : length (strip l) <= length l.
Proof.
  unfold strip. etransitivity; [apply rstrip_length|apply lstrip_length].
Qed.

(** [lstrip] drops a prefix of whitespace. *)
Lemma lstrip_split l : exists w, l = w ++ lstrip l /\ allws w = true.
Proof.
  induction l as [|c t (w & Hw & Ha)]; simpl.
  - exists []. auto.
  - destruct (isspace c) eqn:Hc.
    + exists (c :: w). simpl. rewrite Hc, Ha. split; [congruence|auto].
    + exists []. auto.
Qed.

Lemma lstrip_app a b :
  lstrip (a ++ b) = if allws a then lstrip b else lstrip a ++ b.
Proof.
  induction a as [|c a IH]; simpl; [reflexivity|].
  destruct (isspace c); simpl; auto.
Qed.

Lemma allws_rev l : allws (rev l) = allws l.
Proof.
  unfold allws. induction l as [|c t IH]; simpl; [reflexivity|].
  rewrite forallb_app, IH. simpl. rewrite andb_true_r. apply andb_comm.
Qed.

Lemma lstrip_allws l : allws l = true -> lstrip l = [].
Proof.
  induction l as [|c t IH]; simpl; [reflexivity|].
  destruct (isspace c); simpl; [auto|discriminate].
Qed.

(** [rstrip] read from the left. *)
Lemma rstrip_nil : rstrip [] = [].
Proof. reflexivity. Qed.

Lemma rstrip_cons c t :
  rstrip (c :: t) = if allws (c :: t) then [] else c :: rstrip t.
Proof.
  unfold rstrip. simpl rev. rewrite lstrip_app, allws_rev.
  simpl allws. destruct (allws t) eqn:Ht.
  - rewrite andb_true_r. rewrite (lstrip_allws (rev t)) by (now rewrite allws_rev).
    simpl. destruct (isspace c); reflexivity.
  - rewrite andb_false_r. rewrite rev_app_distr. reflexivity.
Qed.

Lemma rstrip_allws l : allws l = true -> rstrip l = [].
Proof.
  destruct l as [|c t]; [reflexivity|]. intros H. now rewrite rstrip_cons, H.
Qed.

(** [rstrip] drops a suffix of whitespace. *)
Lemma rstrip_split l : exists w, l = rstrip l ++ w /\ allws w = true.
Proof.
  induction l as [|c t (w & Hw & Ha)].
  - exists []. auto.
  - rewrite rstrip_cons. destruct (allws (c :: t)) eqn:Hc.
    + exists (c :: t). auto.
    + exists w. simpl. split; [congruence|auto].
Qed.

End PyFacts.

(** ** Dictionaries *)

Module DictFacts.
Import Dict.

Lemma str_eqb_refl k : str_eqb k k = true.
Proof. unfold str_eqb. destruct (str_eq_dec k k); congruence. Qed.

Lemma str_eqb_eq a b : str_eqb a b = true <-> a = b.
Proof. unfold str_eqb. destruct (str_eq_dec a b); split; congruence. Qed.

Lemma str_eqb_neq a b : a <> b -> str_eqb a b = false.
Proof. unfold str_eqb. destruct (str_eq_dec a b); congruence. Qed.

Section Facts.
Variable V : Type.
Implicit Types (d : list (str * V)) (k : str) (v : V).

Lemma get_set_same k v d : get k (set k v d) = Some v.
Proof.
  induction d as [|[k' v'] r IH]; simpl.
  - now rewrite str_eqb_refl.
  - destruct (str_eqb k k') eqn:E; simpl.
    + now rewrite str_eqb_refl.
    + now rewrite E.
Qed.

Lemma get_set_other k k' v d :
  k <> k' -> get k (set k' v d) = get k d.
Proof.
  intros Hne. induction d as [|[k2 v2] r IH]; simpl.
  - now rewrite (str_eqb_neq _ _ Hne).
  - destruct (str_eqb k' k2) eqn:E; simpl.
    + apply str_eqb_eq in E. subst k2.
      now rewrite (str_eqb_neq _ _ Hne).
    + destruct (str_eqb k k2); auto.
Qed.

Lemma get_del_same k d : get k (del k d) = None.
Proof.
  induction d as [|[k' v'] r IH]; simpl; [reflexivity|].
  destruct (str_eqb k k') eqn:E; simpl; [auto|]. now rewrite E.
Qed.

Lemma get_del_other k k' d : k <> k' -> get k (del k' d) = get k d.
Proof.
  intros Hne. induction d as [|[k2 v2] r IH]; simpl; [reflexivity|].
  destruct (str_eqb k' k2) eqn:E; simpl.
  - apply str_eqb_eq in E. subst k2. now rewrite (str_eqb_neq _ _ Hne).
  - destruct (str_eqb k k2); auto.
Qed.

Lemma keys_set k v d :
  forall k', In k' (map fst (set k v d)) <-> k' = k \/ In k' (map fst d).
Proof.
  induction d as [|[k2 v2] r IH]; intros k'; simpl.
  - intuition congruence.
  - destruct (str_eqb k k2) eqn:E; simpl.
    + apply str_eqb_eq in E. subst k2. intuition congruence.
    + rewrite IH. intuition congruence.
Qed.

(** A key is stored once. *)
Lemma set_NoDup k v d : NoDup (map fst d) -> NoDup (map fst (set k v d)).
Proof.
  induction d as [|[k2 v2] r IH]; intros Hnd; simpl.
  - constructor; [intros []|constructor].
  - inversion Hnd as [|? ? Hnotin Hnd']; subst.
    destruct (str_eqb k k2) eqn:E; simpl.
    + apply str_eqb_eq in E. subst k2. now constructor.
    + constructor; [|auto]. rewrite keys_set. intros [->|Hin]; [|auto].
      rewrite str_eqb_refl in E. discriminate.
Qed.
End Facts.
End DictFacts.

(** ** The text cleaner *)

Module BlankLineFacts.
Import Re ReFacts Convert PyFacts.

Section Facts.
Context {U : Unicode}.

Local Abbreviation tail3 := [Chr (N.eqb NL) (Greedy 1)].
Local Abbreviation tail2 := (Chr Py.isspace (Greedy 0) :: tail3).
Local Abbreviation tail1 := (Chr (N.eqb NL) Once :: tail2).
Local Abbreviation tail0 := (Chr Py.isspace (Greedy 0) :: tail1).

Lemma newline_is_space (c : char) : N.eqb NL c = true -> Py.isspace c = true.
Proof. intros H. apply N.eqb_eq in H. now subst c. Qed.

Lemma leading_newlines_cons_nl (c : char) (t : str) :
  N.eqb NL c = true -> leading_newlines (c :: t) = S (leading_newlines t).
Proof.
  intros H. cbn [leading_newlines]. now rewrite (newline_is_space c H), H.
Qed.

Lemma leading_newlines_cons_other (c : char) (t : str) :
  N.eqb NL c = false ->
  leading_newlines (c :: t) = if Py.isspace c then leading_newlines t else 0.
Proof. intros H. cbn [leading_newlines]. now rewrite H. Qed.

(** [\n*] at the end of the pattern: it takes every newline there is. *)
Lemma newlines_greedy st :
  forall t bos,
  exists z,
    greedy_rep (N.eqb NL) (mrun [] st) 0 bos t = Some (z, st)
    /\ (leading_newlines t = 0 -> z = t)
    /\ exists w, t = w ++ z.
Proof.
  induction t as [|c t IH]; intros bos; cbn [greedy_rep Nat.eqb].
  - exists []. cbn [mrun]. repeat split; auto. now exists [].
  - destruct (N.eqb NL c) eqn:Hc.
    + cbn [pred]. destruct (IH false) as (z & -> & _ & w & Hw).
      exists z. split; [reflexivity|]. split.
      * rewrite (leading_newlines_cons_nl c t Hc). discriminate.
      * exists (c :: w). now rewrite Hw at 1.
    + exists (c :: t). cbn [mrun]. repeat split; auto. now exists [].
Qed.

(** [\n+]. *)
Lemma tail3_spec st bos (l : str) :
  match mrun tail3 st bos l with
  | Some (z, st') =>
      st' = st
      /\ exists c t, l = c :: t /\ N.eqb NL c = true
                     /\ (leading_newlines t = 0 -> z = t)
                     /\ exists w, t = w ++ z
  | None => match l with c :: _ => N.eqb NL c = false | [] => True end
  end.
Proof.
  change (mrun tail3 st bos l)
    with (greedy_rep (N.eqb NL) (mrun [] st) 1 bos l).
  destruct l as [|c t]; cbn [greedy_rep Nat.eqb pred]; [exact I|].
  destruct (N.eqb NL c) eqn:Hc; [|reflexivity].
  destruct (newlines_greedy st t false) as (z & Hz & H0 & Hw).
  rewrite Hz. split; [reflexivity|]. exists c, t. auto.
Qed.

Lemma leading_newlines_cons_ws (c : char) (t : str) :
  Py.isspace c = true -> leading_newlines t <= leading_newlines (c :: t).
Proof. intros H. cbn [leading_newlines]. rewrite H. lia. Qed.

(** [\s*\n+]: it ends behind the last newline of the whitespace the text
    starts with. *)
Lemma tail2_spec st :
  forall (l : str) bos,
    match mrun tail2 st bos l with
    | Some (z, st') =>
        st' = st /\ leading_newlines z = 0 /\ 1 <= leading_newlines l
        /\ exists w, l = w ++ z /\ w <> []
    | None => leading_newlines l = 0
    end.
Proof.
  intros l bos.
  change (mrun tail2 st bos l)
    with (greedy_rep Py.isspace (mrun tail3 st) 0 bos l).
  revert bos. induction l as [|c t IH]; intros bos; cbn [greedy_rep Nat.eqb].
  - pose proof (tail3_spec st bos []) as H3.
    destruct (mrun tail3 st bos []) as [[z st']|]; [|reflexivity].
    destruct H3 as (_ & c & t & Hl & _). discriminate.
  - destruct (Py.isspace c) eqn:Hs.
    + cbn [pred]. specialize (IH false).
      destruct (greedy_rep Py.isspace (mrun tail3 st) 0 false t)
        as [[z st']|] eqn:Hrec.
      * destruct IH as (-> & Hz & Hn & w & Hw & _).
        pose proof (leading_newlines_cons_ws c t Hs).
        repeat split; auto; [lia|].
        exists (c :: w). split; [now rewrite Hw at 1|discriminate].
      * pose proof (tail3_spec st bos (c :: t)) as H3.
        destruct (mrun tail3 st bos (c :: t)) as [[z st']|].
        -- destruct H3 as (-> & c' & t' & Hl & Hc & H0 & _).
           inversion Hl; subst c' t'. rewrite (H0 IH).
           rewrite (leading_newlines_cons_nl c t Hc).
           repeat split; auto; [lia|].
           exists [c]. split; [reflexivity|discriminate].
        -- rewrite (leading_newlines_cons_other c t H3), Hs. exact IH.
    + pose proof (tail3_spec st bos (c :: t)) as H3.
      destruct (mrun tail3 st bos (c :: t)) as [[z st']|].
      * destruct H3 as (_ & c' & t' & Hl & Hc & _).
        inversion Hl; subst c' t'.
        rewrite (newline_is_space c Hc) in Hs. discriminate.
      * cbn [leading_newlines]. now rewrite Hs.
Qed.

(** [\n\s*\n+]. *)
Lemma tail1_spec st (l : str) bos :
  match mrun tail1 st bos l with
  | Some (z, st') =>
      st' = st /\ leading_newlines z = 0 /\ 2 <= leading_newlines l
      /\ exists w, l = w ++ z /\ w <> []
  | None =>
      match l with
      | c :: t => N.eqb NL c = true -> leading_newlines t = 0
      | [] => True
      end
  end.
Proof.
  change (mrun tail1 st bos l)
    with (match l with
          | c :: t => if N.eqb NL c then mrun tail2 st false t else None
          | [] => None
          end).
  destruct l as [|c t]; [exact I|].
  destruct (N.eqb NL c) eqn:Hc; [|discriminate].
  pose proof (tail2_spec st t false) as H2.
  destruct (mrun tail2 st false t) as [[z st']|].
  - destruct H2 as (-> & Hz & Hn & w & Hw & _).
    rewrite (leading_newlines_cons_nl c t Hc).
    repeat split; auto; [lia|].
    exists (c :: w). split; [now rewrite Hw at 1|discriminate].
  - intros _. exact H2.
Qed.

(** [\s*\n\s*\n+]. *)
Lemma tail0_spec st :
  forall (l : str) bos,
    match mrun tail0 st bos l with
    | Some (z, st') =>
        st' = st /\ leading_newlines z = 0 /\ 2 <= leading_newlines l
        /\ exists w, l = w ++ z
    | None => leading_newlines l <= 1
    end.
Proof.
  intros l bos.
  change (mrun tail0 st bos l)
    with (greedy_rep Py.isspace (mrun tail1 st) 0 bos l).
  revert bos. induction l as [|c t IH]; intros bos; cbn [greedy_rep Nat.eqb].
  - pose proof (tail1_spec st [] bos) as H1.
    destruct (mrun tail1 st bos []) as [[z st']|]; [|cbn; lia].
    destruct H1 as (_ & _ & Hn & _). cbn in Hn. lia.
  - destruct (Py.isspace c) eqn:Hs.
    + cbn [pred]. specialize (IH false).
      destruct (greedy_rep Py.isspace (mrun tail1 st) 0 false t)
        as [[z st']|] eqn:Hrec.
      * destruct IH as (-> & Hz & Hn & w & Hw).
        pose proof (leading_newlines_cons_ws c t Hs).
        repeat split; auto; [lia|].
        exists (c :: w). now rewrite Hw at 1.
      * pose proof (tail1_spec st (c :: t) bos) as H1.
        destruct (mrun tail1 st bos (c :: t)) as [[z st']|].
        -- destruct H1 as (-> & Hz & Hn & w & Hw & _).
           repeat split; auto. now exists w.
        -- destruct (N.eqb NL c) eqn:Hc.
           ++ rewrite (leading_newlines_cons_nl c t Hc), (H1 eq_refl). lia.
           ++ rewrite (leading_newlines_cons_other c t Hc), Hs. exact IH.
    + pose proof (tail1_spec st (c :: t) bos) as H1.
      destruct (mrun tail1 st bos (c :: t)) as [[z st']|].
      * destruct H1 as (_ & _ & Hn & _).
        cbn [leading_newlines] in Hn. rewrite Hs in Hn. lia.
      * cbn [leading_newlines]. rewrite Hs. lia.
Qed.

(** The whole pattern: it matches exactly at a newline followed by
    whitespace with two more newlines, and the match ends behind the last
    newline of that whitespace. *)
Lemma blank_lines_spec (l : str) bos :
  match match_at blank_lines bos l with
  | Some m =>
      blank_run l = true
      /\ exists z, l = whole m ++ z /\ whole m <> []
                   /\ leading_newlines z = 0
  | None => blank_run l = false
  end.
Proof.
  destruct (match_at blank_lines bos l) as [m|] eqn:Hm.
  - apply match_at_inv in Hm. destruct Hm as (rest & st & Hr & Hl & _).
    change (mrun blank_lines empty bos l)
      with (match l with
            | c :: t => if N.eqb NL c then mrun tail0 empty false t else None
            | [] => None
            end) in Hr.
    destruct l as [|c t]; [discriminate|].
    destruct (N.eqb NL c) eqn:Hc; [|discriminate].
    pose proof (tail0_spec empty t false) as H0. rewrite Hr in H0.
    destruct H0 as (_ & Hz & Hn & _).
    cbn [blank_run]. rewrite Hc. split.
    + apply Nat.leb_le in Hn. now rewrite Hn.
    + exists rest. repeat split; auto.
      intros Hw. rewrite Hw in Hl. cbn [app] in Hl. subst rest.
      apply mrun_suffix in Hr. destruct Hr as (w & Hw').
      apply (f_equal (@length char)) in Hw'.
      rewrite length_app in Hw'. cbn [length] in Hw'. lia.
  - unfold match_at in Hm.
    change (mrun blank_lines empty bos l)
      with (match l with
            | c :: t => if N.eqb NL c then mrun tail0 empty false t else None
            | [] => None
            end) in Hm.
    destruct l as [|c t]; [reflexivity|].
    cbn [blank_run]. destruct (N.eqb NL c) eqn:Hc; [|reflexivity].
    pose proof (tail0_spec empty t false) as H0.
    destruct (mrun tail0 empty false t) as [[z st']|]; [discriminate|].
    cbn [andb]. apply Nat.leb_gt. lia.
Qed.

End Facts.
End BlankLineFacts.

Module SqueezeFacts.
Import Re ReFacts Convert PyFacts BlankLineFacts.

Section Facts.
Context {U : Unicode}.

Lemma sub_blank_lines (l : str) : sub blank_lines [NL; NL] l = squeeze true l.
Proof. reflexivity. Qed.

Lemma squeeze_nil bos : squeeze bos [] = [].
Proof.
  unfold squeeze. cbn [scan].
  pose proof (blank_lines_spec [] bos) as H.
  destruct (match_at blank_lines bos []); [|reflexivity].
  destruct H as (H & _). discriminate.
Qed.

(** Where the pattern does not match, the character is copied. *)
Lemma squeeze_copy bos (c : char) (t : str) :
  blank_run (c :: t) = false -> squeeze bos (c :: t) = c :: squeeze false t.
Proof.
  intros Hb. unfold squeeze. cbn [scan].
  pose proof (blank_lines_spec (c :: t) bos) as H.
  destruct (match_at blank_lines bos (c :: t)); [|reflexivity].
  destruct H as (H & _). congruence.
Qed.

(** Where it matches, two newlines stand for the match, and what follows
    starts with no newline, also behind whitespace. *)
Lemma squeeze_match bos (l : str) :
  blank_run l = true ->
  exists w z,
    l = w ++ z /\ w <> [] /\ leading_newlines z = 0
    /\ squeeze bos l = NL :: NL :: squeeze false z.
Proof.
  intros Hb. destruct l as [|c t]; [discriminate|].
  unfold squeeze. cbn [scan].
  pose proof (blank_lines_spec (c :: t) bos) as H.
  destruct (match_at blank_lines bos (c :: t)) as [m|]; [|congruence].
  destruct H as (_ & z & Hl & Hw & Hz).
  exists (whole m), z. repeat split; auto.
  destruct (whole m) as [|c' w'] eqn:Hm; [congruence|].
  cbn [length flat_map app]. cbn [app] in Hl. inversion Hl; subst c' t.
  rewrite scan_skip by (rewrite length_app; lia).
  rewrite skipn_app, skipn_all, Nat.sub_diag. reflexivity.
Qed.

Lemma calm_cons (c : char) (t : str) :
  calm (c :: t) = negb (blank_run (c :: t)) && calm t.
Proof. reflexivity. Qed.

(** The first step leaves no place for the pattern to match, and puts no
    newlines into the whitespace a text starts with. *)
Lemma squeeze_calm :
  forall n (l : str) bos,
    length l <= n ->
    calm (squeeze bos l) = true
    /\ leading_newlines (squeeze bos l) <= leading_newlines l.
Proof.
  induction n as [|n IH]; intros l bos Hn.
  - destruct l; [|simpl in Hn; lia]. rewrite squeeze_nil. split; auto.
  - destruct (blank_run l) eqn:Hb.
    + destruct (squeeze_match bos l Hb) as (w & z & Hl & Hw & Hz & ->).
      destruct (IH z false) as (Hc & Hle).
      { subst l. rewrite length_app in Hn.
        destruct w; [congruence|]. simpl in Hn. lia. }
      rewrite Hz in Hle.
      assert (H0 : leading_newlines (squeeze false z) = 0) by lia.
      split.
      * rewrite !calm_cons, Hc. cbn [blank_run].
        rewrite (leading_newlines_cons_nl NL _ eq_refl), H0. reflexivity.
      * rewrite !(leading_newlines_cons_nl NL _ eq_refl), H0.
        destruct l as [|c t]; [discriminate|]. cbn [blank_run] in Hb.
        apply andb_prop in Hb. destruct Hb as [Hc' Ht].
        apply Nat.leb_le in Ht.
        rewrite (leading_newlines_cons_nl c t Hc'). lia.
    + destruct l as [|c t]; [rewrite squeeze_nil; split; auto|].
      rewrite (squeeze_copy bos c t Hb).
      destruct (IH t false) as (Hc & Hle); [simpl in Hn; lia|].
      split.
      * rewrite calm_cons, Hc, andb_true_r. cbn [blank_run] in *.
        destruct (N.eqb NL c); [|reflexivity]. cbn [andb] in *.
        apply Nat.leb_gt in Hb. apply negb_true_iff, Nat.leb_gt. lia.
      * cbn [leading_newlines]. destruct (Py.isspace c); lia.
Qed.

(** On a text without such a place the first step changes nothing. *)
Lemma calm_squeeze :
  forall (l : str) bos, calm l = true -> squeeze bos l = l.
Proof.
  induction l as [|c t IH]; intros bos Hc.
  - apply squeeze_nil.
  - rewrite calm_cons in Hc. apply andb_prop in Hc. destruct Hc as [Hb Hc].
    apply negb_true_iff in Hb. rewrite (squeeze_copy bos c t Hb).
    now rewrite IH.
Qed.

End Facts.
End SqueezeFacts.

Module LineFacts.
Import Re ReFacts Convert PyFacts BlankLineFacts.

Lemma split_nonempty (l : str) : exists h r, Py.split NL l = h :: r.
Proof.
  induction l as [|c t (h & r & IH)]; cbn [Py.split]; [eauto|].
  destruct (N.eqb c NL); [eauto|]. rewrite IH. eauto.
Qed.

Lemma join_cons_cons (sep : str) (c : char) (x : str) (r : list str) :
  Py.join sep ((c :: x) :: r) = c :: Py.join sep (x :: r).
Proof. destruct r; reflexivity. Qed.

Lemma allws_line_is_blank (t : str) :
  Py.allws t = true -> line_is_blank t = true.
Proof.
  induction t as [|c t IH]; cbn [Py.allws forallb line_is_blank]; [auto|].
  intros H. apply andb_prop in H. destruct H as [Hc Ht].
  destruct (N.eqb NL c); [reflexivity|]. rewrite Hc. now apply IH.
Qed.

Lemma line_is_blank_split (t h : str) (r : list str) :
  Py.split NL t = h :: r -> line_is_blank t = Py.allws h.
Proof.
  revert h r. induction t as [|c t IH]; intros h r H; cbn [Py.split] in H.
  - inversion H. reflexivity.
  - cbn [line_is_blank]. rewrite N.eqb_sym.
    destruct (N.eqb c NL); [inversion H; reflexivity|].
    destruct (split_nonempty t) as (h' & r' & Ht). rewrite Ht in H.
    inversion H; subst. cbn [Py.allws forallb]. f_equal. eapply IH; eauto.
Qed.

Lemma rstrip_lines_nil : rstrip_lines [] = [].
Proof. reflexivity. Qed.

(** [rstrip_lines] read from the left: a newline stays; whitespace with
    only whitespace up to the end of the line goes; anything else stays. *)
Lemma rstrip_lines_cons (c : char) (t : str) :
  rstrip_lines (c :: t) =
  if N.eqb NL c then c :: rstrip_lines t
  else if Py.isspace c && line_is_blank t then rstrip_lines t
       else c :: rstrip_lines t.
Proof.
  unfold rstrip_lines. cbn [Py.split]. rewrite (N.eqb_sym c NL).
  destruct (split_nonempty t) as (h & r & Ht). rewrite Ht.
  destruct (N.eqb_spec NL c) as [<-|Hc].
  - reflexivity.
  - cbn [map]. rewrite rstrip_cons. rewrite (line_is_blank_split t h r Ht).
    unfold Py.allws. cbn [forallb].
    destruct (Py.isspace c && forallb Py.isspace h) eqn:Hb.
    + apply andb_prop in Hb. destruct Hb as [_ Hh].
      now rewrite (rstrip_allws h Hh).
    + apply join_cons_cons.
Qed.

Lemma rstrip_lines_length (l : str) : length (rstrip_lines l) <= length l.
Proof.
  induction l as [|c t IH]; [reflexivity|]. rewrite rstrip_lines_cons.
  destruct (N.eqb NL c); [simpl; lia|].
  destruct (Py.isspace c && line_is_blank t); simpl; lia.
Qed.

Lemma leading_newlines_rstrip_lines (l : str) :
  leading_newlines (rstrip_lines l) = leading_newlines l.
Proof.
  induction l as [|c t IH]; [reflexivity|]. rewrite rstrip_lines_cons.
  destruct (N.eqb NL c) eqn:Hc.
  - now rewrite !(leading_newlines_cons_nl c _ Hc), IH.
  - rewrite (leading_newlines_cons_other c t Hc).
    destruct (Py.isspace c) eqn:Hs; cbn [andb].
    + destruct (line_is_blank t); [exact IH|].
      now rewrite (leading_newlines_cons_other c _ Hc), Hs.
    + now rewrite (leading_newlines_cons_other c _ Hc), Hs.
Qed.

Lemma calm_rstrip_lines (l : str) :
  calm l = true -> calm (rstrip_lines l) = true.
Proof.
  induction l as [|c t IH]; [auto|]. intros H.
  cbn [calm] in H. apply andb_prop in H. destruct H as [Hb Ht].
  rewrite rstrip_lines_cons.
  assert (Hkeep : calm (c :: rstrip_lines t) = true).
  { cbn [calm]. now rewrite leading_newlines_rstrip_lines, Hb, IH. }
  destruct (N.eqb NL c); [exact Hkeep|].
  destruct (Py.isspace c && line_is_blank t); auto.
Qed.

Lemma line_is_blank_rstrip_lines (l : str) :
  line_is_blank (rstrip_lines l) = line_is_blank l.
Proof.
  induction l as [|c t IH]; [reflexivity|]. rewrite rstrip_lines_cons.
  cbn [line_is_blank]. destruct (N.eqb NL c) eqn:Hc.
  - cbn [line_is_blank]. now rewrite Hc.
  - destruct (Py.isspace c) eqn:Hs; cbn [andb].
    + destruct (line_is_blank t) eqn:Hl; [exact IH|].
      cbn [line_is_blank]. now rewrite Hc, Hs, IH.
    + cbn [line_is_blank]. now rewrite Hc, Hs.
Qed.

Lemma rstrip_lines_idem (l : str) :
  rstrip_lines (rstrip_lines l) = rstrip_lines l.
Proof.
  induction l as [|c t IH]; [reflexivity|]. rewrite rstrip_lines_cons.
  destruct (N.eqb NL c) eqn:Hc.
  - now rewrite rstrip_lines_cons, Hc, IH.
  - destruct (Py.isspace c && line_is_blank t) eqn:Hb; [exact IH|].
    now rewrite rstrip_lines_cons, Hc, line_is_blank_rstrip_lines, Hb, IH.
Qed.

(** A text whose lines have no trailing whitespace. *)
Lemma tidy_tail (c : char) (t : str) :
  rstrip_lines (c :: t) = c :: t ->
  rstrip_lines t = t
  /\ (N.eqb NL c = true \/ Py.isspace c && line_is_blank t = false).
Proof.
  rewrite rstrip_lines_cons. destruct (N.eqb NL c).
  - intros H. inversion H. rewrite H1. auto.
  - destruct (Py.isspace c && line_is_blank t).
    + intros H. pose proof (rstrip_lines_length t) as Hl.
      rewrite H in Hl. simpl in Hl. lia.
    + intros H. inversion H. rewrite H1. auto.
Qed.

Lemma tidy_lstrip (l : str) :
  rstrip_lines l = l -> rstrip_lines (Py.lstrip l) = Py.lstrip l.
Proof.
  induction l as [|c t IH]; [auto|]. intros H. cbn [Py.lstrip].
  destruct (Py.isspace c); [|exact H].
  apply tidy_tail in H. apply IH, H.
Qed.

Lemma line_is_blank_rstrip (t : str) :
  line_is_blank t = false -> line_is_blank (Py.rstrip t) = false.
Proof.
  induction t as [|c t IH]; [discriminate|]. intros H.
  rewrite rstrip_cons. destruct (Py.allws (c :: t)) eqn:Ha.
  - now rewrite (allws_line_is_blank _ Ha) in H.
  - cbn [line_is_blank] in *. destruct (N.eqb NL c); [discriminate|].
    destruct (Py.isspace c); [|reflexivity]. cbn [andb] in *. auto.
Qed.

Lemma tidy_rstrip (l : str) :
  rstrip_lines l = l -> rstrip_lines (Py.rstrip l) = Py.rstrip l.
Proof.
  induction l as [|c t IH]; [auto|]. intros H.
  apply tidy_tail in H. destruct H as (Ht & Hk).
  rewrite rstrip_cons. destruct (Py.allws (c :: t)); [reflexivity|].
  rewrite rstrip_lines_cons, (IH Ht).
  destruct (N.eqb NL c); [reflexivity|].
  destruct Hk as [Hk|Hk]; [discriminate|].
  destruct (Py.isspace c); [|reflexivity]. cbn [andb] in *.
  now rewrite (line_is_blank_rstrip t Hk).
Qed.

Lemma calm_lstrip (l : str) : calm l = true -> calm (Py.lstrip l) = true.
Proof.
  induction l as [|c t IH]; [auto|]. intros H. cbn [Py.lstrip].
  destruct (Py.isspace c); [|exact H].
  cbn [calm] in H. apply andb_prop in H. apply IH, H.
Qed.

Lemma leading_newlines_app_le (x w : str) :
  leading_newlines x <= leading_newlines (x ++ w).
Proof.
  induction x as [|c x IH]; cbn [app leading_newlines]; [lia|].
  destruct (Py.isspace c); lia.
Qed.

Lemma calm_prefix (x w : str) : calm (x ++ w) = true -> calm x = true.
Proof.
  induction x as [|c x IH]; [auto|]. cbn [app calm]. intros H.
  apply andb_prop in H. destruct H as [Hb Hx]. rewrite (IH Hx), andb_true_r.
  destruct (N.eqb NL c); [|reflexivity]. cbn [andb] in *.
  apply negb_true_iff, Nat.leb_gt in Hb. apply negb_true_iff, Nat.leb_gt.
  pose proof (leading_newlines_app_le x w). lia.
Qed.

Lemma calm_rstrip (l : str) : calm l = true -> calm (Py.rstrip l) = true.
Proof.
  intros H. destruct (rstrip_split l) as (w & Hl & _).
  rewrite Hl in H. eapply calm_prefix; eauto.
Qed.

Lemma lstrip_head (l : str) (c : char) (t : str) :
  Py.lstrip l = c :: t -> Py.isspace c = false.
Proof.
  induction l as [|d l IH]; cbn [Py.lstrip]; [discriminate|].
  destruct (Py.isspace d) eqn:Hd; [exact IH|].
  intros H. inversion H; subst. exact Hd.
Qed.

Lemma lstrip_idem (l : str) : Py.lstrip (Py.lstrip l) = Py.lstrip l.
Proof.
  destruct (Py.lstrip l) as [|c t] eqn:H; [reflexivity|].
  cbn [Py.lstrip]. now rewrite (lstrip_head l c t H).
Qed.

Lemma rstrip_idem (l : str) : Py.rstrip (Py.rstrip l) = Py.rstrip l.
Proof. unfold Py.rstrip. now rewrite rev_involutive, lstrip_idem. Qed.

Lemma lstrip_strip (l : str) : Py.lstrip (Py.strip l) = Py.strip l.
Proof.
  unfold Py.strip. destruct (Py.lstrip l) as [|c t] eqn:H; [reflexivity|].
  pose proof (lstrip_head l c t H) as Hc.
  rewrite rstrip_cons. cbn [Py.allws forallb]. rewrite Hc. cbn [andb Py.lstrip].
  now rewrite Hc.
Qed.

Lemma strip_idem (l : str) : Py.strip (Py.strip l) = Py.strip l.
Proof.
  unfold Py.strip at 1. rewrite lstrip_strip.
  unfold Py.strip. apply rstrip_idem.
Qed.

End LineFacts.

Module CleanerClaims.
Import Re Convert PyFacts BlankLineFacts SqueezeFacts LineFacts.

Section Claims.
Context {U : Unicode}.

(** [clean_text] as its three steps. *)
Lemma clean_text_steps (text : str) :
  clean_text text = Py.strip (rstrip_lines (squeeze true text)).
Proof. reflexivity. Qed.

(** What [clean_text] returns has no place for [blank_lines] to match, no
    line with trailing whitespace, and no whitespace at either end. *)
Lemma clean_text_clean (text : str) :
  calm (clean_text text) = true
  /\ rstrip_lines (clean_text text) = clean_text text
  /\ Py.strip (clean_text text) = clean_text text.
Proof.
  rewrite clean_text_steps. repeat split.
  - unfold Py.strip. apply calm_rstrip, calm_lstrip, calm_rstrip_lines.
    apply (squeeze_calm (length text) text true (le_n _)).
  - unfold Py.strip. apply tidy_rstrip, tidy_lstrip, rstrip_lines_idem.
  - apply strip_idem.
Qed.

(** C7.  [clean_text] is idempotent. *)
Theorem clean_text_idempotent :
  forall t : str, clean_text (clean_text t) = clean_text t.
Proof.
  intros t. destruct (clean_text_clean t) as (Hc & Hl & Hs).
  rewrite (clean_text_steps (clean_text t)).
  now rewrite (calm_squeeze _ true Hc), Hl, Hs.
Qed.

End Claims.
End CleanerClaims.

(** ** The structural parser *)

Module ParseFacts.
Import Re ReFacts Convert.

(** Takes a hypothesis about a successful match apart, one test at a
    time. *)
Ltac chew H :=
  repeat match type of H with
         | match ?x with _ => _ end = Some _ =>
             let E := fresh "E" in destruct x eqn:E; try discriminate H
         | (if ?x then _ else _) = Some _ =>
             let E := fresh "E" in destruct x eqn:E; try discriminate H
         end.

Section Facts.
Context {U : Unicode}.

(** The body of a tag is shorter than the text the tag is found in: the
    match also holds the brackets and the names. *)
Lemma tag_group2_shorter ic bos l m :
  match_at (tag_pattern ic) bos l = Some m ->
  length (group 2 m) < length l.
Proof.
  intros H. apply match_at_inv in H.
  destruct H as (rest & st & Hr & _ & Hg).
  unfold group. rewrite Hg. clear Hg m.
  unfold tag_pattern in Hr. simpl in Hr.
  destruct l as [|c t1]; [discriminate|].
  destruct (lit "<" c); [|discriminate].
  apply greedy_rep_sound in Hr.
  destruct Hr as (pre1 & post1 & -> & _ & _ & Hr).
  destruct post1 as [|c2 t2]; [discriminate|].
  destruct (lit ">" c2); [|discriminate].
  apply lazy_rep_sound in Hr.
  destruct Hr as (pre2 & post2 & -> & _ & _ & Hr).
  chew Hr. inversion Hr; subst; clear Hr.
  unfold close_group, open_group; simpl.
  rewrite length_firstn. simpl. rewrite !length_app. simpl.
  rewrite length_app. lia.
Qed.

Lemma tag_body_shorter content m :
  In m (finditer (tag_pattern true) content) ->
  length (Py.strip (group 2 m)) < length content.
Proof.
  intros H. apply finditer_in in H.
  destruct H as (bos & pre & suf & -> & Hm).
  apply tag_group2_shorter in Hm.
  pose proof (PyFacts.strip_length (group 2 m)).
  rewrite length_app. lia.
Qed.

Lemma fold_tag_step_none rec ms :
  fold_left (tag_step rec) ms None = None.
Proof. induction ms; simpl; auto. Qed.

(** The loop depends on the recursive call only at the tag bodies. *)
Lemma fold_tag_step_ext rec1 rec2 ms :
  (forall m, In m ms ->
             rec1 (Py.strip (group 2 m)) = rec2 (Py.strip (group 2 m))) ->
  forall acc,
    fold_left (tag_step rec1) ms acc = fold_left (tag_step rec2) ms acc.
Proof.
  induction ms as [|m ms IH]; intros Hext acc; cbn [fold_left]; [reflexivity|].
  assert (Hs : tag_step rec1 acc m = tag_step rec2 acc m).
  { unfold tag_step, tag_value. destruct acc; [|reflexivity].
    rewrite (Hext m) by (left; reflexivity). reflexivity. }
  rewrite Hs. apply IH. intros m' Hin. apply Hext. now right.
Qed.

Lemma fold_tag_step_total rec ms :
  (forall m, In m ms -> exists v, rec (Py.strip (group 2 m)) = Some v) ->
  forall acc, exists result,
    fold_left (tag_step rec) ms (Some acc) = Some result.
Proof.
  induction ms as [|m ms IH]; intros Htot acc; cbn [fold_left]; [eauto|].
  destruct (Htot m) as (v & Hv); [now left|].
  assert (Hs : exists acc', tag_step rec (Some acc) m = Some acc').
  { unfold tag_step, tag_value. rewrite Hv.
    destruct (has_nested _); [eauto|].
    destruct (_ && _); eauto. }
  destruct Hs as (acc' & ->). apply IH. intros m' Hin. apply Htot. now right.
Qed.

(** Fuel above the length of the text is enough. *)
Lemma parse_fuel_enough :
  forall fuel content,
    length content < fuel -> exists v, parse_fuel fuel content = Some v.
Proof.
  induction fuel as [|n IH]; intros content Hlen; [lia|].
  cbn [parse_fuel]. destruct (finditer (tag_pattern true) content) as [|m ms] eqn:Hms.
  - eauto.
  - destruct (fold_tag_step_total (parse_fuel n) (m :: ms)) with (acc := @nil (str * pyval))
      as (result & Hres).
    + intros m' Hin. apply IH. rewrite <- Hms in Hin.
      apply tag_body_shorter in Hin. lia.
    + rewrite Hres. eauto.
Qed.

Lemma tag_step_mono (rec1 rec2 : str -> option pyval) acc m r :
  (forall x v, rec1 x = Some v -> rec2 x = Some v) ->
  tag_step rec1 acc m = Some r -> tag_step rec2 acc m = Some r.
Proof.
  intros Hrec. unfold tag_step, tag_value.
  destruct acc as [acc|]; [|discriminate].
  destruct (has_nested (Py.strip (group 2 m))); [|auto].
  destruct (rec1 (Py.strip (group 2 m))) as [v|] eqn:Hv; [|discriminate].
  now rewrite (Hrec _ _ Hv).
Qed.

Lemma fold_tag_step_mono (rec1 rec2 : str -> option pyval) ms :
  (forall x v, rec1 x = Some v -> rec2 x = Some v) ->
  forall acc r,
    fold_left (tag_step rec1) ms acc = Some r ->
    fold_left (tag_step rec2) ms acc = Some r.
Proof.
  intros Hrec. induction ms as [|m ms IH]; intros acc r H;
    cbn [fold_left] in *; [exact H|].
  destruct (tag_step rec1 acc m) as [acc'|] eqn:Hs.
  - rewrite (tag_step_mono _ _ _ _ _ Hrec Hs). auto.
  - now rewrite fold_tag_step_none in H.
Qed.

(** More fuel does not change a result. *)
Lemma parse_fuel_S :
  forall fuel content v,
    parse_fuel fuel content = Some v ->
    parse_fuel (S fuel) content = Some v.
Proof.
  induction fuel as [|n IH]; intros content v H; [discriminate|].
  remember (S n) as n1 eqn:Hn1.
  cbn [parse_fuel]. rewrite Hn1 in H. cbn [parse_fuel] in H.
  destruct (finditer (tag_pattern true) content) as [|m ms] eqn:Hms; [exact H|].
  destruct (fold_left (tag_step (parse_fuel n)) (m :: ms) (Some []))
    as [result|] eqn:Hres; [|discriminate].
  rewrite (fold_tag_step_mono (parse_fuel n) (parse_fuel n1) (m :: ms))
    with (r := result); [exact H| |exact Hres].
  subst n1. exact IH.
Qed.

Lemma parse_fuel_mono fuel fuel' content v :
  fuel <= fuel' ->
  parse_fuel fuel content = Some v -> parse_fuel fuel' content = Some v.
Proof.
  intros Hle H. induction Hle; [exact H|]. apply parse_fuel_S. auto.
Qed.

Lemma parse_fuel_stable fuel content :
  length content < fuel ->
  parse_fuel fuel content = parse_xml_to_yaml content.
Proof.
  intros Hlen. unfold parse_xml_to_yaml.
  destruct (parse_fuel_enough (S (length content)) content) as (v & Hv); [lia|].
  rewrite Hv. eapply parse_fuel_mono; [|exact Hv]. lia.
Qed.

(** [parse_xml_to_yaml] as the source reads: the recursive call is the
    function itself. *)
Lemma parse_xml_to_yaml_eq content :
  parse_xml_to_yaml content =
  match finditer (tag_pattern true) content with
  | [] => Some (untagged content)
  | matches =>
      match fold_left (tag_step parse_xml_to_yaml) matches (Some []) with
      | None => None
      | Some result =>
          let remaining := remaining_text content in
          Some (VDict (if nonempty remaining
                       then Dict.set (py "instructions") (VStr remaining) result
                       else result))
      end
  end.
Proof.
  unfold parse_xml_to_yaml at 1. cbn [parse_fuel].
  destruct (finditer (tag_pattern true) content) as [|m ms] eqn:Hms; [reflexivity|].
  rewrite (fold_tag_step_ext (parse_fuel (length content)) parse_xml_to_yaml).
  - reflexivity.
  - intros m' Hin. apply parse_fuel_stable.
    rewrite <- Hms in Hin. now apply tag_body_shorter.
Qed.

End Facts.
End ParseFacts.

(** ** Duplicate tags and the text outside the tags *)

Module TagFacts.
Import Re ReFacts Convert ParseFacts DictFacts.

Section Facts.
Context {U : Unicode}.

Lemma parse_xml_to_yaml_total content :
  exists v, parse_xml_to_yaml content = Some v.
Proof. apply parse_fuel_enough. lia. Qed.

Lemma value_of_total m : exists v, value_of m = Some v.
Proof.
  unfold value_of, tag_value.
  destruct (has_nested _); [apply parse_xml_to_yaml_total|].
  destruct (_ && _); eauto.
Qed.

Lemma last_with_cons key m ms :
  last_with key (m :: ms) =
  match last_with key ms with
  | Some x => Some x
  | None => if str_eqb (key_of m) key then Some m else None
  end.
Proof.
  unfold last_with. simpl rev.
  generalize (rev ms) as l. induction l as [|x l IH]; simpl.
  - reflexivity.
  - destruct (str_eqb (key_of x) key); auto.
Qed.

(** The loop over the matches: every key holds the value of the last
    match stored under it, and is there once. *)
Lemma loop_last_wins ms :
  forall acc, NoDup (map fst acc) ->
  exists result,
    fold_left (tag_step parse_xml_to_yaml) ms (Some acc) = Some result
    /\ NoDup (map fst result)
    /\ forall key,
        Dict.get key result =
        match last_with key ms with
        | Some m => value_of m
        | None => Dict.get key acc
        end.
Proof.
  induction ms as [|m ms IH]; intros acc Hnd; cbn [fold_left].
  - exists acc. repeat split; auto.
  - destruct (value_of_total m) as (v & Hv).
    assert (Hs : tag_step parse_xml_to_yaml (Some acc) m
                 = Some (Dict.set (key_of m) v acc)).
    { unfold tag_step. unfold value_of in Hv. now rewrite Hv. }
    rewrite Hs.
    destruct (IH (Dict.set (key_of m) v acc)) as (result & Hf & Hnd' & Hget).
    { now apply set_NoDup. }
    exists result. repeat split; auto.
    intros key. rewrite Hget, last_with_cons.
    destruct (last_with key ms); [reflexivity|].
    destruct (str_eqb (key_of m) key) eqn:E.
    + apply str_eqb_eq in E. subst key. now rewrite get_set_same.
    + apply get_set_other. intros ->. now rewrite str_eqb_refl in E.
Qed.


End Facts.
End TagFacts.


(** ** The conversion driver *)

Module ConvertClaims.
Import Re Convert DictFacts.

Section Claims.
Context {U : Unicode} {Y : Yaml}.

(** What [convert_data] returns when it returns a document. *)
Lemma convert_data_some data data' :
  convert_data data = Returns (Some data') ->
  exists d fw content structure,
    data = VDict d
    /\ Dict.get (py "framework") d = Some (VDict fw)
    /\ Dict.get (py "content") fw = Some (VStr content)
    /\ parse_xml_to_yaml content = Some structure
    /\ data' =
       VDict (Dict.set (py "framework")
                (VDict (Dict.del (py "content")
                          (Dict.set (py "legacy_content") (VStr content)
                             (Dict.set (py "structure") structure fw)))) d).
Proof.
  unfold convert_data. intros H.
  destruct data as [| | | | |d]; try discriminate.
  destruct (Dict.get (py "framework") d) as [framework|] eqn:Hfw; [|discriminate].
  destruct (py_in (py "content") framework) as [has_content|]; [|discriminate].
  cbn [obind] in H. destruct has_content; [|discriminate]. cbn [negb] in H.
  destruct (py_in (py "structure") framework) as [has_structure|]; [|discriminate].
  cbn [obind] in H. destruct has_structure; [discriminate|].
  unfold py_getitem in H.
  destruct framework as [| | | | |fw]; try discriminate.
  destruct (Dict.get (py "content") fw) as [content|] eqn:Hc; [|discriminate].
  cbn [obind] in H.
  destruct content as [| | |content| |]; try discriminate.
  destruct (negb _); [discriminate|].
  destruct (parse_xml_to_yaml content) as [structure|] eqn:Hp; [|discriminate].
  inversion H; subst; clear H.
  exists d, fw, content, structure. repeat split; auto.
Qed.

(** C5.  When [convert_framework] converts a file, the document it writes
    holds under [framework] the original [content] text, unchanged, as
    [legacy_content], the parse of that text as [structure], and no
    [content]; the other fields of [framework] and of the document are as
    they were. *)
Theorem convert_keeps_legacy_content :
  forall yaml_file yaml_file' : file,
    convert_framework yaml_file = (yaml_file', Returns true) ->
    exists (text : str) (d fw : list (str * pyval)) (content : str)
           (structure : pyval) (d' fw' : list (str * pyval)),
      read yaml_file = Returns text
      /\ safe_load text = Returns (VDict d)
      /\ Dict.get (py "framework") d = Some (VDict fw)
      /\ Dict.get (py "content") fw = Some (VStr content)
      /\ parse_xml_to_yaml content = Some structure
      /\ read yaml_file' = Returns (py "---" ++ [NL] ++ dump (VDict d'))
      /\ Dict.get (py "framework") d' = Some (VDict fw')
      /\ Dict.get (py "legacy_content") fw' = Some (VStr content)
      /\ Dict.get (py "structure") fw' = Some structure
      /\ Dict.get (py "content") fw' = None
      /\ (forall k, k <> py "content" -> k <> py "structure" ->
                    k <> py "legacy_content" ->
                    Dict.get k fw' = Dict.get k fw)
      /\ (forall k, k <> py "framework" -> Dict.get k d' = Dict.get k d).
Proof.
  intros yaml_file yaml_file' H. unfold convert_framework in H.
  destruct (read yaml_file) as [text|] eqn:Hread; cbn [obind] in H;
    [|inversion H].
  destruct (safe_load text) as [data|] eqn:Hload; [|inversion H].
  destruct (convert_data data) as [[data'|]|] eqn:Hconv;
    [|inversion H|inversion H].
  apply convert_data_some in Hconv.
  destruct Hconv as (d & fw & content & structure & -> & Hfw & Hc & Hp & ->).
  unfold write in H. destruct (writable yaml_file); [|inversion H].
  inversion H; subst; clear H. cbn [read].
  set (fw' := Dict.del (py "content")
                (Dict.set (py "legacy_content") (VStr content)
                   (Dict.set (py "structure") structure fw))).
  exists text, d, fw, content, structure,
    (Dict.set (py "framework") (VDict fw') d), fw'.
  subst fw'. repeat split; auto.
  - apply get_set_same.
  - rewrite get_del_other by (vm_compute; discriminate). apply get_set_same.
  - rewrite get_del_other by (vm_compute; discriminate).
    rewrite get_set_other by (vm_compute; discriminate). apply get_set_same.
  - apply get_del_same.
  - intros k H1 H2 H3. now rewrite get_del_other, !get_set_other.
  - intros k H1. now rewrite get_set_other.
Qed.

(** C6.  A document whose [framework] mapping already has a [structure]
    key is skipped: [convert_framework] returns [False] and the file is as
    it was. *)
Theorem convert_skips_converted :
  forall (yaml_file : file) (text : str) (d fw : list (str * pyval)),
    read yaml_file = Returns text ->
    safe_load text = Returns (VDict d) ->
    Dict.get (py "framework") d = Some (VDict fw) ->
    Dict.has (py "structure") fw = true ->
    convert_framework yaml_file = (yaml_file, Returns false).
Proof.
  intros yaml_file text d fw Hread Hload Hfw Hs.
  unfold convert_framework. rewrite Hread. cbn [obind]. rewrite Hload.
  unfold convert_data. rewrite Hfw. cbn [py_in obind]. rewrite Hs.
  destruct (Dict.has (py "content") fw); reflexivity.
Qed.

End Claims.

Section Examples.
Import Samples.
#[local] Existing Instance ascii_unicode.
#[local] Existing Instance sample_yaml.

Lemma convert_keeps_legacy_content_witness :
  exists yaml_file' : file,
    convert_framework legacy_file = (yaml_file', Returns true)
    /\ exists (text : str) (d fw : list (str * pyval)) (content : str)
              (structure : pyval) (d' fw' : list (str * pyval)),
      read legacy_file = Returns text
      /\ safe_load text = Returns (VDict d)
      /\ Dict.get (py "framework") d = Some (VDict fw)
      /\ Dict.get (py "content") fw = Some (VStr content)
      /\ parse_xml_to_yaml content = Some structure
      /\ read yaml_file' = Returns (py "---" ++ [NL] ++ dump (VDict d'))
      /\ Dict.get (py "framework") d' = Some (VDict fw')
      /\ Dict.get (py "legacy_content") fw' = Some (VStr content)
      /\ Dict.get (py "structure") fw' = Some structure
      /\ Dict.get (py "content") fw' = None
      /\ (forall k, k <> py "content" -> k <> py "structure" ->
                    k <> py "legacy_content" ->
                    Dict.get k fw' = Dict.get k fw)
      /\ (forall k, k <> py "framework" -> Dict.get k d' = Dict.get k d).
Proof.
  eexists. split.
  - vm_compute. reflexivity.
  - apply (convert_keeps_legacy_content legacy_file). vm_compute. reflexivity.
Defined.

Lemma convert_skips_converted_witness :
  convert_framework converted_file = (converted_file, Returns false).
Proof.
  apply (convert_skips_converted converted_file (py "old")
           [(py "name", VStr (py "Helper"));
            (py "framework",
             VDict [(py "structure", VDict [(py "role", VStr (py "Helper"))]);
                    (py "legacy_content", VStr (py "<role>Helper</role>"))])]
           [(py "structure", VDict [(py "role", VStr (py "Helper"))]);
            (py "legacy_content", VStr (py "<role>Helper</role>"))]);
    reflexivity.
Defined.
End Examples.
End ConvertClaims.

(** ** The escaped-field pattern *)

Module EscapeFacts.
Import Re ReFacts Remediate PyFacts ParseFacts.

Section Facts.
Context {U : Unicode}.

Lemma word_not_space c : word c = true -> Py.isspace c = false.
Proof.
  unfold word. intros H.
  rewrite !orb_true_iff, !andb_true_iff, !N.leb_le, N.eqb_eq in H.
  destruct (Py.isspace c) eqn:E; [|reflexivity].
  unfold Py.isspace in E.
  rewrite !orb_true_iff, !andb_true_iff, !N.leb_le, !N.eqb_eq in E.
  lia.
Qed.

(** The first character outside a class is where a run of the class ends. *)
Lemma run_end_unique (p : char -> bool) :
  forall (w1 w2 : str) a b x y,
    w1 ++ a :: x = w2 ++ b :: y ->
    forallb p w1 = true -> forallb p w2 = true ->
    p a = false -> p b = false ->
    w1 = w2 /\ a = b /\ x = y.
Proof.
  induction w1 as [|c w1 IH]; intros [|d w2] a b x y Heq H1 H2 Ha Hb;
    simpl in *.
  - inversion Heq; auto.
  - inversion Heq; subst. apply andb_prop in H2. destruct H2; congruence.
  - inversion Heq; subst. apply andb_prop in H1. destruct H1; congruence.
  - inversion Heq; subst.
    apply andb_prop in H1. apply andb_prop in H2.
    destruct H1, H2. destruct (IH w2 a b x y) as (-> & -> & ->); auto.
Qed.

(** A match of the pattern starts with whitespace and reaches a word
    character behind it, and it holds a double quote. *)
Lemma escaped_match_shape bos l m :
  match_at escaped_pattern bos l = Some m ->
  exists ws c rest,
    l = ws ++ c :: rest /\ ws <> [] /\ Py.allws ws = true /\ word c = true
    /\ Py.has_char 34%N rest = true.
Proof.
  intros H. apply match_at_inv in H. destruct H as (rest & st & Hr & _ & _).
  unfold escaped_pattern in Hr. cbn [mrun] in Hr.
  apply greedy_rep_sound in Hr.
  destruct Hr as (ws & post & -> & Hws & Hn & Hr).
  cbn [mrun] in Hr. apply greedy_rep_sound in Hr.
  destruct Hr as (w & post2 & -> & Hw & Hn2 & Hr).
  destruct w as [|c w]; [simpl in Hn2; lia|].
  cbn [mrun] in Hr.
  destruct post2 as [|c2 post2]; [discriminate|].
  destruct (lit ":" c2); [|discriminate].
  apply greedy_rep_sound in Hr.
  destruct Hr as (ws2 & post3 & -> & _ & _ & Hr).
  cbn [mrun] in Hr.
  destruct post3 as [|q post3]; [discriminate|].
  destruct (N.eqb_spec 34 q) as [<-|]; [|discriminate].
  exists ws, c, (w ++ c2 :: ws2 ++ 34%N :: post3).
  simpl in Hw. apply andb_prop in Hw. destruct Hw as [Hc _].
  repeat split; auto.
  - intros ->. simpl in Hn. lia.
  - unfold Py.has_char. rewrite existsb_app. simpl. rewrite existsb_app.
    simpl. rewrite !orb_true_r. reflexivity.
Qed.

Lemma has_char_app c a b :
  Py.has_char c (a ++ b) = Py.has_char c a || Py.has_char c b.
Proof. apply existsb_app. Qed.

(** No double quote, no match. *)
Lemma escaped_needs_quote bos l :
  Py.has_char 34%N l = false -> match_at escaped_pattern bos l = None.
Proof.
  intros Hq. destruct (match_at escaped_pattern bos l) as [m|] eqn:Hm; [|reflexivity].
  apply escaped_match_shape in Hm.
  destruct Hm as (ws & c & rest & -> & _ & _ & _ & Hrest).
  rewrite has_char_app in Hq. simpl in Hq.
  change (existsb (N.eqb 34) rest) with (Py.has_char 34%N rest) in Hq.
  rewrite Hrest, !orb_true_r in Hq. discriminate.
Qed.

(** No match starts in whitespace that ends at a character outside
    [[a-zA-Z0-9_]], or at such a character. *)
Lemma escaped_needs_word bos ws c rest :
  Py.allws ws = true -> Py.isspace c = false -> word c = false ->
  match_at escaped_pattern bos (ws ++ c :: rest) = None.
Proof.
  intros Hws Hc Hw.
  destruct (match_at escaped_pattern bos (ws ++ c :: rest)) as [m|] eqn:Hm;
    [|reflexivity].
  apply escaped_match_shape in Hm.
  destruct Hm as (ws' & c' & rest' & Heq & _ & Hws' & Hc' & _).
  destruct (run_end_unique Py.isspace ws ws' c c' rest rest') as (_ & <- & _);
    auto; [apply word_not_space; auto|congruence].
Qed.

End Facts.
End EscapeFacts.

(** ** The fixers on a text *)

Module RemediateFacts.
Import Re ReFacts Remediate PyFacts EscapeFacts.

Section Facts.
Context {U : Unicode}.

Lemma pass_nil bos : pass bos [] = (0, Returns []).
Proof.
  unfold pass. cbn [scan].
  rewrite escaped_needs_quote by reflexivity. reflexivity.
Qed.

(** A character at which the pattern does not match is copied. *)
Lemma pass_copy bos c t :
  match_at escaped_pattern bos (c :: t) = None ->
  pass bos (c :: t) =
  match pass false t with
  | (n, Returns s) => (n, Returns (c :: s))
  | (n, Raises e) => (n, Raises e)
  end.
Proof. intros H. unfold pass. cbn [scan]. rewrite H. reflexivity. Qed.

(** A text without a double quote is left as it is. *)
Lemma pass_no_quote l :
  forall bos, Py.has_char 34%N l = false -> pass bos l = (0, Returns l).
Proof.
  induction l as [|c t IH]; intros bos H.
  - apply pass_nil.
  - rewrite pass_copy by (now apply escaped_needs_quote).
    rewrite IH; [reflexivity|].
    simpl in H. apply orb_false_elim in H. apply H.
Qed.

(** Whitespace that ends at a character outside whitespace and
    [[a-zA-Z0-9_]] is copied together with that character. *)
Lemma pass_keeps ws :
  forall bos c rest r,
    Py.allws ws = true -> Py.isspace c = false -> word c = false ->
    snd (pass bos (ws ++ c :: rest)) = Returns r ->
    exists r', r = ws ++ c :: r' /\ snd (pass false rest) = Returns r'.
Proof.
  induction ws as [|d ws IH]; intros bos c rest r Hws Hc Hw Hr.
  - cbn [app] in *.
    rewrite pass_copy in Hr by (apply (escaped_needs_word bos [] c rest); auto).
    destruct (pass false rest) as [n [s|e]]; cbn [snd] in Hr; [|discriminate].
    inversion Hr; subst. exists s. auto.
  - cbn [app] in Hr. simpl in Hws. apply andb_prop in Hws.
    destruct Hws as [Hd Hws].
    rewrite pass_copy in Hr.
    2:{ apply (escaped_needs_word bos (d :: ws) c rest); auto.
        simpl. now rewrite Hd. }
    destruct (pass false (ws ++ c :: rest)) as [n [s|e]] eqn:Hp;
      cbn [snd] in Hr; [|discriminate].
    inversion Hr; subst.
    destruct (IH false c rest s Hws Hc Hw) as (r' & -> & Hr').
    { now rewrite Hp. }
    exists r'. auto.
Qed.

(** A text that begins, behind whitespace, with three characters that are
    no whitespace. *)
Lemma strip_startswith_inv a1 a2 a3 c :
  Py.startswith [a1; a2; a3] (Py.strip c) = true ->
  exists ws rest, c = ws ++ a1 :: a2 :: a3 :: rest /\ Py.allws ws = true.
Proof.
  intros H. destruct (lstrip_split c) as (ws & Hc & Hws).
  destruct (rstrip_split (Py.lstrip c)) as (w' & Hl & _).
  unfold Py.strip in H.
  destruct (Py.rstrip (Py.lstrip c)) as [|b1 [|b2 [|b3 x]]];
    simpl in H; try discriminate;
    try (rewrite !andb_false_r in H; discriminate).
  rewrite !andb_true_iff, !N.eqb_eq in H. destruct H as (-> & -> & -> & _).
  exists ws, (x ++ w'). split; [|exact Hws].
  rewrite Hc at 1. rewrite Hl. reflexivity.
Qed.

Lemma strip_startswith_intro a1 a2 a3 ws rest :
  Py.allws ws = true ->
  Py.isspace a1 = false -> Py.isspace a2 = false -> Py.isspace a3 = false ->
  Py.startswith [a1; a2; a3] (Py.strip (ws ++ a1 :: a2 :: a3 :: rest)) = true.
Proof.
  intros Hws H1 H2 H3. unfold Py.strip.
  rewrite lstrip_app, Hws. cbn [Py.lstrip]. rewrite H1.
  rewrite !rstrip_cons. cbn [Py.allws forallb].
  rewrite H1, H2, H3. cbn [andb Py.startswith].
  now rewrite !N.eqb_refl.
Qed.

(** The replacement pass does not touch a leading marker. *)
Lemma marker_kept c r :
  Py.startswith marker (Py.strip c) = true ->
  snd (fix_escaped_text c) = Returns r ->
  Py.startswith marker (Py.strip r) = true.
Proof.
  intros Hm Hr. change marker with [45; 45; 45]%N in *.
  apply strip_startswith_inv in Hm. destruct Hm as (ws & rest & -> & Hws).
  change (fix_escaped_text ?x) with (pass true x) in Hr.
  apply pass_keeps in Hr; auto. destruct Hr as (r1 & -> & Hr).
  apply (pass_keeps []) in Hr; auto. destruct Hr as (r2 & -> & Hr).
  apply (pass_keeps []) in Hr; auto. destruct Hr as (r3 & -> & Hr).
  now apply strip_startswith_intro.
Qed.

Lemma fix_marker_marked x :
  Py.startswith marker (Py.strip (fix_marker x)) = true.
Proof.
  unfold fix_marker.
  destruct (Py.startswith marker (Py.strip x)) eqn:H; cbn [negb]; [exact H|].
  change (marker ++ [NL] ++ x) with ([] ++ 45 :: 45 :: 45 :: NL :: x)%N.
  now apply strip_startswith_intro.
Qed.

Lemma fix_marker_fixed x :
  Py.startswith marker (Py.strip x) = true -> fix_marker x = x.
Proof. unfold fix_marker. now intros ->. Qed.

Lemma fix_nbsp_fixed x : Py.has_char NBSP x = false -> fix_nbsp x = x.
Proof. unfold fix_nbsp. now intros ->. Qed.



End Facts.
End RemediateFacts.

Module IndentFacts.
Import Re ReFacts Remediate PyFacts ParseFacts EscapeFacts RemediateFacts.

Section Facts.
Context {U : Unicode}.

(** Group 1 of a match is the whitespace the match starts with. *)
Lemma escaped_group1 bos (l : str) m :
  match_at escaped_pattern bos l = Some m ->
  exists c ws rest, l = c :: ws ++ rest /\ group 1 m = c :: ws.
Proof.
  intros H. apply match_at_inv in H. destruct H as (rest & st & Hr & _ & Hg).
  unfold group. rewrite Hg. clear Hg m.
  unfold escaped_pattern in Hr. cbn [mrun] in Hr.
  apply greedy_rep_sound in Hr.
  destruct Hr as (ws & post & -> & Hws & Hn & Hr).
  cbn [mrun] in Hr. apply greedy_rep_sound in Hr.
  destruct Hr as (w & post2 & -> & Hw & Hn2 & Hr).
  cbn [mrun] in Hr.
  destruct post2 as [|c2 post2]; [discriminate|].
  destruct (lit ":" c2); [|discriminate].
  apply greedy_rep_sound in Hr.
  destruct Hr as (ws2 & post3 & -> & _ & _ & Hr).
  cbn [mrun] in Hr.
  destruct post3 as [|q post3]; [discriminate|].
  destruct (N.eqb 34 q); [|discriminate].
  apply greedy_rep_sound in Hr.
  destruct Hr as (v1 & post4 & -> & _ & _ & Hr).
  cbn [mrun] in Hr.
  destruct post4 as [|b1 post4]; [discriminate|].
  destruct (lit "\" b1); [|discriminate].
  destruct post4 as [|b2 post4]; [discriminate|].
  match type of Hr with (if ?x then _ else _) = _ => destruct x; [|discriminate] end.
  apply greedy_rep_sound in Hr.
  destruct Hr as (v2 & post5 & -> & _ & _ & Hr).
  cbn [mrun] in Hr.
  destruct post5 as [|q2 post5]; [discriminate|].
  destruct (N.eqb 34 q2); [|discriminate].
  inversion Hr; subst; clear Hr.
  destruct ws as [|c ws]; [simpl in Hn; lia|].
  exists c, ws. eexists. split; [reflexivity|].
  unfold close_group, open_group. cbn [opened closed lookup Nat.eqb].
  apply firstn_app_exact.
Qed.

Lemma join_two (sep a b : str) (r : list str) :
  Py.join sep (a :: b :: r) = a ++ sep ++ Py.join sep (b :: r).
Proof. reflexivity. Qed.

(** A replacement starts with the whitespace of group 1. *)
Lemma replace_escapes_head m (t : str) :
  replace_escapes m = Returns t -> exists t', t = group 1 m ++ t'.
Proof.
  unfold replace_escapes. intros H.
  match type of H with
  | match ?p with _ => _ end = _ => destruct p as [v|e]; [|discriminate]
  end.
  destruct (LineFacts.split_nonempty v) as (h & r & Hv).
  rewrite Hv in H. cbn [map] in H. rewrite join_two in H.
  inversion H. rewrite <- !app_assoc. eauto.
Qed.

(** The replacement pass keeps the first character of a text. *)
Lemma pass_head bos (c : char) (t r : str) :
  snd (pass bos (c :: t)) = Returns r -> exists r', r = c :: r'.
Proof.
  destruct (match_at escaped_pattern bos (c :: t)) as [m|] eqn:Hm.
  - intros H. unfold pass in H. cbn [scan] in H. rewrite Hm in H.
    assert (Hr : exists X, snd (sub_escapes (inr m :: X)) = Returns r).
    { destruct (length (whole m)); eauto. }
    destruct Hr as (X & Hr). cbn [sub_escapes] in Hr.
    destruct (replace_escapes m) as [t0|e] eqn:Ht0; [|discriminate].
    destruct (sub_escapes X) as [n [s0|e]]; cbn [snd] in Hr; [|discriminate].
    inversion Hr; subst r.
    apply replace_escapes_head in Ht0. destruct Ht0 as (t' & ->).
    apply escaped_group1 in Hm. destruct Hm as (c' & ws & rest & Hl & ->).
    inversion Hl; subst. cbn [app]. eauto.
  - intros H. rewrite (pass_copy bos c t Hm) in H.
    destruct (pass false t) as [n [s0|e]]; cbn [snd] in H; [|discriminate].
    inversion H. eauto.
Qed.

(** Replacing non-breaking spaces by spaces does not change where the
    text starts and ends, nor whether it starts with the marker. *)
Lemma nbsp_space (c : char) :
  Py.isspace (if N.eqb c NBSP then ch " " else c) = Py.isspace c.
Proof. destruct (N.eqb_spec c NBSP); [now subst c|reflexivity]. Qed.

Lemma lstrip_nbsp (l : str) :
  Py.lstrip (map (fun c => if N.eqb c NBSP then ch " " else c) l)
  = map (fun c => if N.eqb c NBSP then ch " " else c) (Py.lstrip l).
Proof.
  induction l as [|c t IH]; [reflexivity|]. cbn [map Py.lstrip].
  rewrite nbsp_space. destruct (Py.isspace c); [exact IH|reflexivity].
Qed.

Lemma strip_nbsp (l : str) :
  Py.strip (Py.replace_char NBSP (ch " ") l)
  = Py.replace_char NBSP (ch " ") (Py.strip l).
Proof.
  unfold Py.strip, Py.rstrip, Py.replace_char.
  now rewrite lstrip_nbsp, <- map_rev, lstrip_nbsp, map_rev.
Qed.

Lemma startswith_marker_nbsp (l : str) :
  Py.startswith marker (Py.replace_char NBSP (ch " ") l)
  = Py.startswith marker l.
Proof.
  assert (H : forall c : char,
             N.eqb 45 (if N.eqb c NBSP then ch " " else c) = N.eqb 45 c).
  { intros c. destruct (N.eqb_spec c NBSP); [now subst c|reflexivity]. }
  change marker with [45; 45; 45]%N. unfold Py.replace_char.
  destruct l as [|c1 [|c2 [|c3 l]]]; cbn [map Py.startswith];
    rewrite ?H; reflexivity.
Qed.

Lemma fix_nbsp_marker (s : str) :
  Py.startswith marker (Py.strip (fix_nbsp s))
  = Py.startswith marker (Py.strip s).
Proof.
  unfold fix_nbsp. destruct (Py.has_char NBSP s); [|reflexivity].
  now rewrite strip_nbsp, startswith_marker_nbsp.
Qed.

End Facts.
End IndentFacts.

(** ** The marker script *)

Module DocMarkerFacts.
Import DocMarkers.

(** [add_doc_marker] on a file it can read and write: a text that, trimmed,
    begins with the marker is left alone; any other gets the marker and a
    newline in front and is otherwise unchanged. *)
Lemma add_doc_marker_spec (f : file) (content : str) :
  read f = Returns content -> writable f = true ->
  add_doc_marker f =
  if Py.startswith (py "---") (Py.strip content)
  then (f, Returns false)
  else ({| path := path f;
           read := Returns (py "---" ++ [NL] ++ content);
           writable := true |}, Returns true).
Proof.
  intros Hr Hw. unfold add_doc_marker, write. rewrite Hr, Hw.
  destruct (Py.startswith (py "---") (Py.strip content)); reflexivity.
Qed.

End DocMarkerFacts.

(** ** The remediator on one text *)

Module RemediateClaims.
Import Re Remediate RemediateFacts.

Section Examples.
Import Samples.
#[local] Existing Instance ascii_unicode.

(** C2.  The remediator has no fixer that quotes a value: on
    [bare_version] it adds the marker and leaves [version: 1.0] as it is,
    and [values_quoted] stays 0. *)
Theorem bare_version_is_not_quoted :
  remediate bare_version = Returns (marker ++ [NL] ++ bare_version)
  /\ Py.contains (py "version: 1.0" ++ [NL]) (marker ++ [NL] ++ bare_version)
     = true
  /\ Py.has_char QUOTE (marker ++ [NL] ++ bare_version) = false
  /\ values_quoted
       (st (fst (fix_yaml_file (path version_file) (World init version_file))))
     = 0
  /\ read (disk (fst (fix_yaml_file (path version_file)
                        (World init version_file))))
     = Returns (marker ++ [NL] ++ bare_version).
Proof. repeat split; vm_compute; reflexivity. Qed.

End Examples.
End RemediateClaims.

(** ** The start marker in the remediated text *)

Module MarkerClaims.
Import Re Remediate RemediateFacts IndentFacts.

Section Claims.
Context {U : Unicode}.

(** C8, amended.  Let the remediator return [r] on the text [s].  When [s],
    trimmed, begins with the marker, no marker is added: [r] is what the two
    other fixers make of [s].  Otherwise [r] begins with the marker and a
    newline, and goes on with what the two other fixers make of the newline
    and [s].  In both cases the rest is the input itself when [s] has no
    non-breaking space and no double quote. *)
Theorem marker_added_once :
  forall s r : str,
    remediate s = Returns r ->
    (Py.startswith marker (Py.strip s) = true ->
     snd (pass true (fix_nbsp s)) = Returns r)
    /\ (Py.startswith marker (Py.strip s) = false ->
        exists rest,
          r = marker ++ NL :: rest
          /\ snd (pass false (NL :: fix_nbsp s)) = Returns (NL :: rest))
    /\ (Py.has_char NBSP s = false -> Py.has_char 34%N s = false ->
        r = if Py.startswith marker (Py.strip s)
            then s else marker ++ [NL] ++ s).
Proof.
  intros s r H. unfold remediate, fix_marker, fix_escaped_text in H.
  rewrite fix_nbsp_marker in H.
  destruct (Py.startswith marker (Py.strip s)) eqn:Hm; cbn [negb] in H.
  - split; [auto|]. split; [discriminate|].
    intros Hn Hq. rewrite (fix_nbsp_fixed s Hn) in H.
    rewrite (pass_no_quote s true Hq) in H. now inversion H.
  - split; [discriminate|].
    change (marker ++ [NL] ++ fix_nbsp s)
      with ([] ++ 45 :: 45 :: 45 :: NL :: fix_nbsp s)%N in H.
    apply pass_keeps in H; auto. destruct H as (r1 & -> & H).
    apply (pass_keeps []) in H; auto. destruct H as (r2 & -> & H).
    apply (pass_keeps []) in H; auto. destruct H as (r3 & -> & H).
    destruct (pass_head false NL (fix_nbsp s) r3 H) as (rest & ->).
    split.
    + intros _. exists rest. auto.
    + intros Hn Hq. rewrite (fix_nbsp_fixed s Hn) in H.
      rewrite (pass_no_quote (NL :: s) false) in H.
      * now inversion H.
      * unfold Py.has_char in *. cbn [existsb]. now rewrite Hq.
Qed.

End Claims.

Section Examples.
Import Samples RemediateSamples.
#[local] Existing Instance ascii_unicode.

Lemma marker_added_once_witness :
  remediate field_at_start = Returns field_at_start_fixed
  /\ Py.startswith marker (Py.strip field_at_start) = false
  /\ exists rest,
      field_at_start_fixed = marker ++ NL :: rest
      /\ snd (pass false (NL :: fix_nbsp field_at_start))
         = Returns (NL :: rest).
Proof.
  assert (H : remediate field_at_start = Returns field_at_start_fixed)
    by (vm_compute; reflexivity).
  split; [exact H|]. split; [vm_compute; reflexivity|].
  destruct (marker_added_once field_at_start _ H) as (_ & H2 & _).
  apply H2. vm_compute. reflexivity.
Defined.

(** C8 as it was stated fails on [with_nbsp]: the marker is added, and
    what follows it is not the input, the non-breaking space has become a
    space.  It fails on [field_at_start] too, a text the two other fixers
    leave as it is: behind the marker and its newline the key has
    whitespace before it, and the converter rewrites the field. *)
Lemma remainder_is_not_the_input :
  (Py.startswith marker (Py.strip with_nbsp) = false
   /\ remediate with_nbsp = Returns (marker ++ [NL] ++ py "a b")
   /\ marker ++ [NL] ++ py "a b" <> marker ++ [NL] ++ with_nbsp)
  /\ (Py.startswith marker (Py.strip field_at_start) = false
      /\ snd (fix_escaped_text (fix_nbsp field_at_start))
         = Returns field_at_start
      /\ remediate field_at_start = Returns field_at_start_fixed
      /\ field_at_start_fixed <> marker ++ [NL] ++ field_at_start).
Proof.
  split; [split; [vm_compute; reflexivity|]|split; [vm_compute; reflexivity|]].
  - split; [vm_compute; reflexivity|]. vm_compute. discriminate.
  - split; [vm_compute; reflexivity|].
    split; [vm_compute; reflexivity|]. vm_compute. discriminate.
Qed.

End Examples.
End MarkerClaims.


(** ** More on the text cleaner *)

Module CleanerMore.
Import Re ReFacts Convert PyFacts BlankLineFacts SqueezeFacts LineFacts.

(** *** Lines *)

Lemma split_no_newline (l : str) :
  Forall (fun line => Py.has_char NL line = false) (Py.split NL l).
Proof.
  induction l as [|c t IH]; cbn [Py.split].
  - constructor; [reflexivity|constructor].
  - destruct (N.eqb_spec c NL) as [->|Hc].
    + constructor; [reflexivity|exact IH].
    + destruct (Py.split NL t) as [|h r]; inversion IH; subst.
      * constructor; [|constructor]. unfold Py.has_char. cbn [existsb].
        rewrite orb_false_r. apply N.eqb_neq. congruence.
      * constructor; [|assumption]. unfold Py.has_char in *.
        cbn [existsb]. apply orb_false_intro; [|assumption].
        apply N.eqb_neq. congruence.
Qed.

Lemma join_split (l : str) : Py.join [NL] (Py.split NL l) = l.
Proof.
  induction l as [|c t IH]; [reflexivity|]. cbn [Py.split].
  destruct (split_nonempty t) as (h & r & Ht). rewrite Ht in *.
  destruct (N.eqb_spec c NL) as [->|Hc].
  - change (Py.join [NL] ([] :: h :: r)) with (NL :: Py.join [NL] (h :: r)).
    now rewrite IH.
  - rewrite join_cons_cons. now rewrite IH.
Qed.

Lemma split_join (ls : list str) :
  ls <> [] -> Forall (fun line => Py.has_char NL line = false) ls ->
  Py.split NL (Py.join [NL] ls) = ls.
Proof.
  induction ls as [|x r IH]; intros Hn Hf; [congruence|].
  inversion Hf as [|? ? Hx Hr]; subst. clear Hn.
  destruct r as [|y r'].
  - cbn [Py.join]. clear IH Hf Hr.
    induction x as [|c t IHt]; [reflexivity|].
    unfold Py.has_char in *. cbn [existsb] in Hx.
    apply orb_false_elim in Hx.
    destruct Hx as [Hc Ht]. cbn [Py.split].
    rewrite N.eqb_sym, Hc. now rewrite (IHt Ht).
  - specialize (IH ltac:(discriminate) Hr).
    change (Py.join [NL] (x :: y :: r'))
      with (x ++ NL :: Py.join [NL] (y :: r')).
    clear Hf Hr. induction x as [|c t IHt].
    + cbn [app Py.split]. rewrite N.eqb_refl. now rewrite IH.
    + unfold Py.has_char in *. cbn [existsb] in Hx.
      apply orb_false_elim in Hx.
      destruct Hx as [Hc Ht]. cbn [app Py.split].
      rewrite N.eqb_sym, Hc. now rewrite (IHt Ht).
Qed.

Lemma has_char_app_false c (a b : str) :
  Py.has_char c (a ++ b) = false -> Py.has_char c a = false.
Proof.
  unfold Py.has_char. rewrite existsb_app. intros H.
  now apply orb_false_elim in H.
Qed.

Lemma rstrip_no_newline (l : str) :
  Py.has_char NL l = false -> Py.has_char NL (Py.rstrip l) = false.
Proof.
  intros H. destruct (rstrip_split l) as (w & Hl & _).
  rewrite Hl in H. now apply has_char_app_false in H.
Qed.

(** The lines of a text that the second step leaves as it is end in no
    whitespace. *)
Lemma tidy_lines (v : str) :
  rstrip_lines v = v ->
  Forall (fun line => Py.rstrip line = line) (Py.split NL v).
Proof.
  intros Hv.
  assert (H : map Py.rstrip (Py.split NL v) = Py.split NL v).
  { rewrite <- Hv at 2. unfold rstrip_lines. symmetry. apply split_join.
    - destruct (split_nonempty v) as (h & r & ->). discriminate.
    - pose proof (split_no_newline v) as Hf.
      induction Hf; cbn [map]; constructor; auto using rstrip_no_newline. }
  clear Hv. induction (Py.split NL v) as [|x r IH]; constructor;
    cbn [map] in H; injection H as Hx Hr; auto.
Qed.

(** *** Three newlines in a row *)

Lemma calm_no_triple (l : str) :
  calm l = true -> Py.contains [NL; NL; NL] l = false.
Proof.
  induction l as [|c t IH]; intros H; [reflexivity|].
  rewrite calm_cons in H. apply andb_prop in H. destruct H as [Hb Hc].
  cbn [Py.contains]. rewrite (IH Hc), orb_false_r.
  apply negb_true_iff in Hb.
  destruct (Py.startswith [NL; NL; NL] (c :: t)) eqn:Hs; [|reflexivity].
  exfalso. destruct t as [|c2 [|c3 t3]]; cbn [Py.startswith] in Hs;
    try (rewrite ?andb_false_r in Hs; discriminate).
  rewrite !andb_true_iff, !N.eqb_eq in Hs. destruct Hs as (<- & <- & <- & _).
  cbn [blank_run leading_newlines] in Hb.
  rewrite (newline_is_space NL (N.eqb_refl _)), N.eqb_refl in Hb.
  discriminate.
Qed.

(** *** Only whitespace goes *)

(** The characters of a text that are no whitespace. *)
Local Abbreviation ink l := (filter (fun c : char => negb (Py.isspace c)) l).

Lemma ink_allws (w : str) : Py.allws w = true -> ink w = [].
Proof.
  induction w as [|c t IH]; [reflexivity|]. cbn [Py.allws forallb filter].
  intros H. apply andb_prop in H. destruct H as [-> Ht]. now apply IH.
Qed.

Lemma ink_nil_allws (w : str) : ink w = [] -> Py.allws w = true.
Proof.
  induction w as [|c t IH]; [reflexivity|]. cbn [Py.allws forallb filter].
  destruct (Py.isspace c); cbn [negb andb]; [exact IH|discriminate].
Qed.

Lemma ink_lstrip (l : str) : ink (Py.lstrip l) = ink l.
Proof.
  destruct (lstrip_split l) as (w & Hl & Hw). rewrite Hl at 2.
  now rewrite filter_app, (ink_allws w Hw).
Qed.

Lemma ink_rstrip (l : str) : ink (Py.rstrip l) = ink l.
Proof.
  destruct (rstrip_split l) as (w & Hl & Hw). rewrite Hl at 2.
  now rewrite filter_app, (ink_allws w Hw), app_nil_r.
Qed.

Lemma ink_rstrip_lines (l : str) : ink (rstrip_lines l) = ink l.
Proof.
  induction l as [|c t IH]; [reflexivity|]. rewrite rstrip_lines_cons.
  destruct (N.eqb NL c); [cbn [filter]; now rewrite IH|].
  destruct (Py.isspace c) eqn:Hc; cbn [andb].
  - destruct (line_is_blank t); cbn [filter]; rewrite Hc; exact IH.
  - cbn [filter]. now rewrite IH.
Qed.

Section Facts.
Context {U : Unicode}.

(** A match of [blank_lines] is whitespace, three characters or more. *)
Lemma blank_match_shape bos (l : str) m :
  match_at blank_lines bos l = Some m ->
  Py.allws (whole m) = true /\ 3 <= length (whole m).
Proof.
  intros H. apply match_at_inv in H. destruct H as (rest & st & Hr & Hl & _).
  unfold blank_lines in Hr. cbn [mrun] in Hr.
  destruct l as [|c t]; [discriminate|].
  destruct (N.eqb NL c) eqn:Hc; [|discriminate].
  apply greedy_rep_sound in Hr.
  destruct Hr as (pre & post & -> & Hpre & _ & Hr).
  cbn [mrun] in Hr. destruct post as [|c2 t2]; [discriminate|].
  destruct (N.eqb NL c2) eqn:Hc2; [|discriminate].
  apply greedy_rep_sound in Hr.
  destruct Hr as (pre2 & post2 & -> & Hpre2 & _ & Hr).
  cbn [mrun] in Hr. apply greedy_rep_sound in Hr.
  destruct Hr as (pre3 & post3 & -> & Hpre3 & Hn & Hr).
  cbn [mrun] in Hr. inversion Hr; subst post3; clear Hr.
  assert (Hw : whole m = c :: pre ++ c2 :: pre2 ++ pre3).
  { apply (app_inv_tail rest). rewrite <- Hl. cbn [app].
    now rewrite <- !app_assoc, <- app_comm_cons, <- !app_assoc. }
  rewrite Hw. split.
  - unfold Py.allws. cbn [forallb]. rewrite forallb_app. cbn [forallb].
    rewrite forallb_app, Hpre, Hpre2.
    rewrite (newline_is_space c Hc), (newline_is_space c2 Hc2).
    cbn [andb]. apply forallb_forall. intros x Hx.
    rewrite forallb_forall in Hpre3. apply newline_is_space. auto.
  - cbn [length]. rewrite length_app. cbn [length]. rewrite length_app. lia.
Qed.

(** The first step at a position where the pattern matches: the match is
    whitespace of three characters or more, and two newlines take its
    place. *)
Lemma squeeze_match_ws bos (l : str) :
  blank_run l = true ->
  exists w z, l = w ++ z /\ Py.allws w = true /\ 3 <= length w
              /\ squeeze bos l = NL :: NL :: squeeze false z.
Proof.
  intros Hb. pose proof (blank_lines_spec l bos) as Hs.
  destruct (match_at blank_lines bos l) as [m|] eqn:Hm; [|congruence].
  destruct Hs as (_ & z & Hl & Hne & _).
  destruct (blank_match_shape bos l m Hm) as (Hws & Hlen).
  exists (whole m), z. split; [exact Hl|]. split; [exact Hws|].
  split; [exact Hlen|].
  unfold squeeze. destruct l as [|c t]; [discriminate|].
  cbn [scan]. rewrite Hm.
  destruct (length (whole m)) as [|k] eqn:Hk; [lia|].
  cbn [flat_map app]. do 2 f_equal.
  assert (Hz : skipn k t = z).
  { destruct (whole m) as [|c' w']; [discriminate|].
    cbn [app] in Hl. inversion Hl; subst. cbn [length] in Hk.
    inversion Hk; subst. now rewrite skipn_app, skipn_all, Nat.sub_diag. }
  rewrite scan_skip.
  - now rewrite Hz.
  - destruct (whole m) as [|c' w']; [discriminate|].
    cbn [app] in Hl. inversion Hl; subst. cbn [length] in Hk.
    inversion Hk; subst. rewrite length_app. lia.
Qed.

Lemma ink_squeeze n : forall (l : str) bos,
  length l <= n -> ink (squeeze bos l) = ink l /\ length (squeeze bos l) <= length l.
Proof.
  induction n as [|n IH]; intros l bos Hn.
  - destruct l; [|cbn in Hn; lia]. rewrite squeeze_nil. auto.
  - destruct l as [|c t]; [rewrite squeeze_nil; auto|].
    destruct (blank_run (c :: t)) eqn:Hb.
    + destruct (squeeze_match_ws bos (c :: t) Hb) as (w & z & Hl & Hw & Hlen & ->).
      rewrite Hl. rewrite Hl in Hn. rewrite length_app in *.
      destruct (IH z false ltac:(lia)) as (Hi & Hle).
      split.
      * cbn [filter]. rewrite (newline_is_space NL (N.eqb_refl _)).
        cbn [negb]. now rewrite filter_app, (ink_allws w Hw), Hi.
      * cbn [length]. lia.
    + rewrite (squeeze_copy bos c t Hb). cbn [length] in Hn.
      destruct (IH t false ltac:(lia)) as (Hi & Hle). split.
      * cbn [filter]. now rewrite Hi.
      * cbn [length]. lia.
Qed.

(** X1.  What [clean_text] returns is in normal form, whatever the text:
    it holds no three newlines in a row, none of its lines ends in
    whitespace, and it neither starts nor ends with whitespace. *)
Theorem clean_text_normal_form (text : str) :
  Py.contains [NL; NL; NL] (clean_text text) = false
  /\ Forall (fun line => Py.rstrip line = line)
            (Py.split NL (clean_text text))
  /\ Py.strip (clean_text text) = clean_text text.
Proof.
  destruct (CleanerClaims.clean_text_clean text) as (Hc & Hr & Hs).
  split; [now apply calm_no_triple|]. split; [now apply tidy_lines|exact Hs].
Qed.

(** X2.  [clean_text] removes whitespace and nothing else: the characters
    of the text that are no whitespace are all in the result, in their
    order, and the result holds no others. *)
Theorem clean_text_keeps_ink (text : str) :
  filter (fun c => negb (Py.isspace c)) (clean_text text)
  = filter (fun c => negb (Py.isspace c)) text.
Proof.
  rewrite CleanerClaims.clean_text_steps. unfold Py.strip.
  rewrite ink_rstrip, ink_lstrip, ink_rstrip_lines.
  apply (ink_squeeze (length text)). lia.
Qed.

(** X3.  [clean_text] returns the empty text exactly for the texts that
    hold nothing but whitespace (the empty text among them). *)
Theorem clean_text_empty_iff (text : str) :
  clean_text text = [] <-> Py.allws text = true.
Proof.
  assert (Hi : ink (clean_text text) = ink text).
  { rewrite CleanerClaims.clean_text_steps. unfold Py.strip.
    rewrite ink_rstrip, ink_lstrip, ink_rstrip_lines.
    apply (ink_squeeze (length text)). lia. }
  split; intros H.
  - apply ink_nil_allws. rewrite <- Hi, H. reflexivity.
  - destruct (CleanerClaims.clean_text_clean text) as (_ & _ & Hs).
    rewrite <- Hs. unfold Py.strip.
    assert (Hw : Py.allws (clean_text text) = true).
    { apply ink_nil_allws. rewrite Hi. now apply ink_allws. }
    rewrite (lstrip_allws _ Hw). apply rstrip_nil.
Qed.

(** X4.  [clean_text] never makes a text longer. *)
Theorem clean_text_no_longer (text : str) :
  length (clean_text text) <= length text.
Proof.
  rewrite CleanerClaims.clean_text_steps.
  pose proof (strip_length (rstrip_lines (squeeze true text))) as H1.
  pose proof (rstrip_lines_length (squeeze true text)) as H2.
  destruct (ink_squeeze (length text) text true (le_n _)) as (_ & H3).
  lia.
Qed.

End Facts.
End CleanerMore.

(** ** More on the matcher: when a match is found *)

Module ReMore.
Import Re ReFacts.

Section Facts.
Context {U : Unicode}.

(** A pattern that begins with one character of a class finds nothing in
    a text without such a character. *)
Lemma scan_no_first its p (l : str) :
  forall bos, forallb (fun c => negb (p c)) l = true ->
  scan (Chr p Once :: its) 0 bos l = map inl l.
Proof.
  induction l as [|c t IH]; intros bos H; [reflexivity|].
  cbn [forallb] in H. apply andb_prop in H. destruct H as [Hc Ht].
  apply negb_true_iff in Hc.
  cbn [scan map]. unfold match_at. cbn [mrun]. rewrite Hc.
  now rewrite (IH false Ht).
Qed.

Lemma finditer_no_first its p (l : str) :
  forallb (fun c => negb (p c)) l = true ->
  finditer (Chr p Once :: its) l = [].
Proof.
  intros H. unfold finditer. rewrite (scan_no_first its p l true H).
  clear H. induction l as [|c t IH]; [reflexivity|exact IH].
Qed.

Lemma sub_no_first its p repl (l : str) :
  forallb (fun c => negb (p c)) l = true ->
  sub (Chr p Once :: its) repl l = l.
Proof.
  intros H. unfold sub, sub_with. rewrite (scan_no_first its p l true H).
  clear H. induction l as [|c t IH]; [reflexivity|].
  cbn [map flat_map app]. now rewrite IH.
Qed.

Lemma no_char_class a (l : str) :
  Py.has_char (ch a) l = false ->
  forallb (fun c => negb (lit a c)) l = true.
Proof.
  unfold Py.has_char, lit. induction l as [|c t IH]; [reflexivity|].
  cbn [existsb forallb]. intros H. apply orb_false_elim in H.
  destruct H as [Hc Ht]. rewrite N.eqb_sym, Hc. cbn [negb andb]. auto.
Qed.

(** The greedy repetition takes the whole run of the class when the rest
    of the pattern matches behind it. *)
Lemma greedy_run (R : Type) p (k : bool -> str -> option R) (pre : str) :
  forall min bos post r,
    forallb p pre = true ->
    match post with c :: _ => p c = false | [] => True end ->
    min <= length pre ->
    k (bos && is_nil pre) post = Some r ->
    greedy_rep p k min bos (pre ++ post) = Some r.
Proof.
  induction pre as [|c t IH]; intros min bos post r Hp Hpost Hmin Hk.
  - cbn [length] in Hmin. assert (min = 0) by lia. subst min.
    cbn [app is_nil] in *. rewrite andb_true_r in Hk.
    destruct post as [|c t]; cbn [greedy_rep Nat.eqb]; [exact Hk|].
    now rewrite Hpost.
  - cbn [forallb] in Hp. apply andb_prop in Hp. destruct Hp as [Hc Ht].
    cbn [app greedy_rep]. rewrite Hc.
    rewrite (IH (pred min) false post r); auto.
    + cbn [length] in Hmin. lia.
    + cbn [is_nil] in Hk. rewrite andb_false_r in Hk.
      now rewrite andb_false_l.
Qed.

(** The lazy repetition stops at the first position where the rest of the
    pattern matches. *)
Lemma lazy_first (R : Type) p (k : bool -> str -> option R) (pre : str) :
  forall bos post r,
    forallb p pre = true ->
    (forall b x y, pre = x ++ y -> y <> [] -> k b (y ++ post) = None) ->
    k (bos && is_nil pre) post = Some r ->
    lazy_rep p k 0 bos (pre ++ post) = Some r.
Proof.
  induction pre as [|c t IH]; intros bos post r Hp Hno Hk.
  - cbn [app is_nil] in *. rewrite andb_true_r in Hk.
    destruct post; cbn [lazy_rep]; now rewrite Hk.
  - cbn [forallb] in Hp. apply andb_prop in Hp. destruct Hp as [Hc Ht].
    cbn [app lazy_rep].
    pose proof (Hno bos [] (c :: t) eq_refl ltac:(discriminate)) as H0.
    cbn [app] in H0. rewrite H0, Hc. apply IH; auto.
    + intros b x y -> Hy. apply (Hno b (c :: x) y); auto.
    + cbn [is_nil] in Hk. rewrite andb_false_r in Hk.
      now rewrite andb_false_l.
Qed.

Lemma after_prefix_refl ic (g rest : str) :
  after_prefix ic g (g ++ rest) = Some rest.
Proof.
  induction g as [|a g IH]; [reflexivity|].
  cbn [app after_prefix]. rewrite !N.eqb_refl. destruct ic; exact IH.
Qed.

End Facts.
End ReMore.

(** ** The bracketed section labels *)

Module SectionMore.
Import Re ReFacts Convert ReMore.

Section Facts.
Context {U : Unicode}.

(** A match of [section_pattern]: an opening bracket, a label without a
    colon, a colon, the rest of the section on the same line, a closing
    bracket. *)
Lemma section_match_shape bos (l : str) m :
  match_at section_pattern bos l = Some m ->
  exists raw body rest,
    l = ch "[" :: raw ++ ch ":" :: body ++ ch "]" :: rest
    /\ group 1 m = raw /\ raw <> []
    /\ Py.has_char (ch ":") raw = false
    /\ Py.has_char NL body = false.
Proof.
  intros H. apply match_at_inv in H. destruct H as (rest & st & Hr & _ & Hg).
  unfold group. rewrite Hg. clear Hg m.
  unfold section_pattern in Hr. cbn [mrun] in Hr.
  destruct l as [|c t]; [discriminate|].
  destruct (lit "[" c) eqn:Hc; [|discriminate].
  apply N.eqb_eq in Hc. subst c.
  apply greedy_rep_sound in Hr.
  destruct Hr as (raw & post & -> & Hraw & Hlen & Hr).
  cbn [mrun] in Hr. destruct post as [|c2 t2]; [discriminate|].
  destruct (lit ":" c2) eqn:Hc2; [|discriminate].
  apply N.eqb_eq in Hc2. subst c2.
  apply lazy_rep_sound in Hr.
  destruct Hr as (body & post2 & -> & Hbody & _ & Hr).
  cbn [mrun] in Hr. destruct post2 as [|c3 t3]; [discriminate|].
  destruct (lit "]" c3) eqn:Hc3; [|discriminate].
  apply N.eqb_eq in Hc3. subst c3.
  inversion Hr; subst; clear Hr.
  exists raw, body, rest. split; [reflexivity|]. split.
  - unfold close_group, open_group. cbn [opened closed lookup Nat.eqb].
    rewrite firstn_app_exact. reflexivity.
  - split; [destruct raw; [cbn in Hlen; lia|discriminate]|]. split.
    + clear -Hraw. unfold Py.has_char. induction raw as [|c t IH]; [reflexivity|].
      cbn [forallb existsb] in *. apply andb_prop in Hraw.
      destruct Hraw as [Hc Ht]. rewrite (IH Ht), orb_false_r.
      unfold noneof, oneof in Hc. cbn [py list_ascii_of_string map existsb] in Hc.
      rewrite orb_false_r in Hc. apply negb_true_iff in Hc.
      now rewrite N.eqb_sym.
    + clear -Hbody. unfold Py.has_char. induction body as [|c t IH]; [reflexivity|].
      cbn [forallb existsb] in *. apply andb_prop in Hbody.
      destruct Hbody as [Hc Ht]. rewrite (IH Ht), orb_false_r.
      unfold dot in Hc. apply negb_true_iff in Hc. now rewrite N.eqb_sym.
Qed.

Lemma section_label_found (content label : str) :
  In label (parse_scratchpad_sections content) ->
  exists pre raw body rest,
    content = pre ++ ch "[" :: raw ++ ch ":" :: body ++ ch "]" :: rest
    /\ label = Py.strip raw /\ raw <> []
    /\ Py.has_char (ch ":") raw = false
    /\ Py.has_char NL body = false.
Proof.
  unfold parse_scratchpad_sections. rewrite map_map. intros H.
  apply in_map_iff in H. destruct H as (m & Hl & Hin).
  apply finditer_in in Hin. destruct Hin as (bos & pre & suf & -> & Hm).
  apply section_match_shape in Hm.
  destruct Hm as (raw & body & rest & -> & Hg & Hne & Hc & Hb).
  exists pre, raw, body, rest. rewrite Hg in Hl. auto.
Qed.

(** X5.  Every label [parse_scratchpad_sections] reports is in the text:
    it is what trimming leaves of the text between an opening bracket and
    the first colon behind it; that text holds at least one character and
    no colon, and the closing bracket follows the colon on the same line.
    The label itself can be empty, see [blank_label]. *)
Theorem section_labels_sound (content label : str) :
  In label (parse_scratchpad_sections content) ->
  exists pre raw body rest,
    content = pre ++ ch "[" :: raw ++ ch ":" :: body ++ ch "]" :: rest
    /\ label = Py.strip raw /\ raw <> []
    /\ Py.has_char (ch ":") raw = false
    /\ Py.has_char NL body = false.
Proof. apply section_label_found. Qed.

(** X6.  A text that lacks an opening bracket, a colon or a closing
    bracket has no section labels: the result is the empty list. *)
Theorem no_brackets_no_sections (content : str) :
  Py.has_char (ch "[") content = false
  \/ Py.has_char (ch ":") content = false
  \/ Py.has_char (ch "]") content = false ->
  parse_scratchpad_sections content = [].
Proof.
  intros H.
  destruct (parse_scratchpad_sections content) as [|label r] eqn:Hs;
    [reflexivity|exfalso].
  destruct (section_label_found content label) as
    (pre & raw & body & rest & Hc & _); [rewrite Hs; now left|].
  rewrite Hc in H. unfold Py.has_char in H.
  repeat (rewrite ?existsb_app in H; cbn [existsb] in H).
  rewrite !N.eqb_refl in H.
  rewrite ?orb_true_r, ?orb_true_l in H.
  destruct H as [H|[H|H]]; try discriminate.
  all: revert H; rewrite ?orb_true_r; discriminate.
Qed.

End Facts.

Section Examples.
#[local] Existing Instance ascii_unicode.

Lemma section_labels_sound_witness :
  In (py "Goal") (parse_scratchpad_sections (py "see [ Goal : think] now"))
  /\ exists pre raw body rest,
       py "see [ Goal : think] now"
       = pre ++ ch "[" :: raw ++ ch ":" :: body ++ ch "]" :: rest
       /\ py "Goal" = Py.strip raw /\ raw <> []
       /\ Py.has_char (ch ":") raw = false
       /\ Py.has_char NL body = false.
Proof.
  split; [vm_compute; now left|].
  apply section_labels_sound. vm_compute. now left.
Defined.

(** A label of whitespace is reported as the empty text. *)
Lemma blank_label : parse_scratchpad_sections (py "[ :x]") = [[]].
Proof. vm_compute. reflexivity. Qed.

Lemma no_brackets_no_sections_witness :
  Py.has_char (ch "]") (py "a [b: c") = false
  /\ parse_scratchpad_sections (py "a [b: c") = [].
Proof.
  split; [reflexivity|].
  apply no_brackets_no_sections. right. right. reflexivity.
Defined.

End Examples.
End SectionMore.

(** ** How deep the recursion goes *)

Module DepthFacts.
Import Re ReFacts Convert ConvertMain Depth PyFacts ParseFacts TagFacts.

Section Facts.
Context {U : Unicode}.

(** The loop returns exactly when the recursive call returns on every
    body it is made on. *)
Lemma fold_tag_step_some rec ms :
  forall acc,
    (exists result, fold_left (tag_step rec) ms (Some acc) = Some result)
    <-> (forall m, In m ms ->
           has_nested (Py.strip (group 2 m)) = true ->
           rec (Py.strip (group 2 m)) <> None).
Proof.
  induction ms as [|m ms IH]; intros acc; cbn [fold_left].
  - split; [intros _ m []|eauto].
  - unfold tag_step at 2, tag_value.
    destruct (has_nested (Py.strip (group 2 m))) eqn:Hn.
    + destruct (rec (Py.strip (group 2 m))) as [v|] eqn:Hr.
      * rewrite IH. split; intros H m' Hin.
        -- destruct Hin as [<-|Hin]; [intros _; congruence|now apply H].
        -- apply H. now right.
      * rewrite fold_tag_step_none. split.
        -- intros (r & Hr'). discriminate.
        -- intros H. exfalso. apply (H m); auto. now left.
    + assert (Hv : exists v,
                 (if Py.has_char (ch "[") (Py.strip (group 2 m))
                     && Py.contains (py "]:") (Py.strip (group 2 m))
                  then Some (bracketed (Py.strip (group 2 m)))
                  else Some (VStr (clean_text (Py.strip (group 2 m)))))
                 = Some v) by (destruct (_ && _); eauto).
      destruct Hv as (v & ->). rewrite IH. split; intros H m' Hin.
      * destruct Hin as [<-|Hin]; [congruence|now apply H].
      * apply H. now right.
Qed.

Lemma fold_depth_le (f : str -> nat) ms limit :
  forall d,
    fold_left (fun deepest m =>
                 if has_nested (Py.strip (group 2 m))
                 then Nat.max deepest (f (Py.strip (group 2 m)))
                 else deepest) ms d <= limit
    <-> d <= limit
        /\ forall m, In m ms ->
             has_nested (Py.strip (group 2 m)) = true ->
             f (Py.strip (group 2 m)) <= limit.
Proof.
  induction ms as [|m ms IH]; intros d; cbn [fold_left].
  - split; [intros H; split; [exact H|intros m []]|tauto].
  - rewrite IH. destruct (has_nested (Py.strip (group 2 m))) eqn:Hn.
    + split.
      * intros [Hd H]. split; [lia|]. intros m' [<-|Hin] Hm'; [lia|auto].
      * intros [Hd H]. split.
        -- pose proof (H m (or_introl eq_refl) Hn). lia.
        -- intros m' Hin. apply H. now right.
    + split.
      * intros [Hd H]. split; [exact Hd|].
        intros m' [<-|Hin] Hm'; [congruence|auto].
      * intros [Hd H]. split; [exact Hd|]. intros m' Hin. apply H. now right.
Qed.

(** The function returns exactly when it is allowed as many nested calls
    as it makes. *)
Lemma parse_fuel_depth :
  forall fuel limit content,
    length content < fuel ->
    (depth_fuel fuel content <= limit
     <-> exists node, parse_fuel limit content = Some node).
Proof.
  induction fuel as [|n IH]; intros limit content Hlen; [lia|].
  cbn [depth_fuel]. destruct limit as [|l].
  - cbn [parse_fuel]. split; [lia|intros (v & Hv); discriminate].
  - cbn [parse_fuel].
    destruct (finditer (tag_pattern true) content) as [|m ms] eqn:Hms.
    + cbn [fold_left]. split; [eauto|lia].
    + rewrite <- Nat.succ_le_mono. rewrite fold_depth_le.
      assert (Hf : (exists node,
                     match fold_left (tag_step (parse_fuel l)) (m :: ms) (Some [])
                     with
                     | Some result =>
                         Some (VDict
                                 (if nonempty (remaining_text content)
                                  then Dict.set (py "instructions")
                                         (VStr (remaining_text content)) result
                                  else result))
                     | None => None
                     end = Some node)
                   <-> exists result,
                       fold_left (tag_step (parse_fuel l)) (m :: ms) (Some [])
                       = Some result).
      { destruct (fold_left _ _ _); split; eauto.
        - intros (v & Hv). discriminate.
        - intros (v & Hv). discriminate. }
      cbv zeta. rewrite Hf. rewrite fold_tag_step_some.
      split.
      * intros [_ H] m' Hin Hn. apply (H m' Hin) in Hn.
        apply IH in Hn.
        -- destruct Hn as (v & ->). discriminate.
        -- rewrite <- Hms in Hin. apply tag_body_shorter in Hin. lia.
      * intros H. split; [lia|]. intros m' Hin Hn. apply IH.
        -- rewrite <- Hms in Hin. apply tag_body_shorter in Hin. lia.
        -- specialize (H m' Hin Hn).
           destruct (parse_fuel l (Py.strip (group 2 m'))); [eauto|congruence].
Qed.

Lemma depth_fuel_bounds fuel content :
  depth_fuel fuel content <= fuel /\ (0 < fuel -> 1 <= depth_fuel fuel content).
Proof.
  revert content. induction fuel as [|n IH]; intros content; [cbn; lia|].
  split; [|cbn [depth_fuel]; lia]. cbn [depth_fuel].
  rewrite <- Nat.succ_le_mono. apply fold_depth_le. split; [lia|].
  intros m _ _. apply IH.
Qed.

(** What the function returns with a bounded depth it returns with depth
    to spare. *)
Lemma parse_fuel_unlimited limit content node :
  parse_fuel limit content = Some node ->
  parse_xml_to_yaml content = Some node.
Proof.
  intros H. rewrite <- (parse_fuel_stable (Nat.max limit (S (length content)))).
  - apply (parse_fuel_mono limit); [lia|exact H].
  - lia.
Qed.

End Facts.
End DepthFacts.

Module TagMore.
Import Re ReFacts Convert ConvertMain Depth PyFacts DictFacts ParseFacts TagFacts CleanerMore ReMore.

Section Facts.
Context {U : Unicode}.

Lemma tag_text_app name body post :
  tag_text name body ++ post =
  ch "<" :: name ++ ch ">" :: body ++ ch "<" :: ch "/" :: name
    ++ ch ">" :: post.
Proof.
  unfold tag_text. cbn [app]. repeat (rewrite <- app_assoc; cbn [app]).
  reflexivity.
Qed.

Lemma tag_match ic bos (name body post : str) :
  name <> [] -> forallb (noneof "/>") name = true ->
  Py.has_char (ch "<") body = false ->
  match_at (tag_pattern ic) bos (tag_text name body ++ post) =
  Some {| whole := tag_text name body;
          groups := [(2, body); (1, name)] |}.
Proof.
  intros Hne Hname Hbody. unfold match_at.
  set (l2 := ch "<" :: ch "/" :: name ++ ch ">" :: post).
  set (l1 := ch ">" :: body ++ l2).
  assert (Hr : mrun (tag_pattern ic) empty bos (tag_text name body ++ post)
               = Some (post, close_group 2 l2
                               (open_group 2 (body ++ l2)
                                  (close_group 1 l1
                                     (open_group 1 (name ++ l1) empty))))).
  { rewrite tag_text_app. fold l2. fold l1.
    unfold tag_pattern. cbn [mrun]. unfold lit at 1. rewrite N.eqb_refl.
    apply greedy_run; [exact Hname|reflexivity| |].
    { destruct name; [congruence|cbn [length]; lia]. }
    unfold l1 at 1. unfold lit at 1. rewrite N.eqb_refl.
    apply lazy_first.
    - apply forallb_forall. reflexivity.
    - intros b x y Hxy Hy. destruct y as [|c y]; [congruence|].
      cbn [app]. replace (lit "<" c) with false; [reflexivity|].
      symmetry. rewrite Hxy in Hbody. unfold Py.has_char in Hbody.
      rewrite existsb_app in Hbody. cbn [existsb] in Hbody.
      apply orb_false_elim in Hbody. destruct Hbody as [_ Hb].
      apply orb_false_elim in Hb. destruct Hb as [Hb _].
      unfold lit. now rewrite N.eqb_sym.
    - unfold l2 at 1. unfold lit at 1 2. rewrite !N.eqb_refl.
      unfold close_group at 1. cbn [open_group opened lookup Nat.eqb closed].
      unfold close_group at 1.
      cbn [open_group opened lookup Nat.eqb closed empty].
      rewrite firstn_app_exact, after_prefix_refl. unfold lit. rewrite N.eqb_refl.
      reflexivity. }
  rewrite Hr. f_equal. f_equal.
  - apply firstn_app_exact.
  - unfold close_group, open_group.
    cbn [opened lookup Nat.eqb closed empty].
    unfold l1. rewrite !firstn_app_exact.
    change (ch ">" :: body ++ l2) with ((ch ">" :: body) ++ l2).
    reflexivity.
Qed.

Lemma scan_prefix_no_first its p (pre rest : str) :
  forall bos, forallb (fun c => negb (p c)) pre = true ->
  scan (Chr p Once :: its) 0 bos (pre ++ rest)
  = map inl pre ++ scan (Chr p Once :: its) 0 (bos && is_nil pre) rest.
Proof.
  induction pre as [|c t IH]; intros bos H.
  - cbn [app map is_nil]. now rewrite andb_true_r.
  - cbn [forallb] in H. apply andb_prop in H. destruct H as [Hc Ht].
    apply negb_true_iff in Hc.
    cbn [app scan map]. unfold match_at at 1. cbn [mrun]. rewrite Hc.
    rewrite (IH false Ht). cbn [is_nil]. now rewrite andb_false_r.
Qed.

(** The scan at a position where the pattern matches a non-empty text. *)
Lemma scan_match its bos (l post : str) m :
  match_at its bos l = Some m -> l = whole m ++ post -> whole m <> [] ->
  scan its 0 bos l = inr m :: scan its 0 false post.
Proof.
  intros Hm Hl Hne. destruct (whole m) as [|c w] eqn:Hw; [congruence|].
  rewrite Hl. cbn [app scan]. cbn [app] in Hl. rewrite <- Hl, Hm, Hw.
  cbn [length]. f_equal. rewrite scan_skip by (rewrite length_app; lia).
  now rewrite skipn_app, skipn_all, Nat.sub_diag.
Qed.

Lemma tag_scan ic (pre name body post : str) :
  Py.has_char (ch "<") pre = false ->
  name <> [] -> forallb (noneof "/>") name = true ->
  Py.has_char (ch "<") body = false ->
  Py.has_char (ch "<") post = false ->
  scan (tag_pattern ic) 0 true (pre ++ tag_text name body ++ post)
  = map inl pre
    ++ inr {| whole := tag_text name body; groups := [(2, body); (1, name)] |}
    :: map inl post.
Proof.
  intros Hpre Hne Hname Hbody Hpost. unfold tag_pattern at 1.
  rewrite scan_prefix_no_first by now apply no_char_class.
  f_equal. fold (tag_pattern ic).
  rewrite (scan_match (tag_pattern ic) _ _ post _
             (tag_match ic _ name body post Hne Hname Hbody));
    [|reflexivity|discriminate].
  f_equal. unfold tag_pattern. apply scan_no_first.
  now apply no_char_class.
Qed.

Lemma flat_map_inl (A B : Type) (f : B -> list A) (l : list A) :
  flat_map (fun x : A + B => match x with inl c => [c] | inr m => f m end)
           (map inl l) = l.
Proof. induction l as [|c t IH]; [reflexivity|]. cbn. now rewrite IH. Qed.

Lemma flat_map_inl_nil (A B C : Type) (f : B -> list C) (l : list A) :
  flat_map (fun x : A + B => match x with inl _ => [] | inr m => f m end)
           (map inl l) = [].
Proof. induction l as [|c t IH]; [reflexivity|exact IH]. Qed.

Lemma strip_no_char c (l : str) :
  Py.has_char c l = false -> Py.has_char c (Py.strip l) = false.
Proof.
  intros H. unfold Py.strip.
  destruct (lstrip_split l) as (w & Hl & _).
  destruct (rstrip_split (Py.lstrip l)) as (w' & Hl' & _).
  rewrite Hl, Hl' in H. unfold Py.has_char in *.
  rewrite !existsb_app in H. apply orb_false_elim in H.
  destruct H as [_ H]. now apply orb_false_elim in H.
Qed.

(** A text without an opening angle bracket holds no nested tag. *)
Lemma no_angle_no_nested (l : str) :
  Py.has_char (ch "<") l = false -> has_nested l = false.
Proof.
  intros H. unfold has_nested, search, nested_pattern.
  rewrite finditer_no_first by now apply no_char_class. reflexivity.
Qed.

(** One flat tag pair with text around it. *)
Lemma flat_tag_parse (pre name body post : str) :
  Py.has_char (ch "<") pre = false ->
  name <> [] -> forallb (noneof "/>") name = true ->
  Py.has_char (ch "<") body = false ->
  Py.has_char (ch "[") body = false ->
  Py.has_char (ch "<") post = false ->
  parse_xml_to_yaml (pre ++ tag_text name body ++ post)
  = Some (VDict
      (let entry := [(clean_tag name, VStr (clean_text (Py.strip body)))] in
       let remaining :=
         clean_text (Py.strip (sub rule_pattern [] (Py.strip (pre ++ post)))) in
       if nonempty remaining
       then Dict.set (py "instructions") (VStr remaining) entry
       else entry)).
Proof.
  intros Hpre Hne Hname Hbody Hbr Hpost.
  rewrite parse_xml_to_yaml_eq. unfold finditer.
  rewrite (tag_scan true) by assumption.
  rewrite flat_map_app, flat_map_inl_nil. cbn [flat_map app].
  rewrite flat_map_inl_nil. cbn [fold_left].
  unfold tag_step, tag_value, group. cbn [groups lookup Nat.eqb].
  rewrite no_angle_no_nested by now apply strip_no_char.
  rewrite (strip_no_char _ _ Hbr). cbn [andb Dict.set].
  assert (Hsub : sub (tag_pattern false) []
                   (pre ++ tag_text name body ++ post) = pre ++ post).
  { unfold sub, sub_with. rewrite (tag_scan false) by assumption.
    rewrite flat_map_app, flat_map_inl. cbn [flat_map app].
    now rewrite flat_map_inl. }
  unfold remaining_text. rewrite Hsub. reflexivity.
Qed.

(** X7.  A text with one flat tag pair and no other opening angle bracket
    parses to a mapping with the normalized name as key and the cleaned,
    trimmed body as value; text around the pair, if any is left once runs
    of dashes are removed and the text is cleaned, is stored under
    [instructions]. *)
Theorem one_tag_parse (pre name body post : str) :
  Py.has_char (ch "<") pre = false ->
  name <> [] -> forallb (noneof "/>") name = true ->
  Py.has_char (ch "<") body = false ->
  Py.has_char (ch "[") body = false ->
  Py.has_char (ch "<") post = false ->
  parse_xml_to_yaml (pre ++ tag_text name body ++ post)
  = Some (VDict
      (let entry := [(clean_tag name, VStr (clean_text (Py.strip body)))] in
       let remaining :=
         clean_text (Py.strip (sub rule_pattern [] (Py.strip (pre ++ post)))) in
       if nonempty remaining
       then Dict.set (py "instructions") (VStr remaining) entry
       else entry)).
Proof. apply flat_tag_parse. Qed.

Lemma set_nonempty (V : Type) k (v : V) d : Dict.set k v d <> [].
Proof. destruct d as [|[k' v'] r]; cbn; [|destruct (str_eqb k k')]; discriminate. Qed.

(** What the function returns is a mapping with at least one key. *)
Lemma parse_mapping (content : str) (node : pyval) :
  parse_xml_to_yaml content = Some node ->
  exists d, node = VDict d /\ d <> [].
Proof.
  intros Hp. rewrite parse_xml_to_yaml_eq in Hp.
  destruct (finditer (tag_pattern true) content) as [|m ms].
  - injection Hp as <-. unfold untagged.
    destruct (_ && _); [destruct (parse_scratchpad_sections content)|];
      eexists; (split; [reflexivity|discriminate]).
  - destruct (loop_last_wins (m :: ms) [] (NoDup_nil _))
      as (result & Hf & Hnd & Hget).
    rewrite Hf in Hp. cbv zeta in Hp. injection Hp as <-.
    eexists. split; [reflexivity|].
    destruct (nonempty (remaining_text content)); [apply set_nonempty|].
    intros ->.
    specialize (Hget (key_of m)). rewrite last_with_cons in Hget.
    cbn [Dict.get] in Hget.
    destruct (last_with (key_of m) ms) as [x|].
    + destruct (value_of_total x) as (v & Hv). congruence.
    + rewrite str_eqb_refl in Hget.
      destruct (value_of_total m) as (v & Hv). congruence.
Qed.

(** X8.  Allowed as many nested calls as the text needs,
    [parse_xml_to_yaml] returns, and what it returns is a mapping with at
    least one key. *)
Theorem parse_returns_mapping (limit : nat) (content : str) :
  call_depth content <= limit ->
  exists d, parse_fuel limit content = Some (VDict d) /\ d <> [].
Proof.
  intros Hd. unfold call_depth in Hd.
  apply DepthFacts.parse_fuel_depth in Hd; [|lia].
  destruct Hd as (node & Hp).
  destruct (parse_mapping content node) as (d & -> & Hne).
  - now apply DepthFacts.parse_fuel_unlimited in Hp.
  - eauto.
Qed.

(** X9.  A text without an opening angle bracket has no tags: it parses
    to its section labels and the cleaned text under [raw_format] when it
    has bracketed sections, and to the cleaned text under [content] when
    it has none. *)
Theorem tag_free_parse (content : str) :
  Py.has_char (ch "<") content = false ->
  parse_xml_to_yaml content
  = Some (match parse_scratchpad_sections content with
          | [] => VDict [(py "content", VStr (clean_text content))]
          | sections =>
              VDict [(py "sections", VList (map VStr sections));
                     (py "raw_format", VStr (clean_text content))]
          end).
Proof.
  intros H. rewrite parse_xml_to_yaml_eq. unfold tag_pattern.
  rewrite finditer_no_first by now apply no_char_class.
  unfold untagged.
  destruct (parse_scratchpad_sections content) as [|label r] eqn:Hs.
  - now destruct (_ && _).
  - destruct (SectionMore.section_label_found content label)
      as (p & raw & body & rest & Hc & _); [rewrite Hs; now left|].
    assert (Hb : Py.has_char (ch "[") content && Py.has_char (ch "]") content
                 = true).
    { rewrite Hc. unfold Py.has_char.
      repeat (rewrite ?existsb_app; cbn [existsb]).
      rewrite !N.eqb_refl. cbn [orb]. now rewrite !orb_true_r. }
    now rewrite Hb.
Qed.

End Facts.

Section Examples.
#[local] Existing Instance ascii_unicode.

Lemma one_tag_parse_witness :
  parse_xml_to_yaml (py "Be kind. " ++ tag_text (py "My Role") (py " Helper ")
                       ++ py " ---")
  = Some (VDict [(py "my_role", VStr (py "Helper"));
                 (py "instructions", VStr (py "Be kind."))]).
Proof.
  rewrite (one_tag_parse (py "Be kind. ") (py "My Role") (py " Helper ")
             (py " ---"));
    [reflexivity|reflexivity|discriminate|reflexivity|reflexivity
    |reflexivity|reflexivity].
Defined.

Lemma parse_returns_mapping_witness :
  call_depth (py "<a><b>x</b></a>") <= 2
  /\ exists d, parse_fuel 2 (py "<a><b>x</b></a>") = Some (VDict d)
               /\ d <> [].
Proof.
  assert (H : call_depth (py "<a><b>x</b></a>") <= 2)
    by (vm_compute; lia).
  split; [exact H|].
  apply (parse_returns_mapping 2 (py "<a><b>x</b></a>") H).
Defined.

Lemma tag_free_parse_witness :
  Py.has_char (ch "<") (py "[Goal: think] then act") = false
  /\ parse_xml_to_yaml (py "[Goal: think] then act")
     = Some (VDict [(py "sections", VList [VStr (py "Goal")]);
                    (py "raw_format", VStr (py "[Goal: think] then act"))]).
Proof.
  split; [reflexivity|].
  rewrite (tag_free_parse (py "[Goal: think] then act")); reflexivity.
Defined.

End Examples.
End TagMore.

(** ** A tag inside a tag *)

Module NestedMore.
Import Re ReFacts Convert ConvertMain Depth PyFacts DictFacts ParseFacts TagFacts
  DepthFacts
  CleanerMore ReMore TagMore.

Section Facts.
Context {U : Unicode}.

Lemma group1_kept (l0 t name l1 : str) :
  lookup 1 (closed (close_group 2 l0
                      (open_group 2 t
                         (close_group 1 l1
                            (open_group 1 (name ++ l1) empty)))))
  = Some name.
Proof.
  unfold close_group, open_group. cbn [opened closed lookup Nat.eqb empty].
  now rewrite firstn_app_exact.
Qed.

(** A tag pair matches as a whole when no closing tag for its name begins
    inside the body. *)
Lemma tag_match_when ic bos (name body post : str) :
  name <> [] -> forallb (noneof "/>") name = true ->
  (forall x y, body = x ++ y -> y <> [] ->
     tag_closes ic name (y ++ ch "<" :: ch "/" :: name ++ ch ">" :: post)
     = false) ->
  match_at (tag_pattern ic) bos (tag_text name body ++ post) =
  Some {| whole := tag_text name body;
          groups := [(2, body); (1, name)] |}.
Proof.
  intros Hne Hname Hbody. unfold match_at.
  set (l2 := ch "<" :: ch "/" :: name ++ ch ">" :: post).
  set (l1 := ch ">" :: body ++ l2).
  assert (Hr : mrun (tag_pattern ic) empty bos (tag_text name body ++ post)
               = Some (post, close_group 2 l2
                               (open_group 2 (body ++ l2)
                                  (close_group 1 l1
                                     (open_group 1 (name ++ l1) empty))))).
  { rewrite tag_text_app. fold l2. fold l1.
    unfold tag_pattern. cbn [mrun]. unfold lit at 1. rewrite N.eqb_refl.
    apply greedy_run; [exact Hname|reflexivity| |].
    { destruct name; [congruence|cbn [length]; lia]. }
    unfold l1 at 1. unfold lit at 1. rewrite N.eqb_refl.
    apply lazy_first.
    - apply forallb_forall. reflexivity.
    - intros b x y Hxy Hy. specialize (Hbody x y Hxy Hy). fold l2 in Hbody.
      destruct (y ++ l2) as [|c0 [|c1 t1]]; [reflexivity| |].
      + now destruct (lit "<" c0).
      + rewrite group1_kept. unfold tag_closes in Hbody.
        destruct (lit "<" c0); [|reflexivity].
        destruct (lit "/" c1); [|reflexivity]. cbn [andb] in Hbody.
        destruct (after_prefix ic name t1) as [[|c2 t2]|]; try reflexivity.
        now rewrite Hbody.
    - unfold l2 at 1. unfold lit at 1 2. rewrite !N.eqb_refl.
      rewrite group1_kept, after_prefix_refl. unfold lit.
      rewrite N.eqb_refl. reflexivity. }
  rewrite Hr. f_equal. f_equal.
  - apply firstn_app_exact.
  - unfold close_group, open_group.
    cbn [opened lookup Nat.eqb closed empty].
    unfold l1. rewrite !firstn_app_exact.
    change (ch ">" :: body ++ l2) with ((ch ">" :: body) ++ l2).
    reflexivity.
Qed.

Lemma suffix_app (A B x y : str) :
  x ++ y = A ++ B -> y <> [] ->
  (exists x1 y1, A = x1 ++ y1 /\ y1 <> [] /\ y = y1 ++ B)
  \/ (exists x2, B = x2 ++ y).
Proof.
  intros H Hy. apply app_eq_app in H. destruct H as (l & [[-> ->]|[-> ->]]).
  - right. now exists l.
  - destruct l as [|c l].
    + right. now exists [].
    + left. exists x, (c :: l). repeat split. discriminate.
Qed.

(** No closing tag begins at a character that is no opening angle
    bracket, nor at one that no slash follows. *)
Lemma no_close_first ic name (l R : str) :
  forallb (fun c => negb (lit "<" c)) l = true ->
  forall x y, l = x ++ y -> y <> [] -> tag_closes ic name (y ++ R) = false.
Proof.
  intros Hl x y -> Hy. destruct y as [|c y]; [congruence|].
  rewrite forallb_app in Hl. apply andb_prop in Hl. destruct Hl as [_ Hl].
  cbn [forallb] in Hl. apply andb_prop in Hl. destruct Hl as [Hc _].
  apply negb_true_iff in Hc. unfold tag_closes. cbn [app].
  destruct (y ++ R); [reflexivity|]. now rewrite Hc.
Qed.

Lemma no_close_second ic name (l R : str) :
  forallb (fun c => negb (lit "/" c)) l = true ->
  match R with c :: _ => lit "/" c = false | [] => True end ->
  forall x y, l = x ++ y -> y <> [] -> tag_closes ic name (y ++ R) = false.
Proof.
  intros Hl HR x y -> Hy. destruct y as [|c y]; [congruence|].
  rewrite forallb_app in Hl. apply andb_prop in Hl. destruct Hl as [_ Hl].
  cbn [forallb] in Hl. apply andb_prop in Hl. destruct Hl as [_ Hl].
  unfold tag_closes. cbn [app].
  destruct y as [|c1 y]; cbn [app].
  - destruct R as [|c1 R]; [reflexivity|]. rewrite HR.
    now rewrite andb_false_r.
  - cbn [forallb] in Hl. apply andb_prop in Hl. destruct Hl as [Hc1 _].
    apply negb_true_iff in Hc1. rewrite Hc1. now rewrite andb_false_r.
Qed.

Lemma after_prefix_case (g l t : str) :
  after_prefix false g l = Some t -> after_prefix true g l = Some t.
Proof.
  revert l. induction g as [|a g IH]; intros l H; [exact H|].
  destruct l as [|b l]; [discriminate|]. cbn [after_prefix] in *.
  destruct (N.eqb_spec a b) as [->|]; [|discriminate].
  rewrite N.eqb_refl. auto.
Qed.

Lemma name_no_slash (name : str) :
  forallb (noneof "/>") name = true ->
  forallb (fun c => negb (lit "/" c)) name = true
  /\ forallb (noneof ">") name = true.
Proof.
  induction name as [|c t IH]; [now split|]. cbn [forallb]. intros H.
  apply andb_prop in H. destruct H as [Hc Ht]. destruct (IH Ht) as [I1 I2].
  rewrite I1, I2, !andb_true_r. unfold noneof, oneof, lit in *.
  cbn [py list_ascii_of_string map existsb] in *.
  rewrite orb_false_r in *. apply negb_true_iff in Hc.
  apply orb_false_elim in Hc. destruct Hc as [H1 H2].
  now rewrite H1, H2.
Qed.


Lemma tag_closes_case (name l : str) :
  tag_closes true name l = false -> tag_closes false name l = false.
Proof.
  unfold tag_closes. destruct l as [|c0 [|c1 t]]; try reflexivity.
  destruct (lit "<" c0 && lit "/" c1); [cbn [andb]|reflexivity].
  destruct (after_prefix false name t) as [t'|] eqn:E; [|reflexivity].
  apply after_prefix_case in E. now rewrite E.
Qed.

(** [sealed ic outer body]: no closing tag for [outer] begins inside
    [body], whatever text with an opening angle bracket first follows. *)
Local Abbreviation sealed ic outer body :=
  (forall (R x y : str), body = x ++ y -> y <> [] ->
     tag_closes ic outer (y ++ ch "<" :: R) = false).

Lemma sealed_plain ic (outer body : str) :
  Py.has_char (ch "<") body = false -> sealed ic outer body.
Proof.
  intros Hbody R x y Hxy Hy.
  apply (no_close_first ic outer body _) with (x := x); auto.
  now apply no_char_class.
Qed.

(** A tag pair is sealed for [outer] when its body is and its own closing
    tag is none for [outer]. *)
Lemma sealed_tag ic (outer inner body : str) :
  inner <> [] -> forallb (noneof "/>") inner = true ->
  sealed ic outer body ->
  (forall rest,
     tag_closes ic outer (ch "<" :: ch "/" :: inner ++ ch ">" :: rest) = false) ->
  sealed ic outer (tag_text inner body).
Proof.
  intros Hne Hname Hbody Hclose R x y Hxy Hy.
  destruct (name_no_slash inner Hname) as [Hslash _].
  assert (Hsplit : tag_text inner body
                   = (ch "<" :: inner)
                     ++ [ch ">"] ++ body
                     ++ [ch "<"] ++ [ch "/"] ++ (inner ++ [ch ">"])).
  { unfold tag_text. cbn [app]. rewrite <- ?app_assoc. reflexivity. }
  rewrite Hsplit in Hxy. symmetry in Hxy.
  destruct (suffix_app _ _ _ _ Hxy Hy) as [(x1 & y1 & H1 & Hy1 & ->)|(x2 & H2)].
  { rewrite <- !app_assoc.
    apply (no_close_second ic outer (ch "<" :: inner) _) with (x := x1);
      [cbn [forallb]; now rewrite Hslash|reflexivity|exact H1|exact Hy1]. }
  symmetry in H2.
  destruct (suffix_app _ _ _ _ H2 Hy) as [(x1 & y1 & H1 & Hy1 & ->)|(x3 & H3)].
  { rewrite <- !app_assoc.
    apply (no_close_first ic outer [ch ">"] _) with (x := x1);
      [reflexivity|exact H1|exact Hy1]. }
  symmetry in H3.
  destruct (suffix_app _ _ _ _ H3 Hy) as [(x1 & y1 & H1 & Hy1 & ->)|(x4 & H4)].
  { rewrite <- !app_assoc. cbn [app].
    apply (Hbody _ x1 y1 H1 Hy1). }
  symmetry in H4.
  destruct (suffix_app _ _ _ _ H4 Hy) as [(x1 & y1 & H1 & Hy1 & ->)|(x5 & H5)].
  { destruct x1 as [|a x1].
    - cbn [app] in H1. subst y1. cbn [app].
      rewrite <- app_assoc. cbn [app]. apply Hclose.
    - destruct x1; destruct y1; try congruence; discriminate H1. }
  symmetry in H5.
  destruct (suffix_app _ _ _ _ H5 Hy) as [(x1 & y1 & H1 & Hy1 & ->)|(x6 & H6)].
  { rewrite <- app_assoc.
    apply (no_close_first ic outer [ch "/"] _) with (x := x1);
      [reflexivity|exact H1|exact Hy1]. }
  apply (no_close_second ic outer (inner ++ [ch ">"]) _) with (x := x6);
    [|reflexivity|exact H6|exact Hy].
  rewrite forallb_app, Hslash. reflexivity.
Qed.

(** The lazy repetition finds a match when the rest of the pattern
    matches somewhere behind a run of the class. *)
Lemma lazy_some (R : Type) p (k : bool -> str -> option R) (pre : str) :
  (forall b1 b2 l, k b1 l = k b2 l) ->
  forallb p pre = true ->
  forall bos post r,
    k bos post = Some r ->
    exists r', lazy_rep p k 0 bos (pre ++ post) = Some r'.
Proof.
  intros Hk. induction pre as [|c t IH]; intros Hp bos post r Hr.
  - cbn [app]. destruct post; cbn [lazy_rep]; rewrite Hr; eauto.
  - cbn [forallb] in Hp. apply andb_prop in Hp. destruct Hp as [Hc Ht].
    cbn [app lazy_rep]. destruct (k bos (c :: t ++ post)); [eauto|].
    rewrite Hc. apply (IH Ht false post r). now rewrite (Hk false bos).
Qed.

(** A tag pair is what [has_nested] looks for, whatever its body. *)
Lemma nested_found (name body post : str) :
  name <> [] -> forallb (noneof "/>") name = true ->
  has_nested (tag_text name body ++ post) = true.
Proof.
  intros Hne Hname. destruct (name_no_slash name Hname) as [_ Hgt].
  assert (Hlen : 1 <= length name).
  { destruct name; [congruence|cbn [length]; lia]. }
  assert (Hm : exists m, match_at nested_pattern true
                           (tag_text name body ++ post) = Some m).
  { unfold match_at.
    assert (Hr : exists r, mrun nested_pattern empty true
                             (tag_text name body ++ post) = Some r).
    { rewrite tag_text_app. unfold nested_pattern. cbn [mrun].
      unfold lit at 1. rewrite N.eqb_refl.
      assert (Hl : exists r,
                 lazy_rep any
                   (mrun [Chr (lit "<") Once; Chr (lit "/") Once;
                          Chr (noneof ">") (Greedy 1); Chr (lit ">") Once]
                         empty)
                   0 false
                   (body ++ ch "<" :: ch "/" :: name ++ ch ">" :: post)
                 = Some r).
      { apply lazy_some with (r := (post, empty)).
        - intros b1 b2 l. destruct l; reflexivity.
        - apply forallb_forall. reflexivity.
        - cbn [mrun]. unfold lit at 1 2. rewrite !N.eqb_refl.
          apply greedy_run; [exact Hgt|reflexivity|exact Hlen|].
          cbn [mrun]. unfold lit. rewrite N.eqb_refl. reflexivity. }
      destruct Hl as (r & Hl). exists r.
      apply greedy_run; [exact Hname|reflexivity|exact Hlen|].
      cbn [mrun]. unfold lit at 1. rewrite N.eqb_refl. exact Hl. }
    destruct Hr as ([rest st] & ->). eauto. }
  destruct Hm as (m & Hm). unfold has_nested, search, finditer.
  unfold tag_text in *. cbn [app scan] in *. rewrite Hm.
  now destruct (length (whole m)).
Qed.

Lemma rstrip_last (l : str) (c : char) :
  Py.isspace c = false -> Py.rstrip (l ++ [c]) = l ++ [c].
Proof.
  intros Hc. unfold Py.rstrip. rewrite rev_app_distr. cbn [rev app Py.lstrip].
  rewrite Hc. cbn [rev]. now rewrite rev_involutive.
Qed.

Lemma strip_tag_text (name body : str) :
  Py.strip (tag_text name body) = tag_text name body.
Proof.
  unfold Py.strip, tag_text. cbn [Py.lstrip].
  change (Py.isspace (ch "<")) with false. cbv iota.
  change (ch "<" :: name ++ ch ">" :: body ++ ch "<" :: ch "/" :: name
            ++ [ch ">"])
    with ((ch "<" :: name) ++ (ch ">" :: body)
            ++ (ch "<" :: ch "/" :: name) ++ [ch ">"]).
  rewrite !app_assoc. now apply rstrip_last.
Qed.

(** One tag pair alone, sealed for its name: the scan finds it, whole. *)
Lemma tag_alone_scan ic (name body : str) :
  name <> [] -> forallb (noneof "/>") name = true ->
  sealed ic name body ->
  scan (tag_pattern ic) 0 true (tag_text name body)
  = [inr {| whole := tag_text name body;
            groups := [(2, body); (1, name)] |}].
Proof.
  intros Hne Hname Hbody.
  pose proof (tag_match_when ic true name body [] Hne Hname
                (fun x y Hxy Hy => Hbody _ x y Hxy Hy)) as H.
  rewrite app_nil_r in H.
  rewrite (scan_match _ _ _ [] _ H);
    [|now rewrite app_nil_r|discriminate].
  reflexivity.
Qed.

(** A flat tag pair inside a tag pair. *)
Lemma tag_in_tag_parse (outer inner body : str) :
  outer <> [] -> forallb (noneof "/>") outer = true ->
  inner <> [] -> forallb (noneof "/>") inner = true ->
  Py.has_char (ch "<") body = false ->
  Py.has_char (ch "[") body = false ->
  (forall rest,
     tag_closes true outer (ch "<" :: ch "/" :: inner ++ ch ">" :: rest)
     = false) ->
  parse_xml_to_yaml (tag_text outer (tag_text inner body))
  = Some (VDict
            [(clean_tag outer,
              VDict [(clean_tag inner, VStr (clean_text (Py.strip body)))])]).
Proof.
  intros Ho Houter Hi Hinner Hbody Hbr Hclose.
  set (mid := tag_text inner body).
  assert (Hm : forall ic,
             scan (tag_pattern ic) 0 true (tag_text outer mid)
             = [inr {| whole := tag_text outer mid;
                       groups := [(2, mid); (1, outer)] |}]).
  { intros ic. apply tag_alone_scan; auto.
    apply sealed_tag; auto.
    - now apply sealed_plain.
    - intros rest. destruct ic; [apply Hclose|].
      apply tag_closes_case, Hclose. }
  rewrite parse_xml_to_yaml_eq. unfold finditer. rewrite Hm.
  cbn [flat_map app fold_left].
  unfold tag_step, tag_value, group. cbn [groups lookup Nat.eqb].
  unfold mid at 1 2. rewrite strip_tag_text.
  rewrite <- (app_nil_r (tag_text inner body)) at 1.
  rewrite nested_found by assumption.
  change (tag_text inner body) with ([] ++ tag_text inner body) at 1.
  rewrite <- (app_nil_r (tag_text inner body)) at 1.
  rewrite flat_tag_parse by (assumption || reflexivity).
  cbn [Dict.set].
  unfold remaining_text, sub, sub_with. rewrite Hm.
  reflexivity.
Qed.

(** The text needs two nested calls. *)
Lemma tag_in_tag_depth (outer inner body : str) :
  outer <> [] -> forallb (noneof "/>") outer = true ->
  inner <> [] -> forallb (noneof "/>") inner = true ->
  Py.has_char (ch "<") body = false ->
  (forall rest,
     tag_closes true outer (ch "<" :: ch "/" :: inner ++ ch ">" :: rest)
     = false) ->
  call_depth (tag_text outer (tag_text inner body)) = 2.
Proof.
  intros Ho Houter Hi Hinner Hbody Hclose.
  set (mid := tag_text inner body).
  assert (Hm : scan (tag_pattern true) 0 true (tag_text outer mid)
             = [inr {| whole := tag_text outer mid;
                       groups := [(2, mid); (1, outer)] |}]).
  { apply tag_alone_scan; auto.
    apply sealed_tag; auto. now apply sealed_plain. }
  unfold call_depth.
  assert (Hl : exists n, length (tag_text outer mid) = S n).
  { unfold tag_text. cbn [app length]. eauto. }
  destruct Hl as (n & ->).
  cbn [depth_fuel]. unfold finditer. rewrite Hm.
  cbn [flat_map app fold_left]. unfold group. cbn [groups lookup Nat.eqb].
  unfold mid at 1 2. rewrite strip_tag_text.
  rewrite <- (app_nil_r (tag_text inner body)) at 1.
  rewrite nested_found by assumption.
  rewrite (tag_alone_scan true inner body); auto;
    [|now apply sealed_plain].
  cbn [flat_map app fold_left]. unfold group. cbn [groups lookup Nat.eqb].
  rewrite no_angle_no_nested by now apply strip_no_char.
  reflexivity.
Qed.

(** X10.  A flat tag pair inside a tag pair and nothing around them.
    Both names are non-empty and hold no slash and no closing angle
    bracket, the body holds no opening angle bracket and no opening
    square bracket, and the closing tag of the inner pair is not accepted
    as closing tag of the outer pair by the back-reference of the
    pattern, which ignores case.  With two or more nested calls allowed
    the text parses to a mapping inside a mapping, the outer key to the
    inner key to the cleaned, trimmed body; with fewer the function does
    not return. *)
Theorem nested_tag_parse (outer inner body : str) (limit : nat) :
  outer <> [] -> forallb (noneof "/>") outer = true ->
  inner <> [] -> forallb (noneof "/>") inner = true ->
  Py.has_char (ch "<") body = false ->
  Py.has_char (ch "[") body = false ->
  (forall rest,
     tag_closes true outer (ch "<" :: ch "/" :: inner ++ ch ">" :: rest)
     = false) ->
  parse_fuel limit (tag_text outer (tag_text inner body))
  = if 2 <=? limit
    then Some (VDict
                 [(clean_tag outer,
                   VDict [(clean_tag inner,
                           VStr (clean_text (Py.strip body)))])])
    else None.
Proof.
  intros Ho Houter Hi Hinner Hbody Hbr Hclose.
  pose proof (tag_in_tag_depth outer inner body Ho Houter Hi Hinner Hbody
                Hclose) as Hd.
  pose proof (parse_fuel_depth
                (S (length (tag_text outer (tag_text inner body)))) limit
                (tag_text outer (tag_text inner body))
                (Nat.lt_succ_diag_r _)) as Hiff.
  fold (call_depth (tag_text outer (tag_text inner body))) in Hiff.
  rewrite Hd in Hiff.
  destruct (2 <=? limit) eqn:Hl.
  - apply Nat.leb_le in Hl. apply Hiff in Hl. destruct Hl as (node & Hn).
    rewrite Hn. f_equal. apply parse_fuel_unlimited in Hn.
    rewrite tag_in_tag_parse in Hn by assumption. now injection Hn.
  - destruct (parse_fuel limit (tag_text outer (tag_text inner body)))
      as [node|] eqn:Hn; [|reflexivity].
    apply Nat.leb_gt in Hl.
    assert (H2 : 2 <= limit) by (apply Hiff; eauto). lia.
Qed.

End Facts.

Section Examples.
#[local] Existing Instance ascii_unicode.

(** The outer name may begin the inner name. *)
Lemma nested_tag_parse_witness :
  parse_fuel 2
    (tag_text (py "Example") (tag_text (py "example_input") (py " 2 + 2 ")))
  = Some (VDict [(py "example",
                  VDict [(py "example_input", VStr (py "2 + 2"))])]).
Proof.
  rewrite (nested_tag_parse (py "Example") (py "example_input")
             (py " 2 + 2 ") 2);
    [reflexivity|discriminate|reflexivity|discriminate|reflexivity
    |reflexivity|reflexivity|].
  intros rest. reflexivity.
Defined.

End Examples.
End NestedMore.

(** ** More on [convert_framework] and the loop of its [main] *)

Module ConvertMore.
Import Re ReFacts Convert ConvertMain PyFacts DictFacts ParseFacts TagFacts
  RemediateFacts ReMore TagMore.

Section Facts.
Context {U : Unicode} {Y : Yaml}.

(** What [convert_data] asks of a document it converts. *)
Lemma convert_data_legacy data data' :
  convert_data data = Returns (Some data') ->
  exists d fw content structure,
    data = VDict d
    /\ Dict.get (py "framework") d = Some (VDict fw)
    /\ Dict.get (py "content") fw = Some (VStr content)
    /\ Dict.has (py "structure") fw = false
    /\ has_nested content
       || Py.has_char (ch "[") content && Py.contains (py "]:") content = true
    /\ parse_xml_to_yaml content = Some structure
    /\ data' =
       VDict (Dict.set (py "framework")
                (VDict (Dict.del (py "content")
                          (Dict.set (py "legacy_content") (VStr content)
                             (Dict.set (py "structure") structure fw)))) d).
Proof.
  intros H. destruct data as [| | | | |d]; try discriminate.
  cbn [convert_data] in H.
  destruct (Dict.get (py "framework") d) as [framework|] eqn:Hfw;
    [|discriminate].
  destruct (py_in (py "content") framework) as [hc|] eqn:Hc;
    cbn [obind] in H; [|discriminate].
  destruct hc; cbn [negb] in H; [|discriminate].
  destruct (py_in (py "structure") framework) as [hs|] eqn:Hs;
    cbn [obind] in H; [|discriminate].
  destruct hs; [discriminate|].
  destruct (py_getitem framework (py "content")) as [content|] eqn:Hg;
    cbn [obind] in H; [|discriminate].
  destruct content as [| | |content| |]; try discriminate.
  destruct framework as [| | | | |fw]; try discriminate.
  cbn [py_in py_getitem] in Hc, Hs, Hg.
  destruct (Dict.get (py "content") fw) as [x|] eqn:Hx; [|discriminate].
  injection Hg as ->. injection Hs as Hs.
  destruct (has_nested content || _) eqn:Hl; cbn [negb] in H; [|discriminate].
  destruct (parse_xml_to_yaml content) as [structure|] eqn:Hp; [|discriminate].
  injection H as <-. exists d, fw, content, structure. auto 10.
Qed.

(** A converted document is not converted again. *)
Lemma convert_data_done data data' :
  convert_data data = Returns (Some data') -> convert_data data' = Returns None.
Proof.
  intros H. apply convert_data_legacy in H.
  destruct H as (d & fw & content & structure & -> & _ & _ & _ & _ & _ & ->).
  cbn [convert_data]. rewrite get_set_same. cbn [py_in obind].
  unfold Dict.has. now rewrite get_del_same.
Qed.

(** X11.  [convert_framework] returns [True] only for a legacy document:
    the file can be read and written, the text loads as a mapping whose
    [framework] entry is a mapping with a text under [content] and no
    [structure], and the content holds a tag pair or a bracketed
    section.  *)
Theorem converts_only_legacy (yaml_file : file) :
  snd (convert_framework yaml_file) = Returns true ->
  exists text d fw content,
    read yaml_file = Returns text
    /\ writable yaml_file = true
    /\ safe_load text = Returns (VDict d)
    /\ Dict.get (py "framework") d = Some (VDict fw)
    /\ Dict.get (py "content") fw = Some (VStr content)
    /\ Dict.has (py "structure") fw = false
    /\ has_nested content
       || Py.has_char (ch "[") content && Py.contains (py "]:") content = true.
Proof.
  unfold convert_framework. intros H.
  destruct (read yaml_file) as [text|] eqn:Hr; cbn [obind] in H;
    [|discriminate].
  destruct (safe_load text) as [data|] eqn:Hd; [|discriminate].
  destruct (convert_data data) as [[data'|]|] eqn:Hc; try discriminate.
  unfold write in H. destruct (writable yaml_file) eqn:Hw; [|discriminate].
  apply convert_data_legacy in Hc.
  destruct Hc as (d & fw & content & structure & -> & H1 & H2 & H3 & H4 & _).
  exists text, d, fw, content. auto 10.
Qed.

(** X13.  A document whose content holds no opening angle bracket and no
    opening square bracket is skipped: [convert_framework] returns [False]
    and the file is as it was. *)
Theorem prose_is_skipped (yaml_file : file) text d fw content :
  read yaml_file = Returns text ->
  safe_load text = Returns (VDict d) ->
  Dict.get (py "framework") d = Some (VDict fw) ->
  Dict.get (py "content") fw = Some (VStr content) ->
  Py.has_char (ch "<") content = false ->
  Py.has_char (ch "[") content = false ->
  convert_framework yaml_file = (yaml_file, Returns false).
Proof.
  intros Hr Hl Hf Hc Ha Hb. unfold convert_framework.
  rewrite Hr. cbn [obind]. rewrite Hl. cbn [convert_data]. rewrite Hf.
  cbn [py_in py_getitem obind]. unfold Dict.has. rewrite Hc. cbn [negb].
  destruct (Dict.get (py "structure") fw); [reflexivity|].
  cbn [obind]. rewrite (no_angle_no_nested content Ha), Hb. reflexivity.
Qed.

(** X14.  A second run on a converted file changes nothing: when
    [convert_framework] has returned [True] and PyYAML loads the text it
    wrote as the document that was dumped, [convert_framework] on the new
    file returns [False] and leaves it as it is. *)
Theorem convert_twice (yaml_file : file) text data data' :
  read yaml_file = Returns text ->
  safe_load text = Returns data ->
  convert_data data = Returns (Some data') ->
  writable yaml_file = true ->
  safe_load (py "---" ++ [NL] ++ dump data') = Returns data' ->
  snd (convert_framework yaml_file) = Returns true
  /\ convert_framework (fst (convert_framework yaml_file))
     = (fst (convert_framework yaml_file), Returns false).
Proof.
  intros Hr Hl Hc Hw Hrt.
  assert (H1 : convert_framework yaml_file
               = ({| path := path yaml_file;
                     read := Returns (py "---" ++ [NL] ++ dump data');
                     writable := true |}, Returns true)).
  { unfold convert_framework. rewrite Hr. cbn [obind]. rewrite Hl, Hc.
    unfold write. now rewrite Hw. }
  rewrite H1. cbn [fst snd]. split; [reflexivity|].
  unfold convert_framework. cbn [read obind]. rewrite Hrt.
  now rewrite (convert_data_done data data' Hc).
Qed.


End Facts.

Section Examples.
Import Samples MoreSamples.
#[local] Existing Instance ascii_unicode.

Lemma converts_only_legacy_witness :
  snd (convert_framework (Y := sample_yaml) legacy_file) = Returns true
  /\ exists text d fw content,
       read legacy_file = Returns text
       /\ writable legacy_file = true
       /\ safe_load (Yaml := sample_yaml) text = Returns (VDict d)
       /\ Dict.get (py "framework") d = Some (VDict fw)
       /\ Dict.get (py "content") fw = Some (VStr content)
       /\ Dict.has (py "structure") fw = false
       /\ has_nested content
          || Py.has_char (ch "[") content && Py.contains (py "]:") content
          = true.
Proof.
  split; [vm_compute; reflexivity|].
  apply (converts_only_legacy (Y := sample_yaml) legacy_file).
  vm_compute. reflexivity.
Defined.

Lemma prose_is_skipped_witness :
  convert_framework (Y := prose_yaml) legacy_file
  = (legacy_file, Returns false).
Proof.
  apply (prose_is_skipped (Y := prose_yaml) legacy_file (py "new")
           [(py "name", VStr (py "Notes"));
            (py "framework", VDict [(py "content", VStr (py "Think twice."))])]
           [(py "content", VStr (py "Think twice."))] (py "Think twice."));
    reflexivity.
Defined.

Lemma convert_twice_witness :
  snd (convert_framework (Y := round_trip_yaml) legacy_file) = Returns true
  /\ convert_framework (Y := round_trip_yaml)
       (fst (convert_framework (Y := round_trip_yaml) legacy_file))
     = (fst (convert_framework (Y := round_trip_yaml) legacy_file),
        Returns false).
Proof.
  apply (convert_twice (Y := round_trip_yaml) legacy_file (py "new")
           legacy_doc converted_doc);
    vm_compute; reflexivity.
Defined.

End Examples.
End ConvertMore.

(** ** More on the remediator *)

Module RemediateMore.
Import Re ReFacts Remediate RemediateMain PyFacts EscapeFacts RemediateFacts
  IndentFacts.

Section Facts.
Context {U : Unicode}.

(** [fix_yaml_file] on one file, written out: the statistics, the file
    and the result in each of its cases. *)
Lemma fix_yaml_file_run s f :
  fix_yaml_file (path f) (World s f) =
  match read f with
  | Raises e =>
      (World (bump_files_processed (append_error (error_msg (path f) e) s)) f,
       Returns false)
  | Returns content =>
      let s1 := if Py.has_char NBSP content then bump_nbsp_removed s else s in
      let s2 := if negb (Py.startswith marker (Py.strip (fix_nbsp content)))
                then bump_doc_markers_added s1 else s1 in
      let s3 := Nat.iter (fst (fix_escaped_text (fix_marker (fix_nbsp content))))
                         bump_escapes_fixed s2 in
      match remediate content with
      | Raises e =>
          (World (bump_files_processed
                    (append_error (error_msg (path f) e) s3)) f,
           Returns false)
      | Returns fixed =>
          if negb (str_eqb fixed content) then
            match write f fixed with
            | Returns f' =>
                (World (bump_files_processed (bump_files_fixed s3)) f',
                 Returns true)
            | Raises e =>
                (World (bump_files_processed
                          (append_error (error_msg (path f) e) s3)) f,
                 Returns false)
            end
          else (World (bump_files_processed s3) f, Returns false)
      end
  end.
Proof.
  unfold fix_yaml_file, remediate, fix_nbsp, fix_marker,
    try_finally, try_except, bind, read_file, _fix_escaped_content,
    write_file, update, ret, error_msg.
  cbn [st disk].
  destruct (read f) as [content|e0]; cbn [st disk fst snd]; [|reflexivity].
  destruct (Py.has_char NBSP content); cbn [st disk fst snd];
    (destruct (negb (Py.startswith marker (Py.strip _))); cbn [st disk fst snd];
     (destruct (fix_escaped_text _) as [n [fixed|e1]]; cbn [st disk fst snd];
      [ destruct (negb (str_eqb fixed content)); cbn [st disk fst snd];
        [ unfold write; destruct (writable f); cbn [st disk fst snd] | ]
      | ])).
  all: reflexivity.
Qed.

(** A match of the pattern holds a backslash. *)
Lemma escaped_needs_backslash bos (l : str) :
  Py.has_char (ch "\") l = false -> match_at escaped_pattern bos l = None.
Proof.
  intros Hb. destruct (match_at escaped_pattern bos l) as [m|] eqn:H;
    [exfalso|reflexivity].
  apply match_at_inv in H. destruct H as (rest & st & Hr & _ & _).
  unfold escaped_pattern in Hr. cbn [mrun] in Hr.
  apply greedy_rep_sound in Hr.
  destruct Hr as (ws & post & -> & _ & _ & Hr).
  cbn [mrun] in Hr. apply greedy_rep_sound in Hr.
  destruct Hr as (w & post2 & -> & _ & _ & Hr).
  cbn [mrun] in Hr.
  destruct post2 as [|c2 post2]; [discriminate|].
  destruct (lit ":" c2); [|discriminate].
  apply greedy_rep_sound in Hr.
  destruct Hr as (ws2 & post3 & -> & _ & _ & Hr).
  cbn [mrun] in Hr.
  destruct post3 as [|q post3]; [discriminate|].
  destruct (N.eqb 34 q); [|discriminate].
  apply greedy_rep_sound in Hr.
  destruct Hr as (v1 & post4 & -> & _ & _ & Hr).
  cbn [mrun] in Hr.
  destruct post4 as [|b1 post4]; [discriminate|].
  destruct (lit "\" b1) eqn:Hb1; [|discriminate].
  apply N.eqb_eq in Hb1. subst b1.
  unfold Py.has_char in Hb.
  repeat (rewrite existsb_app in Hb; cbn [existsb] in Hb).
  rewrite N.eqb_refl in Hb. rewrite ?orb_true_r in Hb. discriminate.
Qed.

(** A text without a backslash is left as it is. *)
Lemma pass_no_backslash (l : str) :
  forall bos, Py.has_char (ch "\") l = false -> pass bos l = (0, Returns l).
Proof.
  induction l as [|c t IH]; intros bos H.
  - apply pass_nil.
  - rewrite pass_copy by (now apply escaped_needs_backslash).
    rewrite IH; [reflexivity|].
    unfold Py.has_char in *. cbn [existsb] in H.
    apply orb_false_elim in H. apply H.
Qed.

(** X16.  A file that is already compliant is left alone: when its text
    holds no non-breaking space, begins (trimmed) with the start marker and
    holds no backslash, or no double quote, [fix_yaml_file] returns
    [False], does not write, and changes no counter but
    [files_processed]. *)
Theorem compliant_file_untouched s (f : file) (content : str) :
  read f = Returns content ->
  Py.has_char NBSP content = false ->
  Py.startswith marker (Py.strip content) = true ->
  Py.has_char (ch "\") content = false \/ Py.has_char 34%N content = false ->
  fix_yaml_file (path f) (World s f)
  = (World (bump_files_processed s) f, Returns false).
Proof.
  intros Hr Hn Hm Hq. rewrite fix_yaml_file_run, Hr. cbv zeta.
  unfold remediate. rewrite (fix_nbsp_fixed content Hn).
  rewrite (fix_marker_fixed content Hm), Hn, Hm. cbn [negb].
  assert (Hp : fix_escaped_text content = (0, Returns content)).
  { destruct Hq as [Hq|Hq];
      [now apply pass_no_backslash|now apply pass_no_quote]. }
  rewrite Hp. cbn [fst snd Nat.iter].
  unfold str_eqb. destruct (str_eq_dec content content); [reflexivity|].
  congruence.
Qed.

(** The counters the three fixers leave alone. *)
Lemma fixers_keep s (content : str) :
  let s1 := if Py.has_char NBSP content then bump_nbsp_removed s else s in
  let s2 := if negb (Py.startswith marker (Py.strip (fix_nbsp content)))
            then bump_doc_markers_added s1 else s1 in
  let s3 := Nat.iter (fst (fix_escaped_text (fix_marker (fix_nbsp content))))
                     bump_escapes_fixed s2 in
  values_quoted s3 = values_quoted s
  /\ files_fixed s3 = files_fixed s
  /\ errors s3 = errors s
  /\ doc_markers_added s3
     = doc_markers_added s
       + (if Py.startswith marker (Py.strip content) then 0 else 1).
Proof.
  cbv zeta. rewrite fix_nbsp_marker.
  generalize (fst (fix_escaped_text (fix_marker (fix_nbsp content)))) as n.
  induction n as [|n (IH1 & IH2 & IH3 & IH4)].
  - cbn [Nat.iter].
    destruct (Py.has_char NBSP content),
      (Py.startswith marker (Py.strip content)); cbn; repeat split; lia.
  - change (Nat.iter (S n) bump_escapes_fixed ?x)
      with (bump_escapes_fixed (Nat.iter n bump_escapes_fixed x)).
    cbn [bump_escapes_fixed values_quoted files_fixed errors
         doc_markers_added]. auto.
Qed.

(** One file in a batch: the counters the summary reports. *)
Lemma fix_yaml_file_tally s (f : file) :
  let s' := st (fst (fix_yaml_file (path f) (World s f))) in
  values_quoted s' = values_quoted s
  /\ files_fixed s' = files_fixed s + (if fixes f then 1 else 0)
  /\ length (errors s') + (if fixes f then 1 else 0) <= S (length (errors s)).
Proof.
  cbv zeta. unfold fixes. rewrite !fix_yaml_file_run.
  destruct (read f) as [content|e].
  2:{ cbn. rewrite length_app. cbn. repeat split; lia. }
  destruct (fixers_keep s content) as (H1 & H2 & H3 & _).
  cbv zeta in *.
  destruct (remediate content) as [fixed|e].
  - destruct (negb (str_eqb fixed content)).
    + unfold write. destruct (writable f);
        cbn [fst snd st bump_files_processed bump_files_fixed append_error
             values_quoted files_fixed errors];
        rewrite H1, H2, H3, ?length_app; cbn [length]; repeat split; lia.
    + cbn [fst snd st bump_files_processed values_quoted files_fixed errors].
      rewrite H1, H2, H3. repeat split; lia.
  - cbn [fst snd st bump_files_processed append_error
         values_quoted files_fixed errors].
    rewrite H1, H2, H3, length_app. cbn [length]. repeat split; lia.
Qed.

Lemma fix_yaml_file_processed s (f : file) :
  files_processed (st (fst (fix_yaml_file (path f) (World s f))))
  = S (files_processed s).
Proof.
  assert (Hi : forall n s0, files_processed (Nat.iter n bump_escapes_fixed s0)
                            = files_processed s0).
  { induction n as [|n IH]; intros s0; [reflexivity|].
    change (Nat.iter (S n) bump_escapes_fixed s0)
      with (bump_escapes_fixed (Nat.iter n bump_escapes_fixed s0)).
    cbn [bump_escapes_fixed files_processed]. apply IH. }
  rewrite fix_yaml_file_run.
  destruct (read f) as [content|e]; [|reflexivity]. cbv zeta.
  destruct (remediate content) as [fixed|e].
  - destruct (negb (str_eqb fixed content)); [unfold write; destruct (writable f)|];
      cbn [fst st bump_files_processed bump_files_fixed append_error
           files_processed];
      rewrite Hi; destruct (Py.has_char NBSP content), (negb _); reflexivity.
  - cbn [fst st bump_files_processed append_error files_processed].
    rewrite Hi. destruct (Py.has_char NBSP content), (negb _); reflexivity.
Qed.

(** X18.  Over a batch, [values_quoted] never changes, [files_fixed]
    grows by the number of files on which [fix_yaml_file] returns [True],
    and no file is counted both as fixed and as an error: the two
    together grow by no more than the number of files. *)
Theorem batch_tally (yaml_files : list file) :
  forall s,
    let s' := fst (process_directory s yaml_files) in
    values_quoted s' = values_quoted s
    /\ files_fixed s' = files_fixed s + length (filter fixes yaml_files)
    /\ files_fixed s' + length (errors s')
       <= files_fixed s + length (errors s) + length yaml_files.
Proof.
  induction yaml_files as [|f rest IH]; intros s.
  - cbn. repeat split; lia.
  - cbv zeta. cbn [process_directory].
    destruct (fix_yaml_file_tally s f) as (H1 & H2 & H3). cbv zeta in *.
    set (w := fst (fix_yaml_file (path f) (World s f))) in *.
    specialize (IH (st w)). cbv zeta in IH. destruct IH as (I1 & I2 & I3).
    destruct (process_directory (st w) rest) as [s' rest'].
    cbn [fst] in *. cbn [filter length].
    destruct (fixes f); cbn [length]; repeat split; lia.
Qed.

(** X19.  The numbers of the summary stay consistent over a batch: when
    the files fixed and the errors together are no more than the files
    processed before the batch, they are no more after it, so the dividend
    of the success rate in [print_summary] is never negative, and never
    less than the number of files fixed. *)
Theorem summary_stays_consistent (yaml_files : list file) :
  forall s,
    files_fixed s + length (errors s) <= files_processed s ->
    let s' := fst (process_directory s yaml_files) in
    files_fixed s' + length (errors s') <= files_processed s'
    /\ (0 <= Z.of_nat (files_fixed s') <= success_count s')%Z.
Proof.
  assert (H : forall s,
             files_fixed s + length (errors s) <= files_processed s ->
             files_fixed (fst (process_directory s yaml_files))
             + length (errors (fst (process_directory s yaml_files)))
             <= files_processed (fst (process_directory s yaml_files))).
  { induction yaml_files as [|f rest IH]; intros s Hs; [exact Hs|].
    cbn [process_directory].
    destruct (fix_yaml_file_tally s f) as (_ & H2 & H3). cbv zeta in *.
    pose proof (fix_yaml_file_processed s f) as H4.
    set (w := fst (fix_yaml_file (path f) (World s f))) in *.
    specialize (IH (st w)).
    destruct (process_directory (st w) rest) as [s' rest'].
    cbn [fst] in *. apply IH. destruct (fixes f); lia. }
  intros s Hs. cbv zeta. specialize (H s Hs). split; [exact H|].
  unfold success_count. lia.
Qed.

(** X20.  The counter of added markers counts a marker that never reaches
    the disk: on a file that can be read but not written and whose text
    does not begin (trimmed) with the marker, [fix_yaml_file] adds one to
    [doc_markers_added], records one error, returns [False] and leaves the
    file as it was. *)
Theorem marker_counted_without_write s (f : file) (content : str) :
  read f = Returns content ->
  writable f = false ->
  Py.startswith marker (Py.strip content) = false ->
  let r := fix_yaml_file (path f) (World s f) in
  doc_markers_added (st (fst r)) = S (doc_markers_added s)
  /\ length (errors (st (fst r))) = S (length (errors s))
  /\ files_fixed (st (fst r)) = files_fixed s
  /\ snd r = Returns false
  /\ disk (fst r) = f.
Proof.
  intros Hr Hw Hm. cbv zeta. rewrite fix_yaml_file_run, Hr.
  destruct (fixers_keep s content) as (_ & H2 & H3 & H4).
  cbv zeta in *. rewrite Hm in H4.
  destruct (remediate content) as [fixed|e] eqn:Hf.
  - assert (Hne : str_eqb fixed content = false).
    { unfold str_eqb. destruct (str_eq_dec fixed content) as [->|];
        [|reflexivity].
      unfold remediate in Hf.
      pose proof (marker_kept _ _ (fix_marker_marked (fix_nbsp content)) Hf).
      congruence. }
    rewrite Hne. cbn [negb]. unfold write. rewrite Hw.
    cbn [fst snd st disk bump_files_processed append_error
         doc_markers_added errors files_fixed].
    rewrite H2, H3, H4, length_app. cbn [length]. repeat split; lia.
  - cbn [fst snd st disk bump_files_processed append_error
         doc_markers_added errors files_fixed].
    rewrite H2, H3, H4, length_app. cbn [length]. repeat split; lia.
Qed.

End Facts.

Section Examples.
Import Samples MoreSamples.
#[local] Existing Instance ascii_unicode.

Lemma compliant_file_untouched_witness :
  fix_yaml_file (py "frameworks/e.yml")
    (World init {| path := py "frameworks/e.yml";
                   read := Returns (py "---" ++ [NL] ++ py "name: 'C:\\tmp'");
                   writable := true |})
  = (World (bump_files_processed init)
       {| path := py "frameworks/e.yml";
          read := Returns (py "---" ++ [NL] ++ py "name: 'C:\\tmp'");
          writable := true |},
     Returns false).
Proof.
  apply (compliant_file_untouched init
           {| path := py "frameworks/e.yml";
              read := Returns (py "---" ++ [NL] ++ py "name: 'C:\\tmp'");
              writable := true |}
           (py "---" ++ [NL] ++ py "name: 'C:\\tmp'"));
    [reflexivity|reflexivity|reflexivity|right; reflexivity].
Defined.

Lemma summary_stays_consistent_witness :
  let s' := fst (process_directory init [version_file; binary_file]) in
  files_fixed s' + length (errors s') <= files_processed s'
  /\ (0 <= Z.of_nat (files_fixed s') <= success_count s')%Z.
Proof.
  apply (summary_stays_consistent [version_file; binary_file] init).
  cbn. lia.
Defined.

Lemma marker_counted_without_write_witness :
  let r := fix_yaml_file (py "frameworks/v.yml")
             (World init {| path := py "frameworks/v.yml";
                            read := Returns bare_version;
                            writable := false |}) in
  doc_markers_added (st (fst r)) = 1
  /\ length (errors (st (fst r))) = 1
  /\ files_fixed (st (fst r)) = 0
  /\ snd r = Returns false
  /\ disk (fst r) = {| path := py "frameworks/v.yml";
                       read := Returns bare_version;
                       writable := false |}.
Proof.
  apply (marker_counted_without_write init
           {| path := py "frameworks/v.yml"; read := Returns bare_version;
              writable := false |} bare_version);
    reflexivity.
Defined.

End Examples.
End RemediateMore.

(** ** The codec round of [replace_escapes] *)

Module CodecMore.
Import Codec.

Section Facts.
Context {U : Unicode}.
Local Open Scope N_scope.

(** Outside an escape a byte that is no backslash is copied. *)
Lemma unicode_escape_copy (b : N) (t : list N) :
  b <> 92 ->
  unicode_escape Plain (b :: t) = emit b (unicode_escape Plain t).
Proof.
  intros H. cbn [unicode_escape].
  destruct (N.eqb_spec b 92); [contradiction|reflexivity].
Qed.

Lemma utf8_encode_app (a b : str) :
  utf8_encode (a ++ b) =
  match utf8_encode a, utf8_encode b with
  | Returns x, Returns y => Returns (x ++ y)
  | Raises e, _ => Raises e
  | _, Raises e => Raises e
  end.
Proof.
  induction a as [|c t IH]; cbn [app utf8_encode].
  - now destruct (utf8_encode b).
  - rewrite IH. destruct (utf8_char c) as [x|].
    + destruct (utf8_encode t) as [y|e]; [|reflexivity].
      destruct (utf8_encode b) as [z|e]; [|reflexivity].
      now rewrite app_assoc.
    + destruct (utf8_encode t), (utf8_encode b); reflexivity.
Qed.

Lemma utf8_encode_ascii (s : str) :
  (forall c, In c s -> c < 128) -> utf8_encode s = Returns s.
Proof.
  induction s as [|c t IH]; intros H; [reflexivity|].
  cbn [utf8_encode]. unfold utf8_char.
  destruct (N.ltb_spec c 128) as [_|Hc];
    [|specialize (H c (or_introl eq_refl)); lia].
  rewrite IH; [reflexivity|]. intros x Hx. apply H. now right.
Qed.

Lemma unicode_escape_prefix (pre : list N) (t : list N) :
  (forall c, In c pre -> c <> 92) ->
  unicode_escape Plain (pre ++ t) =
  match unicode_escape Plain t with
  | Returns r => Returns (pre ++ r)
  | Raises e => Raises e
  end.
Proof.
  induction pre as [|c p IH]; intros H; cbn [app].
  - now destruct (unicode_escape Plain t).
  - rewrite unicode_escape_copy by (apply H; now left).
    rewrite IH by (intros x Hx; apply H; now right).
    now destruct (unicode_escape Plain t).
Qed.

(** X21.  The codec round gives back a value of ASCII characters without
    a backslash as it is. *)
Theorem unescape_plain_ascii (value : str) :
  (forall c, In c value -> c < 128 /\ c <> 92) ->
  unescape value = Returns value.
Proof.
  intros H. unfold unescape.
  rewrite utf8_encode_ascii by (intros c Hc; apply H, Hc).
  rewrite <- (app_nil_r value) at 1.
  rewrite unicode_escape_prefix by (intros c Hc; apply H, Hc).
  cbn [unicode_escape]. now rewrite app_nil_r.
Qed.

(** X22.  The codec round does not give back a character from U+0080 to
    U+07FF: behind plain ASCII text it comes out as two characters, the
    two bytes of its UTF-8 form, whatever follows. *)
Theorem unescape_two_byte (pre : str) (c : char) (post : str) :
  (forall x, In x pre -> x < 128 /\ x <> 92) ->
  128 <= c < 2048 ->
  unescape (pre ++ c :: post) =
  match unescape post with
  | Returns r => Returns (pre ++ (192 + c / 64) :: (128 + c mod 64) :: r)
  | Raises e => Raises e
  end.
Proof.
  intros Hpre Hc. unfold unescape.
  rewrite utf8_encode_app.
  rewrite utf8_encode_ascii by (intros x Hx; apply Hpre, Hx).
  cbn [utf8_encode]. unfold utf8_char.
  destruct (N.ltb_spec c 128) as [|_]; [lia|].
  destruct (N.ltb_spec c 2048) as [_|]; [|lia].
  destruct (utf8_encode post) as [b|e]; [|reflexivity].
  rewrite unicode_escape_prefix by (intros x Hx; apply Hpre, Hx).
  cbn [app].
  rewrite (unicode_escape_copy (192 + c / 64))
    by (clear; generalize (c / 64); intros n; lia).
  rewrite (unicode_escape_copy (128 + c mod 64))
    by (clear; generalize (c mod 64); intros n; lia).
  destruct (unicode_escape Plain b); reflexivity.
Qed.

End Facts.

Section Examples.
#[local] Existing Instance ascii_unicode.

Lemma unescape_plain_ascii_witness :
  unescape (py "plain text") = Returns (py "plain text").
Proof.
  apply unescape_plain_ascii. intros c Hc. cbn in Hc.
  repeat (destruct Hc as [<-|Hc]; [split; [reflexivity|discriminate]|]).
  destruct Hc.
Defined.

Lemma unescape_two_byte_witness :
  unescape (py "caf" ++ 233%N :: py "\n")
  = Returns (py "caf" ++ [195%N; 169%N; NL]).
Proof.
  rewrite (unescape_two_byte (py "caf") 233%N (py "\n")).
  - reflexivity.
  - intros c Hc. cbn in Hc.
    repeat (destruct Hc as [<-|Hc]; [split; [reflexivity|discriminate]|]).
    destruct Hc.
  - split; [discriminate|reflexivity].
Defined.

End Examples.
End CodecMore.

(** ** More on the marker script, and the scripts one after another *)

Module MarkerMore.
Import Re Convert Remediate DocMarkers MarkersMain PyFacts RemediateFacts
  RemediateMore.

(** The marker and a newline in front make a text that begins with the
    marker. *)
Lemma marked_text (content : str) :
  Py.startswith (py "---") (Py.strip (py "---" ++ [NL] ++ content)) = true.
Proof.
  change (py "---" ++ [NL] ++ content)
    with ([] ++ 45 :: 45 :: 45 :: NL :: content)%N.
  now apply strip_startswith_intro.
Qed.

(** [add_doc_marker] has nothing to do on a file whose text begins with
    the marker. *)
Lemma add_doc_marker_marked (f : file) (content : str) :
  read f = Returns content ->
  Py.startswith (py "---") (Py.strip content) = true ->
  add_doc_marker f = (f, Returns false).
Proof. intros Hr Hm. unfold add_doc_marker. now rewrite Hr, Hm. Qed.

(** What [add_doc_marker] lets through. *)
Lemma add_doc_marker_raise_inv (f : file) (e : exn) :
  snd (add_doc_marker f) = Raises e ->
  read f = Raises e /\ kind e <> OSError /\ fst (add_doc_marker f) = f.
Proof.
  unfold add_doc_marker, write.
  destruct (read f) as [content|[k msg]].
  - destruct (Py.startswith (py "---") (Py.strip content)); [discriminate|].
    destruct (writable f); discriminate.
  - destruct k; cbn [fst snd]; intros H; try discriminate;
      injection H as <-; repeat split; discriminate.
Qed.

(** X23.  [add_doc_marker] never raises an [OSError]: what it raises is
    what reading the file raised, of another class, and the file is then
    as it was. *)
Theorem add_doc_marker_raises (f : file) (e : exn) :
  snd (add_doc_marker f) = Raises e ->
  read f = Raises e /\ kind e <> OSError /\ fst (add_doc_marker f) = f.
Proof. apply add_doc_marker_raise_inv. Qed.

(** X24.  A second run of [add_doc_marker] has nothing to do: after a run
    that returned, on the file it left, it returns [False] and does not
    write. *)
Theorem add_doc_marker_twice (f : file) (b : bool) :
  snd (add_doc_marker f) = Returns b ->
  add_doc_marker (fst (add_doc_marker f))
  = (fst (add_doc_marker f), Returns false).
Proof.
  unfold add_doc_marker at 1 3 4, write.
  destruct (read f) as [content|[k msg]] eqn:Hr.
  - destruct (Py.startswith (py "---") (Py.strip content)) eqn:Hm.
    + intros _. cbn [fst]. now apply (add_doc_marker_marked f content).
    + destruct (writable f) eqn:Hw; intros _; cbn [fst].
      * apply (add_doc_marker_marked _ (py "---" ++ [NL] ++ content));
          [reflexivity|apply marked_text].
      * unfold add_doc_marker, write. now rewrite Hr, Hm, Hw.
  - destruct k; cbn [fst snd]; intros H; try discriminate.
    unfold add_doc_marker. now rewrite Hr.
Qed.

(** X25.  The loop of [main] in the marker script, when no file fails to
    decode: every file is visited and counted once, as modified when
    [add_doc_marker] returns [True] and as skipped otherwise. *)
Theorem marker_loop_counts (yaml_files : list file) :
  (forall f e, In f yaml_files -> read f = Raises e -> kind e = OSError) ->
  forall modified_count skipped_count,
    marker_loop yaml_files modified_count skipped_count
    = (Returns (modified_count + length (filter marks yaml_files),
                skipped_count
                + length (filter (fun f => negb (marks f)) yaml_files)),
       map (fun f => fst (add_doc_marker f)) yaml_files).
Proof.
  induction yaml_files as [|f rest IH]; intros H m s.
  - cbn. now rewrite !Nat.add_0_r.
  - cbn [marker_loop filter map].
    assert (Hm : marks f = match snd (add_doc_marker f) with
                           | Returns true => true
                           | _ => false
                           end) by reflexivity.
    destruct (add_doc_marker f) as [f' [[|]|e]] eqn:Ha; cbn [fst snd] in *;
      rewrite ?Hm; cbn [negb].
    + rewrite IH by (intros x e Hx; apply H; now right).
      cbn [length Nat.add]. now rewrite Nat.add_succ_r.
    + rewrite IH by (intros x e Hx; apply H; now right).
      cbn [length Nat.add]. now rewrite Nat.add_succ_r.
    + exfalso. destruct (add_doc_marker_raise_inv f e) as (Hr & Hk & _).
      { now rewrite Ha. }
      apply Hk. apply (H f e); [now left|exact Hr].
Qed.

(** X26.  The loop of [main] in the marker script stops at the first file
    that fails to decode: the exception leaves [main], the files before it
    are done, and the files behind it are not visited. *)
Theorem marker_loop_stops (done rest : list file) (bad : file) (e : exn) :
  (forall f e', In f done -> read f = Raises e' -> kind e' = OSError) ->
  read bad = Raises e -> kind e <> OSError ->
  forall modified_count skipped_count,
    marker_loop (done ++ bad :: rest) modified_count skipped_count
    = (Raises e, map (fun f => fst (add_doc_marker f)) done ++ bad :: rest).
Proof.
  intros Hd Hr Hk.
  assert (Hb : add_doc_marker bad = (bad, Raises e)).
  { unfold add_doc_marker. rewrite Hr. destruct e as [k msg].
    destruct k; try reflexivity. now contradiction Hk. }
  induction done as [|f d IH]; intros m s.
  - cbn [app marker_loop map]. now rewrite Hb.
  - cbn [app marker_loop map].
    destruct (add_doc_marker f) as [f' [[|]|e']] eqn:Ha; cbn [fst].
    + rewrite IH by (intros x e' Hx; apply Hd; now right). reflexivity.
    + rewrite IH by (intros x e' Hx; apply Hd; now right). reflexivity.
    + exfalso. destruct (add_doc_marker_raise_inv f e') as (Hr' & Hk' & _).
      { now rewrite Ha. }
      apply Hk'. apply (Hd f e'); [now left|exact Hr'].
Qed.

Section Composition.
Context {U : Unicode}.

(** X27.  After the remediator the marker script has nothing to do: on
    the file [fix_yaml_file] leaves, unless it recorded an error for it,
    [add_doc_marker] returns [False] and does not write. *)
Theorem remediated_needs_no_marker s (f : file) :
  failure f = None ->
  let f' := disk (fst (fix_yaml_file (path f) (World s f))) in
  add_doc_marker f' = (f', Returns false).
Proof.
  unfold failure. intros H. cbv zeta. rewrite fix_yaml_file_run.
  destruct (read f) as [content|e] eqn:Hr; [|discriminate].
  cbv zeta. destruct (remediate content) as [fixed|e] eqn:Hf; [|discriminate].
  assert (Hm : Py.startswith (py "---") (Py.strip fixed) = true).
  { unfold remediate in Hf.
    exact (marker_kept _ _ (fix_marker_marked (fix_nbsp content)) Hf). }
  destruct (str_eqb fixed content) eqn:He; cbn [negb] in *.
  - cbn [fst disk]. apply DictFacts.str_eqb_eq in He. subst fixed.
    now apply (add_doc_marker_marked f content).
  - unfold write in *. destruct (writable f); [|discriminate].
    cbn [fst disk]. now apply (add_doc_marker_marked _ fixed).
Qed.

Context {Y : Yaml}.

(** X28.  After the converter the marker script has nothing to do: on a
    file [convert_framework] has converted, [add_doc_marker] returns
    [False] and does not write. *)
Theorem converted_needs_no_marker (f : file) :
  snd (convert_framework f) = Returns true ->
  add_doc_marker (fst (convert_framework f))
  = (fst (convert_framework f), Returns false).
Proof.
  unfold convert_framework.
  destruct (obind (read f) safe_load) as [data|]; [|discriminate].
  destruct (convert_data data) as [[data'|]|]; try discriminate.
  unfold write. destruct (writable f); [|discriminate].
  intros _. cbn [fst].
  apply (add_doc_marker_marked _ (py "---" ++ [NL] ++ dump data'));
    [reflexivity|apply marked_text].
Qed.

End Composition.

Section Examples.
Import Samples MoreSamples.
#[local] Existing Instance ascii_unicode.

Lemma add_doc_marker_raises_witness :
  snd (add_doc_marker binary_file)
  = Raises (Exn UnicodeDecodeError (py "invalid start byte"))
  /\ kind (Exn UnicodeDecodeError (py "invalid start byte")) <> OSError.
Proof.
  split; [reflexivity|].
  apply (add_doc_marker_raises binary_file). reflexivity.
Defined.

Lemma add_doc_marker_twice_witness :
  add_doc_marker (fst (add_doc_marker version_file))
  = (fst (add_doc_marker version_file), Returns false).
Proof. apply (add_doc_marker_twice version_file true). reflexivity. Defined.

Lemma marker_loop_counts_witness :
  marker_loop [version_file; missing_file] 0 0
  = (Returns (1, 1),
     [fst (add_doc_marker version_file); missing_file]).
Proof.
  rewrite (marker_loop_counts [version_file; missing_file]);
    [reflexivity|].
  intros f e [<-|[<-|[]]] H; [discriminate H|].
  injection H as <-. reflexivity.
Defined.

Lemma marker_loop_stops_witness :
  marker_loop [version_file; binary_file; version_file] 0 0
  = (Raises (Exn UnicodeDecodeError (py "invalid start byte")),
     [fst (add_doc_marker version_file); binary_file; version_file]).
Proof.
  apply (marker_loop_stops [version_file] [version_file] binary_file).
  - intros f e [<-|[]] H. discriminate H.
  - reflexivity.
  - discriminate.
Defined.

Lemma remediated_needs_no_marker_witness :
  add_doc_marker
    (disk (fst (fix_yaml_file (path version_file) (World init version_file))))
  = (disk (fst (fix_yaml_file (path version_file) (World init version_file))),
     Returns false).
Proof.
  apply (remediated_needs_no_marker init version_file).
  vm_compute. reflexivity.
Defined.

Lemma converted_needs_no_marker_witness :
  add_doc_marker (fst (convert_framework (Y := sample_yaml) legacy_file))
  = (fst (convert_framework (Y := sample_yaml) legacy_file), Returns false).
Proof.
  apply (converted_needs_no_marker (Y := sample_yaml) legacy_file).
  vm_compute. reflexivity.
Defined.

End Examples.
End MarkerMore.

(** ** The parser: depth, duplicate tags, leftover text *)

Module ParserClaims.
Import Re ReFacts Convert ConvertMain Depth ParseFacts DictFacts TagFacts
  DepthFacts ReMore TagMore NestedMore.

Section Claims.
Context {U : Unicode}.


(** C3, amended.  Let [limit] be the number of nested calls of
    [parse_xml_to_yaml] the interpreter allows.  The function returns a
    node on a text exactly when [limit] is at least the depth of the calls
    it makes on the text, and raises [RecursionError] otherwise; that
    depth is at least one and at most the length of the text plus one; and
    whatever the limits, two calls that return on one text return equal
    nodes. *)
Theorem parse_returns_within_depth :
  forall t : str,
    1 <= call_depth t <= S (length t)
    /\ (forall limit,
          call_depth t <= limit <-> exists node, parse_fuel limit t = Some node)
    /\ (forall limit, limit < call_depth t -> parse_fuel limit t = None)
    /\ (forall limit limit' node node',
          parse_fuel limit t = Some node ->
          parse_fuel limit' t = Some node' -> node = node').
Proof.
  intros t. unfold call_depth.
  destruct (depth_fuel_bounds (S (length t)) t) as [Hle Hge].
  split; [split; [apply Hge; lia|exact Hle]|].
  assert (Hiff : forall limit,
             depth_fuel (S (length t)) t <= limit
             <-> exists node, parse_fuel limit t = Some node).
  { intros limit. apply parse_fuel_depth. lia. }
  split; [exact Hiff|]. split.
  - intros limit Hlt.
    destruct (parse_fuel limit t) as [node|] eqn:Hp; [|reflexivity].
    assert (depth_fuel (S (length t)) t <= limit) by (apply Hiff; eauto).
    lia.
  - intros limit limit' node node' H1 H2.
    apply parse_fuel_unlimited in H1. apply parse_fuel_unlimited in H2.
    congruence.
Qed.



End Claims.

(** The claims above at work on ASCII text. *)
Section Examples.
Import Samples ParserSamples.
#[local] Existing Instance ascii_unicode.

(** A run of [a] does not reach behind a shorter run of [a] and a closing
    angle bracket. *)
Lemma a_run_mismatch (j : nat) :
  forall k rest, j < k ->
    after_prefix true (repeat (ch "a") k) (repeat (ch "a") j ++ ch ">" :: rest)
    = None.
Proof.
  induction j as [|j IH]; intros k rest Hlt;
    (destruct k as [|k]; [lia|]).
  - reflexivity.
  - cbn [repeat app after_prefix]. rewrite N.eqb_refl. apply IH. lia.
Qed.

Lemma a_run_name (k : nat) :
  repeat (ch "a") (S k) <> [] /\ forallb (noneof "/>") (repeat (ch "a") (S k)) = true.
Proof.
  split; [discriminate|]. induction k as [|k IH]; [reflexivity|].
  change (repeat (ch "a") (S (S k))) with (ch "a" :: repeat (ch "a") (S k)).
  cbn [forallb]. now rewrite IH.
Qed.

(** No closing tag for a longer name begins inside [nested n]. *)
Lemma nested_sealed (n : nat) :
  forall k (R x y : str), n < k ->
    nested n = x ++ y -> y <> [] ->
    tag_closes true (repeat (ch "a") k) (y ++ ch "<" :: R) = false.
Proof.
  induction n as [|n IH]; intros k R x y Hlt.
  - apply (sealed_plain true (repeat (ch "a") k) (nested 0)). reflexivity.
  - cbn [nested]. destruct (a_run_name n) as [Hne Hname].
    apply (sealed_tag true (repeat (ch "a") k) (repeat (ch "a") (S n))
             (nested n) Hne Hname).
    + intros R' x' y'. apply IH. lia.
    + intros rest. unfold tag_closes. unfold lit at 1 2.
      rewrite !N.eqb_refl. cbn [andb]. now rewrite a_run_mismatch.
Qed.

(** With [n] nested calls allowed the function raises on [n + 1] pairs
    one inside the other. *)
Lemma deep_raises (n : nat) : parse_fuel n (nested (S n)) = None.
Proof.
  induction n as [|n IH]; [reflexivity|].
  change (nested (S (S n)))
    with (tag_text (repeat (ch "a") (S (S n))) (nested (S n))).
  destruct (a_run_name (S n)) as [Hne Hname].
  destruct (a_run_name n) as [Hne' Hname'].
  cbn [parse_fuel]. unfold finditer.
  rewrite (tag_alone_scan true _ _ Hne Hname)
    by (intros R x y; apply nested_sealed; lia).
  cbn [flat_map app fold_left].
  unfold tag_step, tag_value, group. cbn [groups lookup Nat.eqb].
  change (nested (S n)) with (tag_text (repeat (ch "a") (S n)) (nested n)) at 1 2.
  rewrite strip_tag_text.
  rewrite <- (app_nil_r (tag_text (repeat (ch "a") (S n)) (nested n))) at 1.
  rewrite (nested_found _ _ [] Hne' Hname').
  change (tag_text (repeat (ch "a") (S n)) (nested n)) with (nested (S n)).
  now rewrite IH.
Qed.

(** C3 as it was stated fails on text nested deeper than the interpreter
    allows: with a thousand nested calls allowed, the default limit of
    the interpreter for all calls together, the function raises on 1001
    tag pairs one inside the other. *)
Lemma thousand_pairs_raise : parse_fuel 1000 (nested 1001) = None.
Proof. apply deep_raises. Qed.





End Examples.
End ParserClaims.

(** ** The remediator twice *)

Module TwiceClaims.
Import Re ReFacts Remediate Settled PyFacts EscapeFacts RemediateFacts
  RemediateMore.

Section Claims.
Context {U : Unicode}.









End Claims.

Section Examples.
Import Samples RemediateSamples.
#[local] Existing Instance ascii_unicode.


(** So is [nbsp_and_field], by its double quotes. *)
Lemma nbsp_and_field_settles :
  converts_every_quote nbsp_and_field = true
  /\ remediate nbsp_and_field = Returns nbsp_and_field_fixed
  /\ remediate nbsp_and_field_fixed = Returns nbsp_and_field_fixed.
Proof. repeat split; vm_compute; reflexivity. Qed.


End Examples.
End TwiceClaims.

(** ** The remediator on text files, one file and a batch *)

Module BatchClaims.
Import Re Remediate TextFile RemediateIO RemediateFacts RemediateMore.

Section Claims.
Context {U : Unicode}.






End Claims.

Section Examples.
Import Samples RemediateSamples.
#[local] Existing Instance ascii_unicode.

(** A text that cannot be encoded empties the file. *)
Lemma surrogate_empties_the_file :
  let r := fix_yaml_file (path surrogate_file) (World init surrogate_file) in
  snd r = Returns false
  /\ read (disk (fst r)) = Returns []
  /\ length (errors (st (fst r))) = 1.
Proof. repeat split; vm_compute; reflexivity. Qed.

End Examples.
End BatchClaims.

(** ** The converter on text files *)

Module ConvertIOFacts.
Import Re Convert TextFile ConvertIO.

Lemma newlines_marker (text : str) :
  newlines (py "---" ++ [NL] ++ text) = py "---" ++ NL :: newlines text.
Proof. reflexivity. Qed.

Section Facts.
Context {U : Unicode} {Y : Yaml} {D : Dumper}.
Variable limit : nat.

(** X12.  [convert_framework] leaves the file as it was when it returns
    [False].  When it returns [True], the file was readable and writable,
    the document loaded from it was converted, the dump of the converted
    document ended without exception, and the file holds the start
    marker, a newline and what the dump has written.  When it raises,
    either the file is as it was, or the file had been opened for writing
    and the exception is the one the dump of the converted document ended
    with: the text read is gone, the file holds the marker, a newline and
    what the dump had written. *)
Theorem convert_writes_only_on_true (yaml_file : file) :
  let r := ConvertIO.convert_framework limit yaml_file in
  let written data' ending :=
    exists data,
      obind (read yaml_file) safe_load = Returns data
      /\ ConvertIO.convert_data limit data = Returns (Some data')
      /\ writable yaml_file = true
      /\ snd (dump_to data') = ending
      /\ fst r
         = {| path := path yaml_file;
              read := Returns (py "---" ++ NL :: newlines (fst (dump_to data')));
              writable := true |} in
  (snd r = Returns false -> fst r = yaml_file)
  /\ (snd r = Returns true -> exists data', written data' None)
  /\ (forall e, snd r = Raises e ->
        fst r = yaml_file \/ exists data', written data' (Some e)).
Proof.
  cbv zeta. unfold ConvertIO.convert_framework.
  destruct (obind (read yaml_file) safe_load) as [data|e0];
    [|cbn [fst snd]; repeat split; auto; discriminate].
  destruct (ConvertIO.convert_data limit data) as [[data'|]|e0] eqn:Hc;
    [|cbn [fst snd]; repeat split; auto; discriminate
     |cbn [fst snd]; repeat split; auto; discriminate].
  destruct (writable yaml_file) eqn:Hw; cbn [negb];
    [|cbn [fst snd]; repeat split; auto; discriminate].
  destruct (dump_to data') as [text [e1|]] eqn:Hd; cbn [fst snd].
  - split; [discriminate|]. split; [discriminate|].
    intros e He. injection He as <-. right. exists data', data.
    rewrite Hd. cbn [fst snd]. auto 6.
  - split; [discriminate|]. split; [|discriminate].
    intros _. exists data', data. rewrite Hd. cbn [fst snd]. auto 6.
Qed.

End Facts.

Section Examples.
Import Samples.
#[local] Existing Instance ascii_unicode.
#[local] Existing Instance sample_yaml.
#[local] Existing Instance failing_dumper.

(** When the dump fails the legacy text is lost. *)
Lemma failed_dump_loses_the_text :
  ConvertIO.convert_framework 1000 legacy_file
  = ({| path := path legacy_file; read := Returns (py "---" ++ [NL]);
        writable := true |},
     Raises (Exn RecursionError (py "maximum recursion depth exceeded"))).
Proof. vm_compute. reflexivity. Qed.

End Examples.
End ConvertIOFacts.
